(** * mcp-picnic: recipe discovery, recipe cache and checkout

    A shallow embedding of [src/tools/picnic-tools.ts]: the tree search
    [extractRecipes], the five-minute recipe cache [fetchRecipes], the
    recipe handlers, the checkout handler, the pagination of the search and
    deliveries handlers, the cart summary [filterCartData] and the delivery
    slots, followed by the properties proved about them.

    Conventions of the embedding.
    - A JavaScript [number] is an IEEE double.  Where the code computes in
      floating point (the servings, scale and quantities of
      [picnic_add_recipe_to_cart]) it is a [float], with the operations of
      the processor, their rounding, infinities and [NaN] included.  Where
      the code only copies or tests a number, or adds whole numbers (offsets,
      limits and lengths, whose sums are exact), it is written as the
      rational it denotes ([Q]).
    - A value of type [unknown] is a [json] tree.  An object is the list of
      its own properties in the order [Object.values] enumerates them.
    - A value whose TypeScript type is an interface is a record with the
      fields of that interface; an optional field [f?: T] is an [option T]
      ([None] is [undefined]).
    - [async] code runs in the monad [M]: the process state (module-level
      variables and the log of calls made to the Picnic client) is threaded
      through, and a rejected promise is the outcome [Thrown]. *)

From Stdlib Require Import String Ascii List Bool ZArith QArith Qround Lia Sorted.
From Stdlib Require Import PrimFloat FloatOps SpecFloat Uint63.
Import ListNotations.

Local Close Scope Q_scope.
Local Open Scope nat_scope.
Local Open Scope string_scope.
Local Open Scope list_scope.

(** * JavaScript values *)

Module JS.

(** [unknown]: the result of parsing a JSON document. *)
#[local] Unset Elimination Schemes.
Inductive json : Type :=
| JNull
| JBool (b : bool)
| JNum (n : Q)
| JStr (s : string)
| JArr (elements : list json)
| JObj (properties : list (string * json)).
#[local] Set Elimination Schemes.

(** Nesting depth of a document: the number of nested arrays and objects. *)
Fixpoint height (v : json) : nat :=
  match v with
  | JArr xs => S (fold_right (fun x h => Nat.max (height x) h) 0 xs)
  | JObj ps => S (fold_right (fun p h => Nat.max (height (snd p)) h) 0 ps)
  | _ => 0
  end.

(** ToBoolean. *)
Definition truthy (v : json) : bool :=
  match v with
  | JNull => false
  | JBool b => b
  | JNum n => negb (Qeq_bool n 0)
  | JStr s => negb (s =? "")
  | JArr _ | JObj _ => true
  end.

(** [rec.key] on an object: the first own property with that name,
    [None] for [undefined]. *)
Fixpoint getProperty (key : string) (properties : list (string * json)) : option json :=
  match properties with
  | [] => None
  | (k, v) :: rest => if k =? key then Some v else getProperty key rest
  end.

(** [Array.isArray]. *)
Definition isArray (v : option json) : bool :=
  match v with
  | Some (JArr _) => true
  | _ => false
  end.

(** ToBoolean of a possibly undefined value. *)
Definition truthyOpt (v : option json) : bool :=
  match v with
  | Some x => truthy x
  | None => false
  end.

(** [Math.ceil] on a double.  A double [m * 2^e] with [e >= 0] is whole, and
    so are the infinities, the zeros and [NaN]: they are returned as they are.
    Otherwise the double is below [2^53] in absolute value, and so is the
    whole number returned; a negative double above [-1] gives [-0]. *)
Definition Math_ceil (x : float) : float :=
  match Prim2SF x with
  | S754_finite negative m e =>
      if (0 <=? e)%Z then x
      else
        let whole := Z.shiftr (Zpos m) (- e) in
        if negative then PrimFloat.opp (PrimFloat.of_uint63 (Uint63.of_Z whole))
        else if (Z.shiftl whole (- e) =? Zpos m)%Z then x
             else PrimFloat.of_uint63 (Uint63.of_Z (whole + 1))
  | _ => x
  end.

(** ToIntegerOrInfinity on a finite number: truncation towards zero. *)
Definition toIntegerOrInfinity (x : Q) : Z := Z.quot (Qnum x) (Zpos (Qden x)).

(** The clamping of a relative index done by [Array.prototype.slice]. *)
Definition relativeIndex (len i : Z) : Z :=
  if (i <? 0)%Z then Z.max (len + i) 0 else Z.min i len.

(** [Array.prototype.slice(start, end)]. *)
Definition slice {A : Type} (l : list A) (start end_ : Q) : list A :=
  let len := Z.of_nat (List.length l) in
  let k := relativeIndex len (toIntegerOrInfinity start) in
  let final := relativeIndex len (toIntegerOrInfinity end_) in
  firstn (Z.to_nat (final - k)) (skipn (Z.to_nat k) l).

(** [s.slice(0, n)] on a string, for a literal [n >= 0]. *)
Definition stringSlice0 (n : nat) (s : string) : string := substring 0 n s.

(** [s.replace(pattern, replacement)] with a string pattern: only the first
    occurrence is replaced. *)
Definition replace (pattern replacement s : string) : string :=
  match index 0 pattern s with
  | None => s
  | Some i =>
      substring 0 i s ++ replacement
        ++ substring (i + String.length pattern)
                     (String.length s - (i + String.length pattern)) s
  end.

(** [a || b] on numbers. *)
Definition orNumber (a b : Q) : Q := if Qeq_bool a 0 then b else a.

(** [a < b] on numbers. *)
Definition ltNumber (a b : Q) : bool := negb (Qle_bool b a).

(** [l.length] as a number. *)
Definition lengthNumber {A : Type} (l : list A) : Q := inject_Z (Z.of_nat (List.length l)).

End JS.
Import JS.

(** * TreeSearch: [extractRecipes] *)

(** The test [rec.recipe_id && Array.isArray(rec.ingredients)]. *)
Definition recipeShaped (rec : list (string * json)) : bool :=
  truthyOpt (getProperty "recipe_id" rec) && isArray (getProperty "ingredients" rec).

(** The inner function [recurse]; the array [recipes] it pushes to is passed
    in and returned. *)
Fixpoint recurse (node : json) (recipes : list json) : list json :=
  match node with
  | JArr elements => fold_left (fun acc x => recurse x acc) elements recipes
  | JObj rec =>
      if recipeShaped rec then recipes ++ [node]
      else fold_left (fun acc p => recurse (snd p) acc) rec recipes
  | _ => recipes
  end.

Definition extractRecipes (obj : json) : list json := recurse obj [].

(** * Data model *)

(** [interface RecipeIngredient]. *)
Module RecipeIngredient.
Record t : Type := {
  selling_unit_id : string;
  name : string;
  ingredient_type : string;
  display_ingredient_quantity : Q;
  display_unit_of_measurement : string;
  selling_unit_quantity : float;
  availability_status : string
}.
End RecipeIngredient.

(** [interface PreparationInstruction]. *)
Module PreparationInstruction.
Record t : Type := {
  header : string;
  body : string;
  type : string
}.
End PreparationInstruction.

Module DisplayLabel.
Record t : Type := {
  text : string;
  text_color : string;
  background_color : string
}.
End DisplayLabel.

Module Image.
Record t : Type := {
  image_id : string;
  image_type : string
}.
End Image.

(** [interface Recipe]. *)
Module Recipe.
Record t : Type := {
  recipe_id : string;
  name : string;
  description : string;
  course : string;
  kitchen : string;
  is_vega_vegan : string;
  recipe_type : string;
  default_servings : float;
  minimum_servings : Q;
  maximum_servings : Q;
  serving_step : Q;
  active_preparation_time_in_minutes : Q;
  quality_cue : string;
  display_label : option DisplayLabel.t;
  ingredients : list RecipeIngredient.t;
  preparation_instructions : list PreparationInstruction.t;
  images : option (list Image.t)
}.
End Recipe.

(** The shopping cart as the checkout handler reads it
    ([as { mts?: number; state_token?: string; ... }]). *)
Module SelectedSlot.
Record t : Type := {
  slot_id : option string;
  window_start : option string;
  window_end : option string
}.
End SelectedSlot.

Module Cart.
Record t : Type := {
  mts : option Q;
  state_token : option string;
  total_count : option Q;
  checkout_total_price : option Q;
  selected_slot : option SelectedSlot.t
}.
End Cart.

(** The reply to the start call ([as { order_id?: string }]). *)
Module StartResult.
Record t : Type := {
  order_id : option string
}.
End StartResult.

Module DeliverySlot.
Record t : Type := {
  window_start : option string;
  window_end : option string
}.
End DeliverySlot.

(** The reply to the confirm call. *)
Module ConfirmResult.
Record t : Type := {
  order_id : option string;
  total_price : option Q;
  total_count : option Q;
  delivery_slot : option DeliverySlot.t
}.
End ConfirmResult.

(** A product as [client.search] returns it, with the fields the search
    handler reads. *)
Module Product.
Record t : Type := {
  id : string;
  name : string;
  display_price : Q;
  unit_quantity : string;
  image_id : option string
}.
End Product.

(** * Values returned by the handlers *)

(** [{ error, suggestion }]. *)
Module NotFound.
Record t : Type := {
  error : string;
  suggestion : string
}.
End NotFound.

Module RecipeSummary.
Record t : Type := {
  recipe_id : string;
  name : string;
  description : string;
  preparation_time_in_minutes : Q;
  default_servings : float;
  course : string;
  kitchen : string;
  is_vega_vegan : string;
  recipe_type : string;
  quality_cue : string;
  label : option string;
  ingredient_count : Q
}.
End RecipeSummary.

Module RecipeList.
Record t : Type := {
  recipes : list RecipeSummary.t;
  total : Q
}.
End RecipeList.

Module IngredientDetail.
Record t : Type := {
  selling_unit_id : string;
  name : string;
  ingredient_type : string;
  quantity : Q;
  unit : string;
  selling_unit_quantity : float;
  availability : string
}.
End IngredientDetail.

Module RecipeDetail.
Record t : Type := {
  recipe_id : string;
  name : string;
  description : string;
  course : string;
  kitchen : string;
  is_vega_vegan : string;
  recipe_type : string;
  default_servings : float;
  minimum_servings : Q;
  maximum_servings : Q;
  serving_step : Q;
  preparation_time_in_minutes : Q;
  quality_cue : string;
  label : option string;
  ingredients : list IngredientDetail.t;
  preparation_instructions : list PreparationInstruction.t;
  images : option (list string)
}.
End RecipeDetail.

Module AddedItem.
Record t : Type := {
  name : string;
  quantity : float
}.
End AddedItem.

Module AddRecipeResult.
Record t : Type := {
  recipe_name : string;
  servings : float;
  added : list AddedItem.t;
  skipped_cupboard : list string;
  unavailable : list string
}.
End AddRecipeResult.

Module DeliveryWindow.
Record t : Type := {
  start : option string;
  end_ : option string
}.
End DeliveryWindow.

Module CheckoutConfirmed.
Record t : Type := {
  order_id : option string;
  total_price : option Q;
  total_count : option Q;
  delivery_window : option DeliveryWindow.t
}.
End CheckoutConfirmed.

(** What [picnic_checkout] returns: [{ error }], [{ error, details }] or the
    confirmed order. *)
Inductive CheckoutResult : Type :=
| CheckoutError (error : string) (details : option StartResult.t)
| CheckoutDone (order : CheckoutConfirmed.t).

Module FilteredProduct.
Record t : Type := {
  id : string;
  name : string;
  price : Q;
  unit : string;
  image_id : option string
}.
End FilteredProduct.

Module Pagination.
Record t : Type := {
  offset : Q;
  limit : Q;
  returned : Q;
  total : Q;
  hasMore : bool
}.
End Pagination.

Module SearchResult.
Record t : Type := {
  query : string;
  results : list FilteredProduct.t;
  pagination : Pagination.t
}.
End SearchResult.

Module DeliveriesResult.
Record t : Type := {
  deliveries : list json;
  pagination : Pagination.t
}.
End DeliveriesResult.

(** * Process state, the Picnic client and the monad of handlers *)

(** A call made to the Picnic client. *)
Inductive Call : Type :=
| InitializePicnicClient
| Search (query : string)
| GetDeliveries (filter : list string)
| GetShoppingCart
| AddProductToShoppingCart (productId : string) (count : float)
| SendRequest (method path : string) (data : json) (includePicnicHeaders : option bool).

(** How an awaited call settles: fulfilled with a value or rejected. *)
Inductive outcome (A : Type) : Type :=
| Returned (value : A)
| Thrown (error : string).
Arguments Returned {A} value.
Arguments Thrown {A} error.

(** The external collaborator.  Each method answers from the log of all the
    calls made so far, the call being answered last, so an answer may depend
    on the arguments and on everything that happened before.  [sendRequest]
    is untyped in the source; every use asserts a type for the reply, and
    the collaborator has one answer function for each asserted type. *)
Module Client.
Record t : Type := {
  initialize : list Call -> outcome unit;
  search : list Call -> outcome (list Product.t);
  getDeliveries : list Call -> outcome (list json);
  getShoppingCart : list Call -> outcome Cart.t;
  addProductToShoppingCart : list Call -> outcome unit;
  sendRequest_unknown : list Call -> outcome json;
  sendRequest_start : list Call -> outcome StartResult.t;
  sendRequest_confirm : list Call -> outcome ConfirmResult.t
}.
End Client.

(** The module-level variables of [picnic-tools.ts], whether the client
    singleton has been created, and the log of client calls (oldest first). *)
Record World : Type := {
  clientReady : bool;
  recipeCacheData : option (list Recipe.t);
  recipeCacheTimestamp : Z;
  calls : list Call
}.

(** The state at process start. *)
Definition initialWorld : World :=
  {| clientReady := false; recipeCacheData := None; recipeCacheTimestamp := 0%Z; calls := [] |}.

Definition M (A : Type) : Type := World -> outcome A * World.

Definition ret {A : Type} (a : A) : M A := fun w => (Returned a, w).

Definition bind {A B : Type} (m : M A) (k : A -> M B) : M B :=
  fun w =>
    match m w with
    | (Returned a, w') => k a w'
    | (Thrown e, w') => (Thrown e, w')
    end.

(** [try { m } catch (error) { handler }]. *)
Definition tryCatch {A : Type} (m : M A) (handler : string -> M A) : M A :=
  fun w =>
    match m w with
    | (Returned a, w') => (Returned a, w')
    | (Thrown e, w') => handler e w'
    end.

Declare Scope handler_scope.
Delimit Scope handler_scope with handler.
Notation "x <- m ;; k" := (bind m (fun x => k))
  (at level 61, m at next level, right associativity) : handler_scope.
Notation "m ;; k" := (bind m (fun _ => k))
  (at level 61, right associativity) : handler_scope.
Local Open Scope handler_scope.

(** The world with its log of calls replaced. *)
Definition logged (w : World) (log : list Call) : World :=
  {| clientReady := clientReady w;
     recipeCacheData := recipeCacheData w;
     recipeCacheTimestamp := recipeCacheTimestamp w;
     calls := log |}.

(** [await client.method(...)]: the call is logged and the collaborator
    answers. *)
Definition await {A : Type} (c : Call) (answer : list Call -> outcome A) : M A :=
  fun w =>
    let log := calls w ++ [c] in
    (answer log, logged w log).

(** Modelled from the spec: [getPicnicClient] of [utils/picnic-client.js],
    which is not part of the sources at hand.  By the comment in
    [ensureClientInitialized] it throws when the client is not initialised. *)
Definition getPicnicClient : M unit :=
  fun w =>
    if clientReady w then (Returned tt, w)
    else (Thrown "Picnic client not initialized", w).

Section Handlers.

Variable client : Client.t.

(** The type assertion [rec as unknown as Recipe]: how a matched node of the
    payload is read as a [Recipe]. *)
Variable asRecipe : json -> Recipe.t.

(** Modelled from the spec: [initializePicnicClient] of
    [utils/picnic-client.js], which is not part of the sources at hand: a
    call to the external service that may be rejected and after which
    [getPicnicClient] succeeds. *)
Definition initializePicnicClient : M unit :=
  await InitializePicnicClient (Client.initialize client) ;;
  fun w =>
    (Returned tt,
     {| clientReady := true;
        recipeCacheData := recipeCacheData w;
        recipeCacheTimestamp := recipeCacheTimestamp w;
        calls := calls w |}).

Definition ensureClientInitialized : M unit :=
  tryCatch getPicnicClient (fun _ => initializePicnicClient).

(** ** RecipeStore *)

Definition RECIPE_CACHE_TTL_MS : Z := (5 * 60 * 1000)%Z.

Definition MEALS_PLANNER_ROOT : Call :=
  SendRequest "GET" "/pages/meals-planner-root" JNull (Some true).

(** The condition [recipeCacheData && now - recipeCacheTimestamp <
    RECIPE_CACHE_TTL_MS] (an array, even empty, is truthy). *)
Definition cacheHit (now : Z) (w : World) : option (list Recipe.t) :=
  match recipeCacheData w with
  | Some data =>
      if (now - recipeCacheTimestamp w <? RECIPE_CACHE_TTL_MS)%Z then Some data else None
  | None => None
  end.

(** [recipeCacheData = recipes; recipeCacheTimestamp = now]. *)
Definition storeRecipes (recipes : list Recipe.t) (now : Z) : M unit :=
  fun w =>
    (Returned tt,
     {| clientReady := clientReady w;
        recipeCacheData := Some recipes;
        recipeCacheTimestamp := now;
        calls := calls w |}).

(** [fetchRecipes]; [now] is the value [Date.now()] returns. *)
Definition fetchRecipes (now : Z) : M (list Recipe.t) :=
  fun w =>
    match cacheHit now w with
    | Some data => ret data w
    | None =>
        (ensureClientInitialized ;;
         getPicnicClient ;;
         response <- await MEALS_PLANNER_ROOT (Client.sendRequest_unknown client) ;;
         let recipes := map asRecipe (extractRecipes response) in
         storeRecipes recipes now ;;
         ret recipes) w
    end.

Definition summary (r : Recipe.t) : RecipeSummary.t :=
  {| RecipeSummary.recipe_id := Recipe.recipe_id r;
     RecipeSummary.name := Recipe.name r;
     RecipeSummary.description := Recipe.description r;
     RecipeSummary.preparation_time_in_minutes := Recipe.active_preparation_time_in_minutes r;
     RecipeSummary.default_servings := Recipe.default_servings r;
     RecipeSummary.course := Recipe.course r;
     RecipeSummary.kitchen := Recipe.kitchen r;
     RecipeSummary.is_vega_vegan := Recipe.is_vega_vegan r;
     RecipeSummary.recipe_type := Recipe.recipe_type r;
     RecipeSummary.quality_cue := Recipe.quality_cue r;
     RecipeSummary.label := option_map DisplayLabel.text (Recipe.display_label r);
     RecipeSummary.ingredient_count := lengthNumber (Recipe.ingredients r) |}.

(** Handler of [picnic_get_recipes]: first the part after
    [var recipes = await fetchRecipes()], then the handler. *)
Definition listRecipes (recipes : list Recipe.t) : M RecipeList.t :=
  let summaries := map summary recipes in
  ret {| RecipeList.recipes := summaries; RecipeList.total := lengthNumber summaries |}.

Definition picnic_get_recipes (now : Z) : M RecipeList.t :=
  recipes <- fetchRecipes now ;;
  listRecipes recipes.

(** [recipes.find((r) => r.recipe_id === args.recipe_id)]. *)
Definition findRecipe (recipe_id : string) (recipes : list Recipe.t) : option Recipe.t :=
  find (fun r => Recipe.recipe_id r =? recipe_id) recipes.

Definition notFound (recipe_id : string) : NotFound.t :=
  {| NotFound.error := "Recipe '" ++ recipe_id ++ "' not found";
     NotFound.suggestion := "Use picnic_get_recipes to find valid recipe IDs." |}.

Definition ingredientDetail (i : RecipeIngredient.t) : IngredientDetail.t :=
  {| IngredientDetail.selling_unit_id := RecipeIngredient.selling_unit_id i;
     IngredientDetail.name := RecipeIngredient.name i;
     IngredientDetail.ingredient_type := RecipeIngredient.ingredient_type i;
     IngredientDetail.quantity := RecipeIngredient.display_ingredient_quantity i;
     IngredientDetail.unit := RecipeIngredient.display_unit_of_measurement i;
     IngredientDetail.selling_unit_quantity := RecipeIngredient.selling_unit_quantity i;
     IngredientDetail.availability := RecipeIngredient.availability_status i |}.

Definition instruction (s : PreparationInstruction.t) : PreparationInstruction.t :=
  {| PreparationInstruction.header := PreparationInstruction.header s;
     PreparationInstruction.body := PreparationInstruction.body s;
     PreparationInstruction.type := PreparationInstruction.type s |}.

(** The object [picnic_get_recipe_details] builds from a recipe that has the
    fields of [interface Recipe].  The cast in [extractRecipes] checks two
    fields only: on a matched node without [preparation_instructions] the
    source throws a [TypeError] here, which a record cannot show.  The
    properties of this handler are about its not-found branch, its calls and
    the cache, which do not depend on the fields read here. *)
Definition detail (recipe : Recipe.t) : RecipeDetail.t :=
  {| RecipeDetail.recipe_id := Recipe.recipe_id recipe;
     RecipeDetail.name := Recipe.name recipe;
     RecipeDetail.description := Recipe.description recipe;
     RecipeDetail.course := Recipe.course recipe;
     RecipeDetail.kitchen := Recipe.kitchen recipe;
     RecipeDetail.is_vega_vegan := Recipe.is_vega_vegan recipe;
     RecipeDetail.recipe_type := Recipe.recipe_type recipe;
     RecipeDetail.default_servings := Recipe.default_servings recipe;
     RecipeDetail.minimum_servings := Recipe.minimum_servings recipe;
     RecipeDetail.maximum_servings := Recipe.maximum_servings recipe;
     RecipeDetail.serving_step := Recipe.serving_step recipe;
     RecipeDetail.preparation_time_in_minutes := Recipe.active_preparation_time_in_minutes recipe;
     RecipeDetail.quality_cue := Recipe.quality_cue recipe;
     RecipeDetail.label := option_map DisplayLabel.text (Recipe.display_label recipe);
     RecipeDetail.ingredients := map ingredientDetail (Recipe.ingredients recipe);
     RecipeDetail.preparation_instructions := map instruction (Recipe.preparation_instructions recipe);
     RecipeDetail.images := option_map (map Image.image_id) (Recipe.images recipe) |}.

(** Handler of [picnic_get_recipe_details]: the part after
    [var recipes = await fetchRecipes()], then the handler. *)
Definition getRecipeDetails (recipe_id : string) (recipes : list Recipe.t)
  : M (NotFound.t + RecipeDetail.t) :=
  match findRecipe recipe_id recipes with
  | None => ret (inl (notFound recipe_id))
  | Some recipe => ret (inr (detail recipe))
  end.

Definition picnic_get_recipe_details (now : Z) (recipe_id : string)
  : M (NotFound.t + RecipeDetail.t) :=
  recipes <- fetchRecipes now ;;
  getRecipeDetails recipe_id recipes.

(** The three arrays the loop of [picnic_add_recipe_to_cart] pushes to. *)
Record Lists : Type := {
  added : list AddedItem.t;
  skippedCupboard : list string;
  unavailable : list string
}.

(** The loop [for (var ingredient of recipe.ingredients)]. *)
Fixpoint addIngredients (scale : float) (ingredients : list RecipeIngredient.t) (acc : Lists)
  : M Lists :=
  match ingredients with
  | [] => ret acc
  | ingredient :: rest =>
      if RecipeIngredient.ingredient_type ingredient =? "CUPBOARD" then
        addIngredients scale rest
          {| added := added acc;
             skippedCupboard := skippedCupboard acc ++ [RecipeIngredient.name ingredient];
             unavailable := unavailable acc |}
      else if negb (RecipeIngredient.availability_status ingredient =? "AVAILABLE") then
        addIngredients scale rest
          {| added := added acc;
             skippedCupboard := skippedCupboard acc;
             unavailable := unavailable acc ++ [RecipeIngredient.name ingredient] |}
      else
        let quantity :=
          Math_ceil (RecipeIngredient.selling_unit_quantity ingredient * scale)%float in
        await (AddProductToShoppingCart (RecipeIngredient.selling_unit_id ingredient) quantity)
              (Client.addProductToShoppingCart client) ;;
        addIngredients scale rest
          {| added := added acc
                        ++ [{| AddedItem.name := RecipeIngredient.name ingredient;
                               AddedItem.quantity := quantity |}];
             skippedCupboard := skippedCupboard acc;
             unavailable := unavailable acc |}
  end.

(** Handler of [picnic_add_recipe_to_cart] ([servings] is [args.servings]):
    the part after [var recipes = await fetchRecipes()], then the handler. *)
Definition addRecipeToCart (recipe_id : string) (servings : option float)
    (recipes : list Recipe.t)
  : M (NotFound.t + AddRecipeResult.t) :=
  match findRecipe recipe_id recipes with
  | None => ret (inl (notFound recipe_id))
  | Some recipe =>
      let servings :=
        match servings with
        | Some s => s
        | None => Recipe.default_servings recipe
        end in
      let scale := (servings / Recipe.default_servings recipe)%float in
      ensureClientInitialized ;;
      getPicnicClient ;;
      lists <- addIngredients scale (Recipe.ingredients recipe)
                 {| added := []; skippedCupboard := []; unavailable := [] |} ;;
      ret (inr {| AddRecipeResult.recipe_name := Recipe.name recipe;
                  AddRecipeResult.servings := servings;
                  AddRecipeResult.added := added lists;
                  AddRecipeResult.skipped_cupboard := skippedCupboard lists;
                  AddRecipeResult.unavailable := unavailable lists |})
  end.

Definition picnic_add_recipe_to_cart (now : Z) (recipe_id : string) (servings : option float)
  : M (NotFound.t + AddRecipeResult.t) :=
  recipes <- fetchRecipes now ;;
  addRecipeToCart recipe_id servings recipes.

(** ** CheckoutOrchestrator *)

(** A string that passes a truthiness test: defined and not empty. *)
Definition truthyString (s : option string) : option string :=
  match s with
  | Some x => if x =? "" then None else Some x
  | None => None
  end.

(** A number that passes a truthiness test: defined and not zero. *)
Definition truthyNumber (n : option Q) : option Q :=
  match n with
  | Some x => if Qeq_bool x 0 then None else Some x
  | None => None
  end.

(** [cart.selected_slot?.slot_id]. *)
Definition selectedSlotId (cart : Cart.t) : option string :=
  match Cart.selected_slot cart with
  | Some slot => SelectedSlot.slot_id slot
  | None => None
  end.

Definition START_PATH : string := "/cart/checkout/start".
Definition INITIATE_PAYMENT_PATH : string := "/cart/checkout/initiate_payment".

(** The template literal [`/cart/checkout/order/${orderId}/confirm`]. *)
Definition confirmPath (orderId : string) : string :=
  "/cart/checkout/order/" ++ orderId ++ "/confirm".

Definition checkoutBody (mts : Q) (state_token : string) : json :=
  JObj [("mts", JNum mts); ("oos_article_ids", JObj []); ("state_token", JStr state_token)].

Definition paymentBody (orderId : string) : json :=
  JObj [("app_return_url", JStr "nl.picnic-supermarkt://payment"); ("order_id", JStr orderId)].

(** [t?.slice(0, 16)?.replace("T", " ")]. *)
Definition displayTime (t : option string) : option string :=
  option_map (fun s => replace "T" " " (stringSlice0 16 s)) t.

Definition deliveryWindow (slot : DeliverySlot.t) : DeliveryWindow.t :=
  {| DeliveryWindow.start := displayTime (DeliverySlot.window_start slot);
     DeliveryWindow.end_ := displayTime (DeliverySlot.window_end slot) |}.

Definition NO_TOKENS : string := "Cart has no state_token or mts — is the cart empty?".
Definition NO_SLOT : string := "No delivery slot selected. Use picnic_set_delivery_slot first.".
Definition NO_ORDER_ID : string := "Checkout start failed — no order_id returned".

(** Handler of [picnic_checkout].  The two tests of step 1 read
    [!cart.state_token || !cart.mts] and [!cart.selected_slot?.slot_id]. *)
Definition picnic_checkout : M CheckoutResult :=
  ensureClientInitialized ;;
  getPicnicClient ;;
  cart <- await GetShoppingCart (Client.getShoppingCart client) ;;
  match truthyString (Cart.state_token cart), truthyNumber (Cart.mts cart) with
  | Some state_token, Some mts =>
      match truthyString (selectedSlotId cart) with
      | None => ret (CheckoutError NO_SLOT None)
      | Some _ =>
          startResult <- await (SendRequest "POST" START_PATH (checkoutBody mts state_token) None)
                               (Client.sendRequest_start client) ;;
          match truthyString (StartResult.order_id startResult) with
          | None => ret (CheckoutError NO_ORDER_ID (Some startResult))
          | Some orderId =>
              await (SendRequest "POST" INITIATE_PAYMENT_PATH (paymentBody orderId) None)
                    (Client.sendRequest_unknown client) ;;
              confirmResult <- await (SendRequest "POST" (confirmPath orderId) (JObj []) None)
                                     (Client.sendRequest_confirm client) ;;
              ret (CheckoutDone
                     {| CheckoutConfirmed.order_id := ConfirmResult.order_id confirmResult;
                        CheckoutConfirmed.total_price := ConfirmResult.total_price confirmResult;
                        CheckoutConfirmed.total_count := ConfirmResult.total_count confirmResult;
                        CheckoutConfirmed.delivery_window :=
                          option_map deliveryWindow (ConfirmResult.delivery_slot confirmResult) |})
          end
      end
  | _, _ => ret (CheckoutError NO_TOKENS None)
  end.

(** ** ResponseShaper: pagination *)

(** The pagination block both paginated handlers build: [startIndex] and
    [limit] after their defaults, the page and the full result. *)
Definition pagination {A B : Type} (startIndex limit : Q) (page : list A) (all : list B)
  : Pagination.t :=
  {| Pagination.offset := startIndex;
     Pagination.limit := limit;
     Pagination.returned := lengthNumber page;
     Pagination.total := lengthNumber all;
     Pagination.hasMore := ltNumber (startIndex + limit) (lengthNumber all) |}.

(** [...(product.image_id && { image_id: product.image_id })]. *)
Definition filterProduct (product : Product.t) : FilteredProduct.t :=
  {| FilteredProduct.id := Product.id product;
     FilteredProduct.name := Product.name product;
     FilteredProduct.price := Product.display_price product;
     FilteredProduct.unit := Product.unit_quantity product;
     FilteredProduct.image_id := truthyString (Product.image_id product) |}.

(** Handler of [picnic_search]; [limit] and [offset] are the arguments after
    the defaults of the schema.  The sum [startIndex + limit] is the sum of
    the doubles when both are whole numbers, which is how the properties
    below take them; at fractions the sum of doubles is rounded and this
    exact sum is not. *)
Definition picnic_search (query : string) (limit offset : Q) : M SearchResult.t :=
  ensureClientInitialized ;;
  getPicnicClient ;;
  allResults <- await (Search query) (Client.search client) ;;
  let startIndex := orNumber offset 0 in
  let limit := orNumber limit 5 in
  let paginatedResults := slice allResults startIndex (startIndex + limit) in
  let filteredResults := map filterProduct paginatedResults in
  ret {| SearchResult.query := query;
         SearchResult.results := filteredResults;
         SearchResult.pagination := pagination startIndex limit filteredResults allResults |}.

(** Handler of [picnic_get_deliveries]; the sum [startIndex + limit] is read
    as in [picnic_search]. *)
Definition picnic_get_deliveries (filter : list string) (limit offset : Q)
  : M DeliveriesResult.t :=
  ensureClientInitialized ;;
  getPicnicClient ;;
  allDeliveries <- await (GetDeliveries filter) (Client.getDeliveries client) ;;
  let startIndex := orNumber offset 0 in
  let limit := orNumber limit 10 in
  let paginatedDeliveries := slice allDeliveries startIndex (startIndex + limit) in
  ret {| DeliveriesResult.deliveries := paginatedDeliveries;
         DeliveriesResult.pagination :=
           pagination startIndex limit paginatedDeliveries allDeliveries |}.

End Handlers.

(** * Payloads as object graphs

    [extractRecipes] takes a value of type [unknown].  A parsed JSON document
    is a tree, but a JavaScript value in general is a graph: arrays and
    objects live in the heap and are held by reference, so a value can reach
    itself.  This second embedding of [recurse] runs on such graphs; [stack]
    is the number of nested activations of [recurse] still available, and
    [None] means that this depth did not suffice (in an engine: the call
    stack is exhausted).  The source has no such parameter: the traversal
    returns exactly when some depth suffices. *)

Module Graph.

Inductive value : Type :=
| VNull
| VBool (b : bool)
| VNum (n : Q)
| VStr (s : string)
| VRef (address : nat).

Inductive object : Type :=
| OArr (elements : list value)
| OObj (properties : list (string * value)).

(** The heap: the object at address [a] is the [a]-th element. *)
Definition heap : Type := list object.

Definition truthy (v : value) : bool :=
  match v with
  | VNull => false
  | VBool b => b
  | VNum n => negb (Qeq_bool n 0)
  | VStr s => negb (s =? "")
  | VRef _ => true
  end.

Fixpoint getProperty (key : string) (properties : list (string * value)) : option value :=
  match properties with
  | [] => None
  | (k, v) :: rest => if k =? key then Some v else getProperty key rest
  end.

Definition isArray (h : heap) (v : option value) : bool :=
  match v with
  | Some (VRef a) =>
      match nth_error h a with
      | Some (OArr _) => true
      | _ => false
      end
  | _ => false
  end.

Definition recipeShaped (h : heap) (rec : list (string * value)) : bool :=
  match getProperty "recipe_id" rec with
  | Some v => truthy v
  | None => false
  end && isArray h (getProperty "ingredients" rec).

(** [xs.forEach(f)] for a callback that may exceed the available depth. *)
Fixpoint forEach (f : value -> list nat -> option (list nat)) (xs : list value)
    (recipes : list nat) : option (list nat) :=
  match xs with
  | [] => Some recipes
  | x :: rest =>
      match f x recipes with
      | Some recipes' => forEach f rest recipes'
      | None => None
      end
  end.

(** [recurse] on a graph; the matched objects are collected by address.  A
    reference to nothing does not occur in a JavaScript heap and is skipped. *)
Fixpoint recurse (stack : nat) (h : heap) (node : value) (recipes : list nat)
  : option (list nat) :=
  match stack with
  | O => None
  | S stack' =>
      match node with
      | VRef a =>
          match nth_error h a with
          | Some (OArr elements) => forEach (recurse stack' h) elements recipes
          | Some (OObj rec) =>
              if recipeShaped h rec then Some (recipes ++ [a])
              else forEach (recurse stack' h) (map snd rec) recipes
          | None => Some recipes
          end
      | _ => Some recipes
      end
  end.

(** The values an object holds. *)
Definition fields (o : object) : list value :=
  match o with
  | OArr elements => elements
  | OObj rec => map snd rec
  end.

(** The traversal returns when some recursion depth suffices. *)
Definition terminates (h : heap) (node : value) : Prop :=
  exists stack recipes, recurse stack h node [] = Some recipes.

(** A heap without reference cycles: every object has a rank above the
    ranks of the objects it refers to. *)
Definition acyclic (h : heap) (rank : nat -> nat) : Prop :=
  forall a o b, nth_error h a = Some o -> In (VRef b) (fields o) -> rank b < rank a.

(** The recursion depth that suffices for a value: one activation for the
    value, one more for what an object holds, and the rank of the object. *)
Definition depthFor (rank : nat -> nat) (v : value) : nat :=
  match v with
  | VRef a => S (S (rank a))
  | _ => 1
  end.

(** [var o = {}; o.self = o]. *)
Definition selfReferring : heap := [OObj [("self", VRef 0)]].

(** An object [recurse] descends into: an array, or an object that is not
    recipe-shaped. *)
Definition unmatched (h : heap) (o : object) : bool :=
  match o with
  | OArr _ => true
  | OObj rec => negb (recipeShaped h rec)
  end.

(** A set of addresses closed under a reference cycle: every object of the
    set is descended into and holds a reference to an object of the set. *)
Definition cyclic (h : heap) (on : nat -> Prop) : Prop :=
  forall a, on a ->
    exists o b,
      nth_error h a = Some o /\ unmatched h o = true /\ In (VRef b) (fields o) /\ on b.

Fixpoint allSome {A : Type} (l : list (option A)) : option (list A) :=
  match l with
  | [] => Some []
  | Some x :: rest => option_map (cons x) (allSome rest)
  | None :: _ => None
  end.

(** Reading a graph back as a tree, through at most [depth] references;
    [None] when the graph is deeper (a graph with a cycle is deeper than
    every depth). *)
Fixpoint readback (depth : nat) (h : heap) (v : value) : option json :=
  match v with
  | VNull => Some JNull
  | VBool b => Some (JBool b)
  | VNum n => Some (JNum n)
  | VStr s => Some (JStr s)
  | VRef a =>
      match depth with
      | O => None
      | S depth' =>
          match nth_error h a with
          | Some (OArr elements) =>
              option_map JArr (allSome (map (readback depth' h) elements))
          | Some (OObj rec) =>
              option_map JObj
                (allSome
                   (map (fun p => option_map (pair (fst p)) (readback depth' h (snd p))) rec))
          | None => None
          end
      end
  end.

(** How a property of an object in the heap is read back. *)
Definition readsAs (h : heap) (depth : nat) (p : string * value) (q : string * json) : Prop :=
  option_map (pair (fst p)) (readback depth h (snd p)) = Some q.

End Graph.

(** * Positions in a payload *)

(** A position: the indices to follow from the root, in an array the index
    of the element, in an object the index of the property in enumeration
    order. *)
Definition path : Type := list nat.

(** What [recurse] iterates over at a node that is not matched. *)
Definition children (node : json) : list json :=
  match node with
  | JArr elements => elements
  | JObj rec => map snd rec
  | _ => []
  end.

Fixpoint subnode (node : json) (p : path) : option json :=
  match p with
  | [] => Some node
  | i :: p' =>
      match nth_error (children node) i with
      | Some child => subnode child p'
      | None => None
      end
  end.

(** The shape predicate on a node. *)
Definition matches (node : json) : bool :=
  match node with
  | JObj rec => recipeShaped rec
  | _ => false
  end.

(** A matching node none of whose ancestors matches. *)
Definition outermost (root : json) (p : path) : Prop :=
  (exists node, subnode root p = Some node /\ matches node = true)
  /\ forall q r m, p = q ++ r -> r <> [] -> subnode root q = Some m -> matches m = false.

(** Document order on positions neither of which is above the other:
    [before p q] when [p] branches off to the left of [q]. *)
Inductive before : path -> path -> Prop :=
| before_here (i j : nat) (p q : path) : i < j -> before (i :: p) (j :: q)
| before_below (i : nat) (p q : path) : before p q -> before (i :: p) (i :: q).

(** The positions of the nodes [recurse] pushes, in the order it pushes
    them. *)
Fixpoint pathsFrom (i : nat) (pss : list (list path)) : list path :=
  match pss with
  | [] => []
  | ps :: rest => map (cons i) ps ++ pathsFrom (S i) rest
  end.

Fixpoint recipePaths (node : json) : list path :=
  match node with
  | JArr elements => pathsFrom 0 (map recipePaths elements)
  | JObj rec =>
      if recipeShaped rec then [[]]
      else pathsFrom 0 (map (fun p => recipePaths (snd p)) rec)
  | _ => []
  end.

(** * Vocabulary of the properties *)

(** The log after [ensureClientInitialized] has run without a fault. *)
Definition ensured (w : World) : list Call :=
  if clientReady w then calls w else calls w ++ [InitializePicnicClient].

(** The world after [ensureClientInitialized] has run without a fault. *)
Definition initialized (w : World) : World :=
  {| clientReady := true;
     recipeCacheData := recipeCacheData w;
     recipeCacheTimestamp := recipeCacheTimestamp w;
     calls := ensured w |}.

(** The client exists already, or its initialisation is accepted. *)
Definition initOk (client : Client.t) (w : World) : Prop :=
  clientReady w = true
  \/ Client.initialize client (calls w ++ [InitializePicnicClient]) = Returned tt.

(** The world after a refresh of the recipe cache at time [now]. *)
Definition refreshed (w : World) (now : Z) (recipes : list Recipe.t) : World :=
  {| clientReady := true;
     recipeCacheData := Some recipes;
     recipeCacheTimestamp := now;
     calls := ensured w ++ [SendRequest "GET" "/pages/meals-planner-root" JNull (Some true)] |}.

(** The calls that change something at the external service: adding to the
    cart and every POST. *)
Definition isWrite (c : Call) : bool :=
  match c with
  | AddProductToShoppingCart _ _ => true
  | SendRequest method _ _ _ => method =? "POST"
  | _ => false
  end.

Definition writes (log : list Call) : list Call := filter isWrite log.

(** The fetches of the meal-planner page. *)
Definition isRecipeFetch (c : Call) : bool :=
  match c with
  | SendRequest method path _ _ => (method =? "GET") && (path =? "/pages/meals-planner-root")
  | _ => false
  end.

Definition recipeFetches (log : list Call) : nat := List.length (filter isRecipeFetch log).

(** The cache of a world: data and timestamp. *)
Definition cacheOf (w : World) : option (list Recipe.t) * Z :=
  (recipeCacheData w, recipeCacheTimestamp w).

(** A computation that neither touches the cache nor fetches the page. *)
Definition keepsCache {A : Type} (m : M A) : Prop :=
  forall w,
    cacheOf (snd (m w)) = cacheOf w
    /\ recipeFetches (calls (snd (m w))) = recipeFetches (calls w).

(** The three classes of ingredients. *)
Definition isCupboard (i : RecipeIngredient.t) : bool :=
  RecipeIngredient.ingredient_type i =? "CUPBOARD".

Definition isUnavailable (i : RecipeIngredient.t) : bool :=
  negb (isCupboard i) && negb (RecipeIngredient.availability_status i =? "AVAILABLE").

Definition isOrdered (i : RecipeIngredient.t) : bool :=
  negb (isCupboard i) && (RecipeIngredient.availability_status i =? "AVAILABLE").

(** [servings ?? recipe.default_servings]. *)
Definition resolvedServings (servings : option float) (recipe : Recipe.t) : float :=
  match servings with
  | Some s => s
  | None => Recipe.default_servings recipe
  end.

(** The quantity the handler orders of an ingredient at given servings:
    [Math.ceil(selling_unit_quantity * scale)] for
    [scale = servings / default_servings], each operation on doubles. *)
Definition orderedQuantity (servings : float) (recipe : Recipe.t) (i : RecipeIngredient.t)
  : float :=
  Math_ceil (RecipeIngredient.selling_unit_quantity i
             * (servings / Recipe.default_servings recipe))%float.

Definition addCall (quantity : RecipeIngredient.t -> float) (i : RecipeIngredient.t) : Call :=
  AddProductToShoppingCart (RecipeIngredient.selling_unit_id i) (quantity i).

Definition addedItem (quantity : RecipeIngredient.t -> float) (i : RecipeIngredient.t)
  : AddedItem.t :=
  {| AddedItem.name := RecipeIngredient.name i; AddedItem.quantity := quantity i |}.

(** The add calls the loop issues for a list of ingredients. *)
Definition addCalls (quantity : RecipeIngredient.t -> float) (l : list RecipeIngredient.t)
  : list Call :=
  map (addCall quantity) (filter isOrdered l).

(** The quantity the loop computes at a given scale. *)
Definition scaledQuantity (scale : float) (i : RecipeIngredient.t) : float :=
  Math_ceil (RecipeIngredient.selling_unit_quantity i * scale)%float.

(** The rational number a finite double denotes. *)
Definition valueOf (x : float) : option Q :=
  match Prim2SF x with
  | S754_zero _ => Some 0%Q
  | S754_finite negative m e =>
      Some (Qred ((if negative then - (1) else 1) * inject_Z (Zpos m) * Qpower 2 e)%Q)
  | _ => None
  end.

(** The quantity in the words of the specification:
    ceiling(selling_unit_quantity x servings / default_servings), on the
    numbers the doubles denote. *)
Definition claimedQuantity (servings : float) (recipe : Recipe.t) (i : RecipeIngredient.t)
  : option Z :=
  match valueOf (RecipeIngredient.selling_unit_quantity i), valueOf servings,
        valueOf (Recipe.default_servings recipe) with
  | Some q, Some s, Some d =>
      if Qeq_bool d 0 then None else Some (Qceiling (q * s / d)%Q)
  | _, _, _ => None
  end.

(** The elements of [all] at the indices [from], ..., [to - 1]. *)
Definition elementsBetween {A : Type} (all : list A) (from to : nat) : list A :=
  flat_map
    (fun i =>
       match nth_error all i with
       | Some x => [x]
       | None => []
       end)
    (seq from (to - from)).

(** * Concrete data

    A recipe, payloads, carts, replies and collaborators on which the
    handlers are run. *)

Module Example.

Definition ingredient (id name kind : string) (quantity : float) (status : string)
  : RecipeIngredient.t :=
  {| RecipeIngredient.selling_unit_id := id;
     RecipeIngredient.name := name;
     RecipeIngredient.ingredient_type := kind;
     RecipeIngredient.display_ingredient_quantity := 1;
     RecipeIngredient.display_unit_of_measurement := "st";
     RecipeIngredient.selling_unit_quantity := quantity;
     RecipeIngredient.availability_status := status |}.

Definition salt : RecipeIngredient.t := ingredient "s-salt" "Salt" "CUPBOARD" 1 "AVAILABLE".
Definition basil : RecipeIngredient.t := ingredient "s-basil" "Basil" "CORE" 1 "OUT_OF_STOCK".
Definition pasta : RecipeIngredient.t := ingredient "s-pasta" "Pasta" "CORE" 3 "AVAILABLE".
Definition tomatoes : RecipeIngredient.t :=
  ingredient "s-tomatoes" "Tomatoes" "CORE" 1.5 "AVAILABLE".
Definition cheese : RecipeIngredient.t :=
  ingredient "s-cheese" "Cheese" "VARIATION" 1 "AVAILABLE".

Definition recipe (id name : string) (default : float) (ingredients : list RecipeIngredient.t)
  : Recipe.t :=
  {| Recipe.recipe_id := id;
     Recipe.name := name;
     Recipe.description := "";
     Recipe.course := "MAIN";
     Recipe.kitchen := "ITALIAN";
     Recipe.is_vega_vegan := "VEGA";
     Recipe.recipe_type := "STANDARD";
     Recipe.default_servings := default;
     Recipe.minimum_servings := 1;
     Recipe.maximum_servings := 8;
     Recipe.serving_step := 1;
     Recipe.active_preparation_time_in_minutes := 20;
     Recipe.quality_cue := "";
     Recipe.display_label := None;
     Recipe.ingredients := ingredients;
     Recipe.preparation_instructions := [];
     Recipe.images := None |}.

Definition pomodoro : Recipe.t :=
  recipe "r1" "Pasta pomodoro" 2 [salt; basil; pasta; tomatoes; cheese].

(** A recipe of the two skipped kinds only. *)
Definition seasoning : Recipe.t := recipe "r2" "Seasoning" 2 [salt; basil].

(** A reading of a matched node as a [Recipe]: identifier and name are taken
    from the node; the nodes of the examples have two default servings. *)
Definition readRecipe (node : json) : Recipe.t :=
  match node with
  | JObj rec =>
      recipe
        match getProperty "recipe_id" rec with
        | Some (JStr id) => id
        | _ => ""
        end
        match getProperty "name" rec with
        | Some (JStr name) => name
        | _ => ""
        end
        2
        []
  | _ => recipe "" "" 2 []
  end.

Definition recipeNode (id name : string) (extra : list (string * json)) : json :=
  JObj ([("recipe_id", JStr id); ("name", JStr name); ("default_servings", JNum 2);
         ("ingredients", JArr [])] ++ extra).

(** A page with two recipes, the first of which holds a related recipe, and
    an object whose identifier is empty. *)
Definition page : json :=
  JObj
    [("type", JStr "PAGE");
     ("body",
      JArr
        [recipeNode "r1" "Pasta pomodoro" [("related", JArr [recipeNode "r9" "Lasagne" []])];
         JObj [("recipe_id", JStr ""); ("ingredients", JArr [])];
         JObj [("content", recipeNode "r2" "Seasoning" [])]])].

Definition accepting : list Call -> outcome unit := fun _ => Returned tt.

(** Rejects the add call of one product. *)
Definition rejecting (productId : string) : list Call -> outcome unit :=
  fun log =>
    match last log GetShoppingCart with
    | AddProductToShoppingCart p _ =>
        if p =? productId then Thrown "Product is not available" else Returned tt
    | _ => Returned tt
    end.

Definition products : list Product.t :=
  map (fun n =>
         {| Product.id := "p";
            Product.name := "Product";
            Product.display_price := inject_Z (Z.of_nat n);
            Product.unit_quantity := "1 st";
            Product.image_id := None |})
      (seq 0 23).

Definition deliveries : list json := map (fun n => JNum (inject_Z (Z.of_nat n))) (seq 0 23).

(** A collaborator that answers every call the same way. *)
Definition client (add : list Call -> outcome unit) (cart : Cart.t)
    (start : StartResult.t) (confirm : ConfirmResult.t) : Client.t :=
  {| Client.initialize := fun _ => Returned tt;
     Client.search := fun _ => Returned products;
     Client.getDeliveries := fun _ => Returned deliveries;
     Client.getShoppingCart := fun _ => Returned cart;
     Client.addProductToShoppingCart := add;
     Client.sendRequest_unknown := fun _ => Returned page;
     Client.sendRequest_start := fun _ => Returned start;
     Client.sendRequest_confirm := fun _ => Returned confirm |}.

Definition cart (mts : option Q) (state_token slot_id : option string) : Cart.t :=
  {| Cart.mts := mts;
     Cart.state_token := state_token;
     Cart.total_count := Some 7%Q;
     Cart.checkout_total_price := Some (47 # 2)%Q;
     Cart.selected_slot :=
       Some {| SelectedSlot.slot_id := slot_id;
               SelectedSlot.window_start := Some "2024-01-01T10:00:00Z";
               SelectedSlot.window_end := Some "2024-01-01T11:00:00Z" |} |}.

Definition validCart : Cart.t := cart (Some 1712%Q) (Some "token") (Some "slot-1").
Definition cartWithoutTokens : Cart.t := cart None None (Some "slot-1").
Definition cartWithoutSlot : Cart.t := cart (Some 1712%Q) (Some "token") None.
Definition cartWithZeroMts : Cart.t := cart (Some 0%Q) (Some "token") (Some "slot-1").

Definition started : StartResult.t := {| StartResult.order_id := Some "O1" |}.
Definition notStarted : StartResult.t := {| StartResult.order_id := None |}.

Definition confirmed : ConfirmResult.t :=
  {| ConfirmResult.order_id := Some "O1";
     ConfirmResult.total_price := Some (47 # 2)%Q;
     ConfirmResult.total_count := Some 7%Q;
     ConfirmResult.delivery_slot :=
       Some {| DeliverySlot.window_start := Some "2024-01-01T10:00:00Z";
               DeliverySlot.window_end := Some "2024-01-01T11:00:00Z" |} |}.

Definition shop : Client.t := client accepting validCart started confirmed.

(** A process whose cache was filled at time 1000. *)
Definition cached : World :=
  {| clientReady := true;
     recipeCacheData := Some [pomodoro; seasoning];
     recipeCacheTimestamp := 1000;
     calls := [] |}.

(** An object graph without cycles: a page object, its array of recipes, a
    recipe and its array of ingredients. *)
Definition heap : Graph.heap :=
  [Graph.OObj [("recipes", Graph.VRef 1)];
   Graph.OArr [Graph.VRef 2; Graph.VNull];
   Graph.OObj [("recipe_id", Graph.VStr "r1"); ("ingredients", Graph.VRef 3)];
   Graph.OArr []].

Definition rank (a : nat) : nat := 3 - a.

End Example.

(** * Vocabulary of further properties *)

(** The call [ensureClientInitialized] makes: none when the client exists. *)
Definition initCalls (w : World) : list Call :=
  if clientReady w then [] else [InitializePicnicClient].

Definition startCall (mts : Q) (state_token : string) : Call :=
  SendRequest "POST" START_PATH (checkoutBody mts state_token) None.

Definition payCall (orderId : string) : Call :=
  SendRequest "POST" INITIATE_PAYMENT_PATH (paymentBody orderId) None.

Definition confirmCall (orderId : string) : Call :=
  SendRequest "POST" (confirmPath orderId) (JObj []) None.

(** The four calls of a checkout that runs to its end. *)
Definition checkoutSequence (mts : Q) (state_token orderId : string) : list Call :=
  [GetShoppingCart; startCall mts state_token; payCall orderId; confirmCall orderId].

(** The number of client initialisations in a log. *)
Definition initialisations (log : list Call) : nat :=
  List.length
    (filter (fun c => match c with InitializePicnicClient => true | _ => false end) log).

(** A computation that, run with an existing client, keeps it and does not
    initialise it again. *)
Definition keepsClient {A : Type} (m : M A) : Prop :=
  forall w,
    clientReady w = true ->
    clientReady (snd (m w)) = true
    /\ initialisations (calls (snd (m w))) = initialisations (calls w).

(** * The cart summary: [filterCartData] and [picnic_get_cart]

    [filterCartData] takes a value of type [unknown] and reads it through
    type assertions, which check nothing at run time.  The embedding follows
    the run-time behaviour on any [json] tree; [None] is a [TypeError]. *)

(** One article of the summary.  A field that is [None] is [undefined] (or,
    for [image_id], absent). *)
Module FilteredArticle.
Record t : Type := {
  id : option json;
  name : option json;
  price : option json;
  unit : option json;
  image_id : option json
}.
End FilteredArticle.

Module FilteredCart.
Record t : Type := {
  items : list FilteredArticle.t;
  total_count : option json;
  total_price : option json;
  checkout_total_price : option json;
  total_savings : option json
}.
End FilteredCart.

(** [typeof v === "object"]. *)
Definition typeofObject (v : json) : bool :=
  match v with
  | JNull | JArr _ | JObj _ => true
  | _ => false
  end.

(** [v.key] for one of the keys [filterCartData] reads, none of which is a
    property of an array or of the wrapper of a primitive: reading a property
    of [null] is a [TypeError]. *)
Definition member (key : string) (v : json) : option (option json) :=
  match v with
  | JNull => None
  | JObj properties => Some (getProperty key properties)
  | _ => Some None
  end.

(** The receiver of [(v || []).map(f)] and [(v || []).flatMap(f)]: a truthy
    value that is not an array has no such method, and the call is a
    [TypeError]. *)
Definition orEmpty (v : option json) : option (list json) :=
  match v with
  | None => Some []
  | Some (JArr elements) => Some elements
  | Some x => if truthy x then None else Some []
  end.

(** [v?.[0]]: the first element of an array, the first character of a
    string, the property [0] of an object. *)
Definition indexZero (v : option json) : option json :=
  match v with
  | Some (JArr elements) => nth_error elements 0
  | Some (JStr (String c _)) => Some (JStr (String c ""))
  | Some (JObj properties) => getProperty "0" properties
  | _ => None
  end.

(** [l.map(f)] for a callback that may throw. *)
Fixpoint mapCallback {A B : Type} (f : A -> option B) (l : list A) : option (list B) :=
  match l with
  | [] => Some []
  | x :: rest =>
      match f x with
      | Some y =>
          match mapCallback f rest with
          | Some ys => Some (y :: ys)
          | None => None
          end
      | None => None
      end
  end.

(** The callback on an article. *)
Definition filterArticle (article : json) : option FilteredArticle.t :=
  match member "id" article, member "name" article, member "price" article,
        member "unit_quantity" article, member "image_ids" article with
  | Some id, Some name, Some price, Some unit_quantity, Some image_ids =>
      Some {| FilteredArticle.id := id;
              FilteredArticle.name := name;
              FilteredArticle.price := price;
              FilteredArticle.unit := unit_quantity;
              FilteredArticle.image_id :=
                if truthyOpt (indexZero image_ids) then indexZero image_ids else None |}
  | _, _, _, _, _ => None
  end.

(** The callback on an order line. *)
Definition filterLine (orderLine : json) : option (list FilteredArticle.t) :=
  match member "items" orderLine with
  | Some items =>
      match orEmpty items with
      | Some articles => mapCallback filterArticle articles
      | None => None
      end
  | None => None
  end.

(** [filterCartData]: a value that is no object is returned as it is. *)
Definition filterCartData (cart : json) : option (json + FilteredCart.t) :=
  if negb (truthy cart) || negb (typeofObject cart) then Some (inl cart)
  else
    match member "items" cart, member "total_count" cart, member "total_price" cart,
          member "checkout_total_price" cart, member "total_savings" cart with
    | Some items, Some total_count, Some total_price, Some checkout_total_price,
      Some total_savings =>
        match orEmpty items with
        | Some orderLines =>
            match mapCallback filterLine orderLines with
            | Some filteredItems =>
                Some (inr {| FilteredCart.items := concat filteredItems;
                             FilteredCart.total_count := total_count;
                             FilteredCart.total_price := total_price;
                             FilteredCart.checkout_total_price := checkout_total_price;
                             FilteredCart.total_savings := total_savings |})
            | None => None
            end
        | None => None
        end
    | _, _, _, _, _ => None
    end.

(** The message of a [TypeError] depends on the engine and is not modelled. *)
Definition TypeError : string := "TypeError".

(** A synchronous computation inside an [async] function: an exception
    rejects the promise. *)
Definition sync {A : Type} (result : option A) : M A :=
  fun w =>
    match result with
    | Some a => (Returned a, w)
    | None => (Thrown TypeError, w)
    end.

Section CartHandler.

Variable client : Client.t.

(** The answers of [client.getShoppingCart()] read as [unknown]. *)
Variable getShoppingCart_unknown : list Call -> outcome json.

(** Handler of [picnic_get_cart]. *)
Definition picnic_get_cart : M (json + FilteredCart.t) :=
  ensureClientInitialized client ;;
  getPicnicClient ;;
  cart <- await GetShoppingCart getShoppingCart_unknown ;;
  sync (filterCartData cart).

End CartHandler.

(** * Delivery slots: [picnic_get_delivery_slots] *)

(** A slot of the reply, as the handler asserts it. *)
Module Slot.
Record t : Type := {
  slot_id : option string;
  window_start : option string;
  window_end : option string;
  cut_off_time : option string;
  is_available : option bool;
  selected : option bool
}.
End Slot.

(** [selected_slot?: { slot_id?: string }]. *)
Module SlotRef.
Record t : Type := {
  slot_id : option string
}.
End SlotRef.

(** The reply of [client.getDeliverySlots()], as the handler asserts it. *)
Module SlotsReply.
Record t : Type := {
  delivery_slots : option (list Slot.t);
  selected_slot : option SlotRef.t
}.
End SlotsReply.

Module SlotSummary.
Record t : Type := {
  slot_id : option string;
  date : option string;
  start : option string;
  end_ : option string;
  cut_off : option string;
  selected : option bool
}.
End SlotSummary.

(** The value the handler returns; [selected_slot_id] is [None] for [null]. *)
Module SlotsResult.
Record t : Type := {
  slots : list SlotSummary.t;
  selected_slot_id : option string;
  total_available : Q
}.
End SlotsResult.

(** [s.slice(start, end)] on a string, for literals [0 <= start <= end]. *)
Definition stringSlice (start end_ : nat) (s : string) : string :=
  substring start (end_ - start) s.

(** ToBoolean of an optional boolean. *)
Definition truthyBool (b : option bool) : bool :=
  match b with
  | Some x => x
  | None => false
  end.

(** The callback of [.map] on an available slot. *)
Definition slotSummary (s : Slot.t) : SlotSummary.t :=
  {| SlotSummary.slot_id := Slot.slot_id s;
     SlotSummary.date := option_map (stringSlice 0 10) (Slot.window_start s);
     SlotSummary.start := option_map (stringSlice 11 16) (Slot.window_start s);
     SlotSummary.end_ := option_map (stringSlice 11 16) (Slot.window_end s);
     SlotSummary.cut_off := displayTime (Slot.cut_off_time s);
     SlotSummary.selected := if truthyBool (Slot.selected s) then Some true else None |}.

(** The handler of [picnic_get_delivery_slots] from the reply of
    [client.getDeliverySlots()] on: the result it builds from [result]. *)
Definition picnic_get_delivery_slots (result : SlotsReply.t) : SlotsResult.t :=
  let slots :=
    map slotSummary
      (filter (fun s => truthyBool (Slot.is_available s))
         (match SlotsReply.delivery_slots result with
          | Some delivery_slots => delivery_slots
          | None => []
          end)) in
  {| SlotsResult.slots := slots;
     SlotsResult.selected_slot_id :=
       match SlotsReply.selected_slot result with
       | Some slot => SlotRef.slot_id slot
       | None => None
       end;
     SlotsResult.total_available := lengthNumber slots |}.

(** ** Vocabulary of the cart summary *)

Definition isNull (v : json) : bool :=
  match v with
  | JNull => true
  | _ => false
  end.

(** The elements of an array; nothing for any other value. *)
Definition arrayOf (v : option json) : list json :=
  match v with
  | Some (JArr elements) => elements
  | _ => []
  end.

(** The property [items] of an object. *)
Definition itemsOf (v : json) : option json :=
  match v with
  | JObj properties => getProperty "items" properties
  | _ => None
  end.

(** A truthy value that is not an array. *)
Definition notIterable (v : option json) : bool := truthyOpt v && negb (isArray v).

(** An order line the summary cannot be built from: [null], a line whose
    [items] cannot be iterated, or a line that holds a [null] article. *)
Definition brokenLine (orderLine : json) : bool :=
  isNull orderLine
  || notIterable (itemsOf orderLine)
  || existsb isNull (arrayOf (itemsOf orderLine)).

Definition brokenCart (cart : json) : bool :=
  notIterable (itemsOf cart) || existsb brokenLine (arrayOf (itemsOf cart)).

(** The articles of a cart: those of its order lines, in order. *)
Definition articles (cart : json) : list json :=
  flat_map (fun orderLine => arrayOf (itemsOf orderLine)) (arrayOf (itemsOf cart)).

(** * Further examples *)

Module Cases.

(** A collaborator whose log-in is rejected. *)
Definition offline : Client.t :=
  {| Client.initialize := fun _ => Thrown "Login failed";
     Client.search := fun _ => Returned Example.products;
     Client.getDeliveries := fun _ => Returned Example.deliveries;
     Client.getShoppingCart := fun _ => Returned Example.validCart;
     Client.addProductToShoppingCart := Example.accepting;
     Client.sendRequest_unknown := fun _ => Returned Example.page;
     Client.sendRequest_start := fun _ => Returned Example.started;
     Client.sendRequest_confirm := fun _ => Returned Example.confirmed |}.

(** A collaborator that rejects the requests whose reply is not typed: the
    page of recipes and the payment. *)
Definition unreachable : Client.t :=
  {| Client.initialize := fun _ => Returned tt;
     Client.search := fun _ => Returned Example.products;
     Client.getDeliveries := fun _ => Returned Example.deliveries;
     Client.getShoppingCart := fun _ => Returned Example.validCart;
     Client.addProductToShoppingCart := Example.accepting;
     Client.sendRequest_unknown := fun _ => Thrown "Service unavailable";
     Client.sendRequest_start := fun _ => Returned Example.started;
     Client.sendRequest_confirm := fun _ => Returned Example.confirmed |}.

(** [var r = { recipe_id: "r1", ingredients: [] }; var p = [r, r]]: an array
    that holds one recipe twice. *)
Definition sharedRecipe : Graph.heap :=
  [Graph.OArr [Graph.VRef 1; Graph.VRef 1];
   Graph.OObj [("recipe_id", Graph.VStr "r1"); ("ingredients", Graph.VRef 2)];
   Graph.OArr []].

(** [var a = []; a.push(a)]: an array that holds itself, and nothing that is
    recipe-shaped. *)
Definition selfContaining : Graph.heap := [Graph.OArr [Graph.VRef 0]].

(** A recipe of three default servings with 27 selling units of rice. *)
Definition rice : RecipeIngredient.t := Example.ingredient "s-rice" "Rice" "CORE" 27 "AVAILABLE".

Definition risotto : Recipe.t := Example.recipe "r3" "Risotto" 3 [rice].

Definition pantry : World :=
  {| clientReady := true;
     recipeCacheData := Some [risotto];
     recipeCacheTimestamp := 1000;
     calls := [] |}.

Definition article (id name : string) (price : Q) (image_ids : json) : json :=
  JObj [("id", JStr id); ("name", JStr name); ("price", JNum price);
        ("unit_quantity", JStr "1 st"); ("image_ids", image_ids); ("max_count", JNum 50)].

Definition milk : json := article "a1" "Milk" 129 (JArr [JStr "img-1"; JStr "img-2"]).
Definition bread : json := article "a2" "Bread" 249 (JArr []).
Definition eggs : json := article "a3" "Eggs" 319 JNull.

(** A cart of three order lines; the last has no articles. *)
Definition basket : json :=
  JObj [("type", JStr "ORDER");
        ("items",
         JArr [JObj [("id", JStr "line-1"); ("items", JArr [milk; bread])];
               JObj [("id", JStr "line-2"); ("items", JArr [eggs])];
               JObj [("id", JStr "line-3")]]);
        ("total_count", JNum 3);
        ("total_price", JNum 697);
        ("checkout_total_price", JNum 697)].

(** A cart whose only order line holds a text where its articles should be. *)
Definition brokenBasket : json :=
  JObj [("items", JArr [JObj [("items", JStr "none")]])].

Definition slot (id : string) (day : string) (available selected : option bool) : Slot.t :=
  {| Slot.slot_id := Some id;
     Slot.window_start := Some (day ++ "T" ++ "18:00" ++ ":00.000+02:00")%string;
     Slot.window_end := Some (day ++ "T" ++ "19:00" ++ ":00.000+02:00")%string;
     Slot.cut_off_time := Some "2024-05-31T22:00:00.000+02:00";
     Slot.is_available := available;
     Slot.selected := selected |}.

Definition slotsReply : SlotsReply.t :=
  {| SlotsReply.delivery_slots :=
       Some [slot "s1" "2024-06-01" (Some true) (Some false);
             slot "s2" "2024-06-02" (Some false) None;
             slot "s3" "2024-06-03" (Some true) (Some true);
             slot "s4" "2024-06-04" None None];
     SlotsReply.selected_slot := Some {| SlotRef.slot_id := Some "s3" |} |}.

End Cases.

(** * Properties of the tree search *)

Section TreeSearch.

(** Induction on a payload through [children]. *)
Lemma json_children_ind (P : json -> Prop) :
  (forall node, (forall c, In c (children node) -> P c) -> P node) ->
  forall node, P node.
Proof.
  intros step.
  fix IH 1.
  intros node. apply step.
  destruct node as [ | b | n | s | elements | rec]; simpl; try contradiction.
  - induction elements as [ | x xs IHxs]; simpl.
    + contradiction.
    + intros c [Hc | Hc].
      * rewrite <- Hc. apply IH.
      * apply IHxs, Hc.
  - induction rec as [ | [k v] ps IHps]; simpl.
    + contradiction.
    + intros c [Hc | Hc].
      * rewrite <- Hc. apply IH.
      * apply IHps, Hc.
Qed.

Lemma fold_left_snd {A : Type} (f : A -> json -> A) (rec : list (string * json)) (acc : A) :
  fold_left (fun a p => f a (snd p)) rec acc = fold_left f (map snd rec) acc.
Proof.
  revert acc. induction rec as [ | p ps IH]; intros acc; simpl; [reflexivity | apply IH].
Qed.

Lemma recurse_unfold (node : json) (recipes : list json) :
  recurse node recipes =
  if matches node then recipes ++ [node]
  else fold_left (fun acc x => recurse x acc) (children node) recipes.
Proof.
  destruct node as [ | b | n | s | elements | rec]; simpl; try reflexivity.
  destruct (recipeShaped rec); [reflexivity | ].
  apply (fold_left_snd (fun acc x => recurse x acc)).
Qed.

Lemma fold_recurse (cs : list json) :
  (forall c, In c cs -> forall acc, recurse c acc = acc ++ extractRecipes c) ->
  forall acc, fold_left (fun a x => recurse x a) cs acc = acc ++ flat_map extractRecipes cs.
Proof.
  induction cs as [ | c cs IH]; intros Hcs acc; simpl.
  - symmetry. apply app_nil_r.
  - rewrite (Hcs c (or_introl eq_refl)).
    rewrite IH by (intros c' Hc'; apply Hcs; right; exact Hc').
    symmetry. apply app_assoc.
Qed.

(** Pushing to [recipes] only appends: what was in the array stays. *)
Lemma recurse_app (node : json) :
  forall recipes, recurse node recipes = recipes ++ extractRecipes node.
Proof.
  induction node as [node IH] using json_children_ind.
  intros recipes. unfold extractRecipes. rewrite !recurse_unfold.
  destruct (matches node); [reflexivity | ].
  rewrite !(fold_recurse _ IH). reflexivity.
Qed.

Lemma extractRecipes_unfold (node : json) :
  extractRecipes node =
  if matches node then [node] else flat_map extractRecipes (children node).
Proof.
  unfold extractRecipes at 1. rewrite recurse_unfold.
  destruct (matches node); [reflexivity | ].
  exact (fold_recurse _ (fun c _ => recurse_app c) []).
Qed.

Lemma recipePaths_unfold (node : json) :
  recipePaths node =
  if matches node then [[]] else pathsFrom 0 (map recipePaths (children node)).
Proof.
  destruct node as [ | b | n | s | elements | rec]; simpl; try reflexivity.
  destruct (recipeShaped rec); [reflexivity | ].
  rewrite map_map. reflexivity.
Qed.

Lemma In_pathsFrom (p : path) (pss : list (list path)) :
  forall i,
    In p (pathsFrom i pss) <->
    exists k ps p', nth_error pss k = Some ps /\ In p' ps /\ p = (i + k) :: p'.
Proof.
  induction pss as [ | ps pss IH]; intros i; simpl.
  - split; [contradiction | ].
    intros (k & ps & p' & Hk & _). destruct k; discriminate.
  - rewrite in_app_iff, in_map_iff, IH. split.
    + intros [(p' & Hp & Hin) | (k & ps' & p' & Hk & Hin & Hp)].
      * exists 0, ps, p'. rewrite Nat.add_0_r. auto.
      * exists (S k), ps', p'. rewrite Nat.add_succ_r. auto.
    + intros (k & ps' & p' & Hk & Hin & Hp). destruct k as [ | k]; simpl in Hk.
      * left. injection Hk as <-. exists p'. rewrite Nat.add_0_r in Hp. auto.
      * right. exists k, ps', p'. rewrite Nat.add_succ_r in Hp. auto.
Qed.

Lemma outermost_nil (root : json) : outermost root [] <-> matches root = true.
Proof.
  unfold outermost. simpl. split.
  - intros [(node & Hnode & Hm) _]. injection Hnode as <-. exact Hm.
  - intros Hm. split; [exists root; auto | ].
    intros q r m Hqr Hr. symmetry in Hqr. apply app_eq_nil in Hqr. tauto.
Qed.

Lemma outermost_cons (root : json) (i : nat) (p : path) :
  outermost root (i :: p) <->
  matches root = false /\
  exists child, nth_error (children root) i = Some child /\ outermost child p.
Proof.
  unfold outermost. split.
  - intros [(node & Hnode & Hm) Habove]. split.
    + apply (Habove [] (i :: p) root); [reflexivity | discriminate | reflexivity].
    + simpl in Hnode. destruct (nth_error (children root) i) as [child | ] eqn:Hi;
        [ | discriminate].
      exists child. split; [reflexivity | ]. split; [exists node; auto | ].
      intros q r m Hqr Hr Hq. apply (Habove (i :: q) r m); [ | exact Hr | ].
      * simpl. rewrite Hqr. reflexivity.
      * simpl. rewrite Hi. exact Hq.
  - intros (Hroot & child & Hi & (node & Hnode & Hm) & Habove). split.
    + exists node. simpl. rewrite Hi. auto.
    + intros q r m Hqr Hr Hq. destruct q as [ | j q]; simpl in *.
      * injection Hq as <-. exact Hroot.
      * injection Hqr as <- ->. rewrite Hi in Hq. apply (Habove q r m); auto.
Qed.

(** [recipePaths] is the set of outermost matching positions. *)
Lemma recipePaths_outermost (root : json) :
  forall p, In p (recipePaths root) <-> outermost root p.
Proof.
  induction root as [root IH] using json_children_ind.
  intros p. rewrite recipePaths_unfold.
  destruct (matches root) eqn:Hroot.
  - simpl. split.
    + intros [<- | []]. apply outermost_nil, Hroot.
    + intros Hp. destruct p as [ | i p]; [auto | ].
      apply outermost_cons in Hp. destruct Hp as [Hp _]. congruence.
  - rewrite In_pathsFrom. split.
    + intros (k & ps & p' & Hk & Hin & ->). simpl.
      rewrite nth_error_map in Hk.
      destruct (nth_error (children root) k) as [child | ] eqn:Hchild; [ | discriminate].
      injection Hk as <-.
      apply outermost_cons. split; [exact Hroot | ].
      exists child. split; [exact Hchild | ].
      apply IH; [ | exact Hin]. eapply nth_error_In, Hchild.
    + intros Hp. destruct p as [ | i p].
      * apply outermost_nil in Hp. congruence.
      * apply outermost_cons in Hp. destruct Hp as (_ & child & Hchild & Hp).
        exists i, (recipePaths child), p. simpl.
        rewrite nth_error_map, Hchild. split; [reflexivity | ]. split; [ | reflexivity].
        apply IH; [ | exact Hp]. eapply nth_error_In, Hchild.
Qed.

Lemma Forall2_map_left {A B C : Type} (R : B -> C -> Prop) (f : A -> B) (l : list A) :
  forall l', Forall2 (fun x y => R (f x) y) l l' -> Forall2 R (map f l) l'.
Proof.
  induction l as [ | x l IH]; intros l' H; inversion H; subst; simpl; constructor; auto.
Qed.

Lemma pathsFrom_nodes (root : json) (cs : list json) :
  forall i,
    (forall k c, nth_error cs k = Some c -> nth_error (children root) (i + k) = Some c) ->
    (forall c, In c cs ->
       Forall2 (fun p node => subnode c p = Some node) (recipePaths c) (extractRecipes c)) ->
    Forall2 (fun p node => subnode root p = Some node)
      (pathsFrom i (map recipePaths cs)) (flat_map extractRecipes cs).
Proof.
  induction cs as [ | c cs IH]; intros i Hat Hcs; simpl.
  - constructor.
  - apply Forall2_app.
    + apply Forall2_map_left.
      pose proof (Hat 0 c eq_refl) as Hc. rewrite Nat.add_0_r in Hc.
      eapply Forall2_impl; [ | apply (Hcs c); left; reflexivity].
      intros p node Hp. simpl. rewrite Hc. exact Hp.
    + apply IH.
      * intros k c' Hk. rewrite Nat.add_succ_comm. apply Hat. exact Hk.
      * intros c' Hc'. apply Hcs. right. exact Hc'.
Qed.

(** The returned nodes are the nodes at [recipePaths], in that order. *)
Lemma extractRecipes_at_paths (root : json) :
  Forall2 (fun p node => subnode root p = Some node) (recipePaths root) (extractRecipes root).
Proof.
  induction root as [root IH] using json_children_ind.
  rewrite recipePaths_unfold, extractRecipes_unfold.
  destruct (matches root).
  - constructor; [reflexivity | constructor].
  - apply pathsFrom_nodes; [ | exact IH].
    intros k c Hk. exact Hk.
Qed.

Lemma StronglySorted_app {A : Type} (R : A -> A -> Prop) (l1 l2 : list A) :
  StronglySorted R l1 -> StronglySorted R l2 ->
  (forall x y, In x l1 -> In y l2 -> R x y) ->
  StronglySorted R (l1 ++ l2).
Proof.
  intros H1 H2 H12. induction H1 as [ | x l1 Hl1 IH Hx]; simpl.
  - exact H2.
  - constructor.
    + apply IH. intros a b Ha Hb. apply H12; [right; exact Ha | exact Hb].
    + apply Forall_app. split; [exact Hx | ].
      apply Forall_forall. intros y Hy. apply H12; [left; reflexivity | exact Hy].
Qed.

Lemma sorted_below (i : nat) (ps : list path) :
  StronglySorted before ps -> StronglySorted before (map (cons i) ps).
Proof.
  induction 1 as [ | p ps Hps IH Hp]; simpl; constructor.
  - exact IH.
  - apply Forall_map. revert Hp. apply Forall_impl. intros q Hq. apply before_below, Hq.
Qed.

Lemma sorted_pathsFrom (pss : list (list path)) :
  Forall (StronglySorted before) pss ->
  forall i, StronglySorted before (pathsFrom i pss).
Proof.
  induction 1 as [ | ps pss Hps Hpss IH]; intros i; simpl.
  - constructor.
  - apply StronglySorted_app.
    + apply sorted_below, Hps.
    + apply IH.
    + intros x y Hx Hy.
      apply in_map_iff in Hx. destruct Hx as (p & <- & _).
      apply In_pathsFrom in Hy. destruct Hy as (k & _ & q & _ & _ & ->).
      apply before_here. lia.
Qed.

(** The returned nodes come in document order. *)
Lemma recipePaths_sorted (root : json) : StronglySorted before (recipePaths root).
Proof.
  induction root as [root IH] using json_children_ind.
  rewrite recipePaths_unfold. destruct (matches root).
  - repeat constructor.
  - apply sorted_pathsFrom. apply Forall_map, Forall_forall. exact IH.
Qed.

(** Every matching node lies at or below a returned one. *)
Lemma recipePaths_cover (q : path) :
  forall root m,
    subnode root q = Some m -> matches m = true ->
    exists p r, In p (recipePaths root) /\ q = p ++ r.
Proof.
  induction q as [ | i q IH]; intros root m Hq Hm.
  - simpl in Hq. injection Hq as <-.
    exists [], []. split; [ | reflexivity].
    apply recipePaths_outermost, outermost_nil, Hm.
  - destruct (matches root) eqn:Hroot.
    + exists [], (i :: q). split; [ | reflexivity].
      apply recipePaths_outermost, outermost_nil, Hroot.
    + simpl in Hq.
      destruct (nth_error (children root) i) as [child | ] eqn:Hchild; [ | discriminate].
      destruct (IH child m Hq Hm) as (p & r & Hp & ->).
      exists (i :: p), r. split; [ | reflexivity].
      apply recipePaths_outermost, outermost_cons. split; [exact Hroot | ].
      exists child. split; [exact Hchild | ]. apply recipePaths_outermost, Hp.
Qed.

(** The shape predicate on an object whose identifier is a string: the
    identifier is not empty and [ingredients] is an array. *)
Lemma matches_recipe_shape (rec : list (string * json)) (id : string) :
  getProperty "recipe_id" rec = Some (JStr id) ->
  (matches (JObj rec) = true <->
   id <> "" /\ exists elements, getProperty "ingredients" rec = Some (JArr elements)).
Proof.
  intros Hid. unfold matches, recipeShaped. rewrite Hid. simpl.
  destruct (String.eqb_spec id "") as [-> | Hne]; simpl.
  - split; [discriminate | intros [H _]; contradiction H; reflexivity].
  - destruct (getProperty "ingredients" rec) as [[ | b | n | s | elements | ps] | ]; simpl;
      split; try discriminate; try (intros [_ [elements' H]]; discriminate H).
    + intros _. split; [exact Hne | exists elements; reflexivity].
    + reflexivity.
Qed.

(** C5, for a payload that is a tree, as every parsed JSON document is.
    [extractRecipes] returns the nodes at a list [ps] of positions such
    that: [ps] is exactly the set of positions of recipe-shaped nodes with no
    recipe-shaped ancestor (a matched node is not searched); [ps] is in
    document order, arrays by element and objects by enumeration order; no
    returned node lies inside another; every recipe-shaped node of the
    payload is a returned node or lies inside one, so no further match can
    be added without overlap; and a payload without a recipe-shaped node
    gives the empty list.  The function is total.  Recipe-shaped, for an
    object with a string identifier, means that the identifier is not empty
    and that [ingredients] is an array. *)
Theorem extractRecipes_outermost_matches (obj : json) :
  exists ps : list path,
    Forall2 (fun p node => subnode obj p = Some node) ps (extractRecipes obj)
    /\ (forall p, In p ps <-> outermost obj p)
    /\ StronglySorted before ps
    /\ (forall p q r, In p ps -> In q ps -> q = p ++ r -> r = [])
    /\ (forall q m, subnode obj q = Some m -> matches m = true ->
          exists p r, In p ps /\ q = p ++ r)
    /\ ((forall q m, subnode obj q = Some m -> matches m = false) ->
          extractRecipes obj = [])
    /\ (forall rec id,
          getProperty "recipe_id" rec = Some (JStr id) ->
          (matches (JObj rec) = true <->
           id <> "" /\ exists elements, getProperty "ingredients" rec = Some (JArr elements))).
Proof.
  exists (recipePaths obj).
  pose proof (extractRecipes_at_paths obj) as Hat.
  pose proof (recipePaths_outermost obj) as Hout.
  split; [exact Hat | ].
  split; [exact Hout | ].
  split; [apply recipePaths_sorted | ].
  split; [ | split; [ | split; [ | exact matches_recipe_shape]]].
  - intros p q r Hp Hq Hqr.
    destruct r as [ | i r]; [reflexivity | exfalso].
    apply Hout in Hp. apply Hout in Hq.
    destruct Hp as [(node & Hnode & Hm) _]. destruct Hq as [_ Habove].
    rewrite (Habove p (i :: r) node Hqr) in Hm; [discriminate | discriminate | exact Hnode].
  - intros q m. apply recipePaths_cover.
  - intros Hnone.
    destruct (recipePaths obj) as [ | p ps] eqn:Hps.
    + inversion Hat. reflexivity.
    + exfalso. destruct (proj1 (Hout p) (or_introl eq_refl)) as [(node & Hnode & Hm) _].
      rewrite (Hnone p node Hnode) in Hm. discriminate.
Qed.

End TreeSearch.

(** * Properties of the pagination *)

Section Slicing.

Context {A : Type}.

Lemma skipn_nth_error (l : list A) :
  forall i,
    skipn i l =
    match nth_error l i with
    | Some x => x :: skipn (S i) l
    | None => []
    end.
Proof.
  induction l as [ | x l IH]; intros [ | i]; try reflexivity.
  change (skipn (S i) (x :: l)) with (skipn i l). rewrite IH. simpl.
  destruct (nth_error l i); reflexivity.
Qed.

Lemma elementsBetween_firstn (l : list A) (from to : nat) :
  elementsBetween l from to = firstn (to - from) (skipn from l).
Proof.
  unfold elementsBetween. generalize (to - from) as n. intros n. revert from.
  induction n as [ | n IH]; intros from.
  - reflexivity.
  - change (seq from (S n)) with (from :: seq (S from) n).
    rewrite (skipn_nth_error l from). simpl flat_map. rewrite IH.
    destruct (nth_error l from) as [x | ] eqn:Hx.
    + reflexivity.
    + apply nth_error_None in Hx. rewrite skipn_all2 by lia. rewrite firstn_nil. reflexivity.
Qed.

Lemma elementsBetween_length (l : list A) (from to : nat) :
  to <= List.length l -> List.length (elementsBetween l from to) = to - from.
Proof.
  intros Hto. rewrite elementsBetween_firstn, length_firstn, length_skipn. lia.
Qed.

Lemma toIntegerOrInfinity_inject_Z (z : Z) : toIntegerOrInfinity (inject_Z z) = z.
Proof. unfold toIntegerOrInfinity. simpl. apply Z.quot_1_r. Qed.

Lemma toIntegerOrInfinity_sum (a b : Z) :
  toIntegerOrInfinity (inject_Z a + inject_Z b) = (a + b)%Z.
Proof.
  unfold toIntegerOrInfinity. simpl. rewrite Z.quot_1_r. lia.
Qed.

(** [slice] at integer bounds [offset >= 0] and [offset + limit]. *)
Lemma slice_between (l : list A) (offset limit : Z) :
  (0 <= offset)%Z -> (0 <= limit)%Z ->
  slice l (inject_Z offset) (inject_Z offset + inject_Z limit) =
  elementsBetween l (Z.to_nat offset)
    (Nat.min (Z.to_nat (offset + limit)) (List.length l)).
Proof.
  intros Ho Hl. unfold slice.
  rewrite toIntegerOrInfinity_inject_Z, toIntegerOrInfinity_sum.
  rewrite elementsBetween_firstn. unfold relativeIndex.
  destruct (Z.ltb_spec offset 0) as [ | _]; [lia | ].
  destruct (Z.ltb_spec (offset + limit) 0) as [ | _]; [lia | ].
  destruct (Z.le_gt_cases (Z.of_nat (List.length l)) offset) as [Hout | Hin].
  - rewrite (Z.min_r offset) by lia.
    replace (Z.to_nat (Z.min (offset + limit) (Z.of_nat (List.length l))
                       - Z.of_nat (List.length l))) with 0 by lia.
    replace (Nat.min (Z.to_nat (offset + limit)) (List.length l) - Z.to_nat offset)
      with 0 by lia.
    reflexivity.
  - rewrite (Z.min_l offset) by lia. f_equal. lia.
Qed.

Lemma orNumber_inject_Z (z : Z) (d : Q) : (z <> 0)%Z -> orNumber (inject_Z z) d = inject_Z z.
Proof.
  intros Hz. unfold orNumber.
  destruct (Qeq_bool (inject_Z z) 0) eqn:E; [ | reflexivity].
  apply Qeq_bool_iff in E. unfold Qeq in E. simpl in E. lia.
Qed.

Lemma orNumber_offset (z : Z) : orNumber (inject_Z z) 0 = inject_Z z.
Proof.
  destruct (Z.eq_dec z 0) as [-> | Hz]; [reflexivity | apply orNumber_inject_Z, Hz].
Qed.

Lemma ltNumber_integers (a b : Z) (l : list A) :
  ltNumber (inject_Z a + inject_Z b) (lengthNumber l) =
  (a + b <? Z.of_nat (List.length l))%Z.
Proof.
  unfold ltNumber, lengthNumber, Qle_bool. simpl.
  destruct (Z.ltb_spec (a + b) (Z.of_nat (List.length l)));
    destruct (Z.leb_spec (Z.of_nat (List.length l) * 1) ((a * 1 + b * 1) * 1));
    simpl; try reflexivity; lia.
Qed.

End Slicing.

(** * Properties of the handlers *)

Section Effects.

Variable client : Client.t.
Variable asRecipe : json -> Recipe.t.

Lemma logged_calls (w : World) : logged w (calls w) = w.
Proof. destruct w. reflexivity. Qed.

Lemma logged_logged (w : World) (l1 l2 : list Call) : logged (logged w l1) l2 = logged w l2.
Proof. reflexivity. Qed.

Lemma bind_await {A B : Type} (c : Call) (answer : list Call -> outcome A) (k : A -> M B)
    (w : World) :
  bind (await c answer) k w =
  match answer (calls w ++ [c]) with
  | Returned a => k a (logged w (calls w ++ [c]))
  | Thrown e => (Thrown e, logged w (calls w ++ [c]))
  end.
Proof.
  unfold bind, await. destruct (answer (calls w ++ [c])); reflexivity.
Qed.

Lemma ensureClientInitialized_ok (w : World) :
  initOk client w -> ensureClientInitialized client w = (Returned tt, initialized w).
Proof.
  intros Hok. unfold ensureClientInitialized, tryCatch, getPicnicClient, initialized, ensured.
  destruct w as [ready data ts log]. simpl in *. destruct ready.
  - reflexivity.
  - destruct Hok as [Hready | Hinit]; [discriminate | ].
    unfold initializePicnicClient. rewrite bind_await. simpl in *. rewrite Hinit. reflexivity.
Qed.

Lemma ensureClientInitialized_rejected (w : World) (e : string) :
  clientReady w = false ->
  Client.initialize client (calls w ++ [InitializePicnicClient]) = Thrown e ->
  ensureClientInitialized client w = (Thrown e, logged w (calls w ++ [InitializePicnicClient])).
Proof.
  intros Hready Hinit. unfold ensureClientInitialized, tryCatch, getPicnicClient.
  rewrite Hready. unfold initializePicnicClient. rewrite bind_await, Hinit. reflexivity.
Qed.

(** After a successful [ensureClientInitialized], [getPicnicClient] returns
    and the rest of the handler runs in the initialised world. *)
Lemma with_client {B : Type} (k : M B) (w : World) :
  initOk client w ->
  bind (ensureClientInitialized client) (fun _ => bind getPicnicClient (fun _ => k)) w =
  k (initialized w).
Proof.
  intros Hok. unfold bind at 1. rewrite (ensureClientInitialized_ok w Hok).
  reflexivity.
Qed.

(** C9. For a full result of length [total] and integers [offset >= 0] and
    [limit >= 1], the search and the deliveries handlers return the elements
    at the indices [offset], ..., [min (offset + limit) total - 1] of the
    full result (the search handler trims each to its essential fields), that
    is [min (offset + limit) total - offset] elements when [offset <= total],
    and report [hasMore] as [offset + limit < total]. *)
Theorem pagination_slices_and_reports_hasMore
    (offset limit : Z) (query : string) (filter : list string)
    (allResults : list Product.t) (allDeliveries : list json) (w : World) :
  (0 <= offset)%Z -> (1 <= limit)%Z ->
  initOk client w ->
  Client.search client (ensured w ++ [Search query]) = Returned allResults ->
  Client.getDeliveries client (ensured w ++ [GetDeliveries filter]) = Returned allDeliveries ->
  let from := Z.to_nat offset in
  let to := fun total => Nat.min (Z.to_nat (offset + limit)) total in
  let resultsPage := elementsBetween allResults from (to (List.length allResults)) in
  let deliveriesPage := elementsBetween allDeliveries from (to (List.length allDeliveries)) in
  fst (picnic_search client query (inject_Z limit) (inject_Z offset) w) =
    Returned
      {| SearchResult.query := query;
         SearchResult.results := map filterProduct resultsPage;
         SearchResult.pagination :=
           {| Pagination.offset := inject_Z offset;
              Pagination.limit := inject_Z limit;
              Pagination.returned := lengthNumber resultsPage;
              Pagination.total := lengthNumber allResults;
              Pagination.hasMore :=
                (offset + limit <? Z.of_nat (List.length allResults))%Z |} |}
  /\ fst (picnic_get_deliveries client filter (inject_Z limit) (inject_Z offset) w) =
    Returned
      {| DeliveriesResult.deliveries := deliveriesPage;
         DeliveriesResult.pagination :=
           {| Pagination.offset := inject_Z offset;
              Pagination.limit := inject_Z limit;
              Pagination.returned := lengthNumber deliveriesPage;
              Pagination.total := lengthNumber allDeliveries;
              Pagination.hasMore :=
                (offset + limit <? Z.of_nat (List.length allDeliveries))%Z |} |}
  /\ List.length resultsPage = to (List.length allResults) - from
  /\ List.length deliveriesPage = to (List.length allDeliveries) - from.
Proof.
  intros Hoffset Hlimit Hok Hsearch Hdeliveries from to resultsPage deliveriesPage.
  split; [ | split; [ | split]].
  - unfold picnic_search. rewrite (with_client _ w Hok), bind_await.
    change (calls (initialized w)) with (ensured w). rewrite Hsearch.
    unfold ret, pagination. simpl fst.
    rewrite orNumber_offset, (orNumber_inject_Z limit) by lia.
    rewrite slice_between by lia. fold from. fold (to (List.length allResults)).
    fold resultsPage. rewrite ltNumber_integers.
    unfold lengthNumber. rewrite length_map. reflexivity.
  - unfold picnic_get_deliveries. rewrite (with_client _ w Hok), bind_await.
    change (calls (initialized w)) with (ensured w). rewrite Hdeliveries.
    unfold ret, pagination. simpl fst.
    rewrite orNumber_offset, (orNumber_inject_Z limit) by lia.
    rewrite slice_between by lia. fold from. fold (to (List.length allDeliveries)).
    fold deliveriesPage. rewrite ltNumber_integers. reflexivity.
  - apply elementsBetween_length. unfold to. lia.
  - apply elementsBetween_length. unfold to. lia.
Qed.

(** ** Checkout *)

Lemma writes_app (l1 l2 : list Call) : writes (l1 ++ l2) = writes l1 ++ writes l2.
Proof. apply filter_app. Qed.

Lemma writes_ensured (w : World) : writes (ensured w) = writes (calls w).
Proof.
  unfold ensured. destruct (clientReady w); [reflexivity | ].
  rewrite writes_app. apply app_nil_r.
Qed.

(** Step 1 of the checkout: the cart is read in the initialised world. *)
Lemma checkout_reads_cart (w : World) (cart : Cart.t) :
  initOk client w ->
  Client.getShoppingCart client (ensured w ++ [GetShoppingCart]) = Returned cart ->
  picnic_checkout client w =
  match truthyString (Cart.state_token cart), truthyNumber (Cart.mts cart) with
  | Some state_token, Some mts =>
      match truthyString (selectedSlotId cart) with
      | None => ret (CheckoutError NO_SLOT None)
      | Some _ =>
          startResult <- await (SendRequest "POST" START_PATH (checkoutBody mts state_token) None)
                               (Client.sendRequest_start client) ;;
          match truthyString (StartResult.order_id startResult) with
          | None => ret (CheckoutError NO_ORDER_ID (Some startResult))
          | Some orderId =>
              await (SendRequest "POST" INITIATE_PAYMENT_PATH (paymentBody orderId) None)
                    (Client.sendRequest_unknown client) ;;
              confirmResult <- await (SendRequest "POST" (confirmPath orderId) (JObj []) None)
                                     (Client.sendRequest_confirm client) ;;
              ret (CheckoutDone
                     {| CheckoutConfirmed.order_id := ConfirmResult.order_id confirmResult;
                        CheckoutConfirmed.total_price := ConfirmResult.total_price confirmResult;
                        CheckoutConfirmed.total_count := ConfirmResult.total_count confirmResult;
                        CheckoutConfirmed.delivery_window :=
                          option_map deliveryWindow (ConfirmResult.delivery_slot confirmResult) |})
          end
      end
  | _, _ => ret (CheckoutError NO_TOKENS None)
  end (logged (initialized w) (ensured w ++ [GetShoppingCart])).
Proof.
  intros Hok Hcart. unfold picnic_checkout.
  rewrite (with_client _ w Hok), bind_await.
  change (calls (initialized w)) with (ensured w). rewrite Hcart. reflexivity.
Qed.

(** C2. Once the cart is read: a cart without state token or without
    mutation token, and a cart without a selected slot, make [checkout]
    return an error value with nothing but the read in the log, so no write
    call; and when the cart is valid and the reply to the start call has no
    order identifier, [checkout] returns the error value carrying that reply,
    the start call being the last call made: no payment initiation, no
    confirmation. *)
Theorem checkout_fails_safely (w : World) (cart : Cart.t) :
  initOk client w ->
  Client.getShoppingCart client (ensured w ++ [GetShoppingCart]) = Returned cart ->
  let afterRead := logged (initialized w) (ensured w ++ [GetShoppingCart]) in
  (Cart.state_token cart = None \/ Cart.mts cart = None ->
     picnic_checkout client w = (Returned (CheckoutError NO_TOKENS None), afterRead))
  /\ (selectedSlotId cart = None ->
       exists message,
         picnic_checkout client w = (Returned (CheckoutError message None), afterRead)
         /\ (message = NO_TOKENS \/ message = NO_SLOT)
         /\ (truthyString (Cart.state_token cart) <> None ->
             truthyNumber (Cart.mts cart) <> None -> message = NO_SLOT))
  /\ writes (calls afterRead) = writes (calls w)
  /\ (forall state_token mts slot startResult,
        truthyString (Cart.state_token cart) = Some state_token ->
        truthyNumber (Cart.mts cart) = Some mts ->
        truthyString (selectedSlotId cart) = Some slot ->
        let start := SendRequest "POST" START_PATH (checkoutBody mts state_token) None in
        Client.sendRequest_start client (ensured w ++ [GetShoppingCart; start])
          = Returned startResult ->
        StartResult.order_id startResult = None ->
        picnic_checkout client w =
          (Returned (CheckoutError NO_ORDER_ID (Some startResult)),
           logged (initialized w) (ensured w ++ [GetShoppingCart; start]))).
Proof.
  intros Hok Hcart afterRead.
  pose proof (checkout_reads_cart w cart Hok Hcart) as Hrun. fold afterRead in Hrun.
  split; [ | split; [ | split]].
  - intros [Hnone | Hnone]; rewrite Hrun, Hnone; simpl.
    + reflexivity.
    + destruct (truthyString (Cart.state_token cart)); reflexivity.
  - intros Hslot. rewrite Hrun, Hslot. simpl.
    destruct (truthyString (Cart.state_token cart)) as [st | ];
      [destruct (truthyNumber (Cart.mts cart)) as [m | ] | ].
    + exists NO_SLOT. auto.
    + exists NO_TOKENS. repeat split; auto. intros _ H. contradiction H. reflexivity.
    + exists NO_TOKENS. repeat split; auto. intros H. contradiction H. reflexivity.
  - unfold afterRead. simpl. rewrite writes_app, writes_ensured. apply app_nil_r.
  - intros state_token mts slot startResult Hst Hmts Hslot start Hstart Hid.
    rewrite Hrun, Hst, Hmts, Hslot, bind_await.
    unfold afterRead. simpl calls. rewrite <- app_assoc. simpl app. fold start.
    rewrite Hstart, Hid. reflexivity.
Qed.

(** C10. The token test is a truthiness test: a cart whose [state_token] is
    the empty string or whose [mts] is zero is answered like a cart where the
    field is absent, with the error about an empty cart and no write call. *)
Theorem checkout_token_test_is_truthiness (w : World) (cart : Cart.t) :
  initOk client w ->
  Client.getShoppingCart client (ensured w ++ [GetShoppingCart]) = Returned cart ->
  (Cart.state_token cart = Some "" \/ (exists mts, Cart.mts cart = Some mts /\ (mts == 0)%Q)
   \/ Cart.state_token cart = None \/ Cart.mts cart = None) ->
  let afterRead := logged (initialized w) (ensured w ++ [GetShoppingCart]) in
  picnic_checkout client w = (Returned (CheckoutError NO_TOKENS None), afterRead)
  /\ writes (calls afterRead) = writes (calls w).
Proof.
  intros Hok Hcart Hfalsy afterRead. split.
  - rewrite (checkout_reads_cart w cart Hok Hcart). fold afterRead.
    assert (truthyString (Cart.state_token cart) = None
            \/ truthyNumber (Cart.mts cart) = None) as [Hnone | Hnone].
    { destruct Hfalsy as [H | [(mts & H & Hzero) | [H | H]]]; rewrite H; simpl; auto.
      right. apply Qeq_bool_iff in Hzero. rewrite Hzero. reflexivity. }
    + rewrite Hnone. reflexivity.
    + rewrite Hnone. destruct (truthyString (Cart.state_token cart)); reflexivity.
  - unfold afterRead. simpl. rewrite writes_app, writes_ensured. apply app_nil_r.
Qed.

(** ** The display form of a timestamp *)

Section Timestamps.

Local Open Scope string_scope.

Lemma append_empty_r (s : string) : s ++ "" = s.
Proof. induction s as [ | c s IH]; simpl; [reflexivity | rewrite IH; reflexivity]. Qed.

Lemma length_append (a b : string) :
  String.length (a ++ b) = String.length a + String.length b.
Proof. induction a as [ | c a IH]; simpl; [reflexivity | rewrite IH; reflexivity]. Qed.

Lemma substring_0_append (a b : string) (n : nat) :
  substring 0 (String.length a + n) (a ++ b) = a ++ substring 0 n b.
Proof. induction a as [ | c a IH]; simpl; [reflexivity | rewrite IH; reflexivity]. Qed.

Lemma substring_skip_append (a b : string) (n m : nat) :
  substring (String.length a + n) m (a ++ b) = substring n m b.
Proof. induction a as [ | c a IH]; simpl; [reflexivity | exact IH]. Qed.

Lemma substring_0_length (s : string) : substring 0 (String.length s) s = s.
Proof. induction s as [ | c s IH]; simpl; [reflexivity | rewrite IH; reflexivity]. Qed.

Lemma prefix_one_char (c d : ascii) (s : string) :
  prefix (String c "") (String d s) = if ascii_dec c d then true else false.
Proof.
  simpl. destruct (ascii_dec c d); [ | reflexivity]. destruct s; reflexivity.
Qed.

(** The first occurrence of a character that a prefix does not contain. *)
Lemma index_after (c : ascii) (a : string) :
  forall tail,
    index 0 (String c "") a = None ->
    index 0 (String c "") (a ++ String c tail) = Some (String.length a).
Proof.
  induction a as [ | d a IH]; intros tail Ha.
  - cbn [append index]. rewrite prefix_one_char.
    destruct (ascii_dec c c); [reflexivity | congruence].
  - cbn [append index] in *. rewrite prefix_one_char in *.
    destruct (ascii_dec c d); [discriminate | ].
    destruct (index 0 (String c "") a) eqn:Hrest; [discriminate | ].
    rewrite (IH tail eq_refl). reflexivity.
Qed.

(** On a timestamp [date ++ "T" ++ time ++ rest] with a date of ten
    characters and a time of five, [displayTime] gives [date ++ " " ++ time]. *)
Lemma displayTime_iso (date time rest : string) :
  String.length date = 10 -> String.length time = 5 -> index 0 "T" date = None ->
  displayTime (Some (date ++ "T" ++ time ++ rest)) = Some (date ++ " " ++ time).
Proof.
  intros Hdate Htime HnoT. unfold displayTime, stringSlice0. simpl option_map. f_equal.
  assert (substring 0 16 (date ++ String "T" (time ++ rest)) = date ++ String "T" time) as ->.
  { change 16 with (10 + 6). rewrite <- Hdate, substring_0_append. f_equal.
    cbn [substring]. f_equal.
    rewrite <- Htime, <- (Nat.add_0_r (String.length time)), substring_0_append.
    destruct rest; cbn [substring]; apply append_empty_r. }
  unfold replace.
  rewrite (index_after "T" date time HnoT), length_append.
  rewrite <- (Nat.add_0_r (String.length date)) at 1.
  rewrite substring_0_append. cbn [substring]. rewrite append_empty_r.
  f_equal. cbn [String.length append]. f_equal.
  rewrite substring_skip_append. cbn [substring].
  replace (String.length date + S (String.length time) - (String.length date + 1))
    with (String.length time) by lia.
  apply substring_0_length.
Qed.

End Timestamps.

(** C8. On the happy path [checkout] makes the start, payment and confirm
    calls and reports [order_id], [total_price] and [total_count] of the
    confirmation unchanged, and as delivery window the display form of
    [window_start] and [window_end]: the first 16 characters with the 'T'
    replaced by a space, which for an ISO-8601 timestamp is
    ["YYYY-MM-DD HH:MM"]. *)
Theorem checkout_reports_confirmation
    (w : World) (cart : Cart.t) (state_token : string) (mts : Q) (slot : string)
    (startResult : StartResult.t) (orderId : string) (paymentReply : json)
    (confirmResult : ConfirmResult.t) :
  initOk client w ->
  Client.getShoppingCart client (ensured w ++ [GetShoppingCart]) = Returned cart ->
  truthyString (Cart.state_token cart) = Some state_token ->
  truthyNumber (Cart.mts cart) = Some mts ->
  truthyString (selectedSlotId cart) = Some slot ->
  let start := SendRequest "POST" START_PATH (checkoutBody mts state_token) None in
  let pay := SendRequest "POST" INITIATE_PAYMENT_PATH (paymentBody orderId) None in
  let confirm := SendRequest "POST" (confirmPath orderId) (JObj []) None in
  Client.sendRequest_start client (ensured w ++ [GetShoppingCart; start])
    = Returned startResult ->
  truthyString (StartResult.order_id startResult) = Some orderId ->
  Client.sendRequest_unknown client (ensured w ++ [GetShoppingCart; start; pay])
    = Returned paymentReply ->
  Client.sendRequest_confirm client (ensured w ++ [GetShoppingCart; start; pay; confirm])
    = Returned confirmResult ->
  picnic_checkout client w =
    (Returned
       (CheckoutDone
          {| CheckoutConfirmed.order_id := ConfirmResult.order_id confirmResult;
             CheckoutConfirmed.total_price := ConfirmResult.total_price confirmResult;
             CheckoutConfirmed.total_count := ConfirmResult.total_count confirmResult;
             CheckoutConfirmed.delivery_window :=
               option_map
                 (fun s =>
                    {| DeliveryWindow.start := displayTime (DeliverySlot.window_start s);
                       DeliveryWindow.end_ := displayTime (DeliverySlot.window_end s) |})
                 (ConfirmResult.delivery_slot confirmResult) |}),
     logged (initialized w) (ensured w ++ [GetShoppingCart; start; pay; confirm]))
  /\ (forall t, displayTime (Some t) = Some (replace "T" " " (substring 0 16 t)))
  /\ (forall date time rest,
        String.length date = 10 -> String.length time = 5 -> index 0 "T" date = None ->
        displayTime (Some (date ++ "T" ++ time ++ rest)%string)
          = Some (date ++ " " ++ time)%string).
Proof.
  intros Hok Hcart Hst Hmts Hslot start pay confirm Hstart Hid Hpay Hconfirm.
  split; [ | split; [reflexivity | exact displayTime_iso]].
  rewrite (checkout_reads_cart w cart Hok Hcart), Hst, Hmts, Hslot.
  rewrite bind_await. simpl calls. rewrite <- app_assoc. simpl app. fold start.
  rewrite Hstart, Hid.
  rewrite bind_await. simpl calls. rewrite <- app_assoc. simpl app. fold pay.
  rewrite Hpay.
  rewrite bind_await. simpl calls. rewrite <- app_assoc. simpl app. fold confirm.
  rewrite Hconfirm. reflexivity.
Qed.

(** ** The recipe cache *)

Lemma cacheHit_iff (now : Z) (w : World) (data : list Recipe.t) :
  cacheHit now w = Some data <->
  recipeCacheData w = Some data /\ (now - recipeCacheTimestamp w < 5 * 60 * 1000)%Z.
Proof.
  unfold cacheHit, RECIPE_CACHE_TTL_MS.
  destruct (recipeCacheData w) as [d | ]; [ | split; [discriminate | intros [H _]; discriminate]].
  destruct (Z.ltb_spec (now - recipeCacheTimestamp w) (5 * 60 * 1000)); split.
  - intros H'. split; [exact H' | assumption].
  - intros [H' _]. exact H'.
  - discriminate.
  - intros [_ H']. lia.
Qed.

Lemma cacheHit_none (now : Z) (w : World) :
  cacheHit now w = None <->
  recipeCacheData w = None \/ (5 * 60 * 1000 <= now - recipeCacheTimestamp w)%Z.
Proof.
  unfold cacheHit, RECIPE_CACHE_TTL_MS.
  destruct (recipeCacheData w) as [d | ].
  - destruct (Z.ltb_spec (now - recipeCacheTimestamp w) (5 * 60 * 1000)); split.
    + discriminate.
    + intros [H' | H']; [discriminate | lia].
    + intros _. right. assumption.
    + reflexivity.
  - split; [left | ]; reflexivity.
Qed.

Lemma fetchRecipes_fresh (now : Z) (w : World) (data : list Recipe.t) :
  cacheHit now w = Some data -> fetchRecipes client asRecipe now w = (Returned data, w).
Proof. intros Hhit. unfold fetchRecipes. rewrite Hhit. reflexivity. Qed.

(** What [fetchRecipes] does on a miss once the client is there. *)
Lemma fetchRecipes_miss (now : Z) (w : World) :
  cacheHit now w = None -> initOk client w ->
  fetchRecipes client asRecipe now w =
  match Client.sendRequest_unknown client (ensured w ++ [MEALS_PLANNER_ROOT]) with
  | Returned response =>
      let recipes := map asRecipe (extractRecipes response) in
      (Returned recipes, refreshed w now recipes)
  | Thrown e => (Thrown e, logged (initialized w) (ensured w ++ [MEALS_PLANNER_ROOT]))
  end.
Proof.
  intros Hmiss Hok. unfold fetchRecipes. rewrite Hmiss.
  rewrite (with_client _ w Hok), bind_await.
  change (calls (initialized w)) with (ensured w).
  destruct (Client.sendRequest_unknown client (ensured w ++ [MEALS_PLANNER_ROOT]));
    reflexivity.
Qed.

Lemma recipeFetches_app (l1 l2 : list Call) :
  recipeFetches (l1 ++ l2) = recipeFetches l1 + recipeFetches l2.
Proof. unfold recipeFetches. rewrite filter_app. apply length_app. Qed.

Lemma recipeFetches_ensured (w : World) : recipeFetches (ensured w) = recipeFetches (calls w).
Proof.
  unfold ensured. destruct (clientReady w); [reflexivity | ].
  rewrite recipeFetches_app. apply Nat.add_0_r.
Qed.

Lemma recipeFetches_refresh (w : World) :
  recipeFetches (ensured w ++ [MEALS_PLANNER_ROOT]) = S (recipeFetches (calls w)).
Proof.
  rewrite recipeFetches_app, recipeFetches_ensured. unfold recipeFetches at 2. simpl. lia.
Qed.

Lemma keepsCache_ret {A : Type} (a : A) : keepsCache (ret a).
Proof. intros w. split; reflexivity. Qed.

Lemma keepsCache_bind {A B : Type} (m : M A) (k : A -> M B) :
  keepsCache m -> (forall a, keepsCache (k a)) -> keepsCache (bind m k).
Proof.
  intros Hm Hk w. unfold bind. specialize (Hm w).
  destruct (m w) as [[a | e] w']; simpl in Hm.
  - destruct (Hk a w') as [H1 H2]. destruct Hm as [H3 H4]. split; congruence.
  - exact Hm.
Qed.

Lemma keepsCache_await {A : Type} (c : Call) (answer : list Call -> outcome A) :
  isRecipeFetch c = false -> keepsCache (await c answer).
Proof.
  intros Hc w. unfold await. simpl. split; [reflexivity | ].
  rewrite recipeFetches_app. unfold recipeFetches at 2. simpl. rewrite Hc. apply Nat.add_0_r.
Qed.

Lemma keepsCache_getPicnicClient : keepsCache getPicnicClient.
Proof. intros w. unfold getPicnicClient. destruct (clientReady w); split; reflexivity. Qed.

Lemma keepsCache_ensureClientInitialized : keepsCache (ensureClientInitialized client).
Proof.
  intros w. unfold ensureClientInitialized, tryCatch, getPicnicClient.
  destruct (clientReady w); [split; reflexivity | ].
  unfold initializePicnicClient. rewrite bind_await.
  destruct (Client.initialize client (calls w ++ [InitializePicnicClient])); simpl;
    (split; [reflexivity | ]); rewrite recipeFetches_app; apply Nat.add_0_r.
Qed.

Lemma keepsCache_addIngredients (scale : float) (ingredients : list RecipeIngredient.t) :
  forall acc, keepsCache (addIngredients client scale ingredients acc).
Proof.
  induction ingredients as [ | i rest IH]; intros acc; simpl.
  - apply keepsCache_ret.
  - destruct (RecipeIngredient.ingredient_type i =? "CUPBOARD"); [apply IH | ].
    destruct (negb (RecipeIngredient.availability_status i =? "AVAILABLE")); [apply IH | ].
    apply keepsCache_bind; [apply keepsCache_await; reflexivity | intros _; apply IH].
Qed.

Lemma keepsCache_listRecipes (recipes : list Recipe.t) : keepsCache (listRecipes recipes).
Proof. apply keepsCache_ret. Qed.

Lemma keepsCache_getRecipeDetails (id : string) (recipes : list Recipe.t) :
  keepsCache (getRecipeDetails id recipes).
Proof. unfold getRecipeDetails. destruct (findRecipe id recipes); apply keepsCache_ret. Qed.

Lemma keepsCache_addRecipeToCart (id : string) (servings : option float) (recipes : list Recipe.t) :
  keepsCache (addRecipeToCart client id servings recipes).
Proof.
  unfold addRecipeToCart. destruct (findRecipe id recipes); [ | apply keepsCache_ret].
  apply keepsCache_bind; [apply keepsCache_ensureClientInitialized | intros _].
  apply keepsCache_bind; [apply keepsCache_getPicnicClient | intros _].
  apply keepsCache_bind; [apply keepsCache_addIngredients | intros lists].
  apply keepsCache_ret.
Qed.

(** A handler [recipes <- fetchRecipes now ;; rest recipes] whose [rest]
    leaves the cache alone follows the refresh policy. *)
Lemma handler_cache_policy {A : Type} (rest : list Recipe.t -> M A) (now : Z) (w : World) :
  (forall recipes, keepsCache (rest recipes)) ->
  let handler := bind (fetchRecipes client asRecipe now) rest in
  (forall data, cacheHit now w = Some data ->
     handler w = rest data w
     /\ recipeFetches (calls (snd (handler w))) = recipeFetches (calls w)
     /\ cacheOf (snd (handler w)) = cacheOf w)
  /\ (cacheHit now w = None -> initOk client w ->
      recipeFetches (calls (snd (handler w))) = S (recipeFetches (calls w))
      /\ forall response,
          Client.sendRequest_unknown client (ensured w ++ [MEALS_PLANNER_ROOT])
            = Returned response ->
          let recipes := map asRecipe (extractRecipes response) in
          handler w = rest recipes (refreshed w now recipes)
          /\ cacheOf (snd (handler w)) = (Some recipes, now)).
Proof.
  intros Hrest handler. split.
  - intros data Hhit.
    assert (handler w = rest data w) as Hrun.
    { unfold handler, bind. rewrite (fetchRecipes_fresh now w data Hhit). reflexivity. }
    rewrite Hrun. destruct (Hrest data w) as [Hcache Hfetches]. auto.
  - intros Hmiss Hok.
    assert (handler w =
            match Client.sendRequest_unknown client (ensured w ++ [MEALS_PLANNER_ROOT]) with
            | Returned response =>
                rest (map asRecipe (extractRecipes response))
                     (refreshed w now (map asRecipe (extractRecipes response)))
            | Thrown e => (Thrown e, logged (initialized w) (ensured w ++ [MEALS_PLANNER_ROOT]))
            end) as Hrun.
    { unfold handler, bind. rewrite (fetchRecipes_miss now w Hmiss Hok).
      destruct (Client.sendRequest_unknown client (ensured w ++ [MEALS_PLANNER_ROOT]));
        reflexivity. }
    rewrite Hrun.
    destruct (Client.sendRequest_unknown client (ensured w ++ [MEALS_PLANNER_ROOT]))
      as [response | e].
    + destruct (Hrest (map asRecipe (extractRecipes response))
                      (refreshed w now (map asRecipe (extractRecipes response))))
        as [Hcache Hfetches].
      split.
      * rewrite Hfetches. apply recipeFetches_refresh.
      * intros response' [= <-]. simpl. split; [reflexivity | exact Hcache].
    + split; [apply recipeFetches_refresh | discriminate].
Qed.

Lemma fetchRecipes_returned (now : Z) (w w1 : World) (recipes : list Recipe.t) :
  fetchRecipes client asRecipe now w = (Returned recipes, w1) ->
  (cacheHit now w = Some recipes /\ w1 = w)
  \/ (cacheHit now w = None /\ initOk client w
      /\ exists response,
          Client.sendRequest_unknown client (ensured w ++ [MEALS_PLANNER_ROOT])
            = Returned response
          /\ recipes = map asRecipe (extractRecipes response)
          /\ w1 = refreshed w now recipes).
Proof.
  intros Hrun. destruct (cacheHit now w) as [data | ] eqn:Hhit.
  - left. rewrite (fetchRecipes_fresh now w data Hhit) in Hrun.
    injection Hrun as <- <-. auto.
  - right. split; [reflexivity | ].
    assert (initOk client w) as Hok.
    { destruct (clientReady w) eqn:Hready; [left; exact Hready | ].
      destruct (Client.initialize client (calls w ++ [InitializePicnicClient]))
        as [[] | e] eqn:Hinit; [right; exact Hinit | exfalso].
      unfold fetchRecipes in Hrun. rewrite Hhit in Hrun. unfold bind at 1 in Hrun.
      rewrite (ensureClientInitialized_rejected w e Hready Hinit) in Hrun. discriminate. }
    split; [exact Hok | ].
    rewrite (fetchRecipes_miss now w Hhit Hok) in Hrun.
    destruct (Client.sendRequest_unknown client (ensured w ++ [MEALS_PLANNER_ROOT]))
      as [response | e]; [ | discriminate].
    exists response. simpl in Hrun. injection Hrun as <- <-. auto.
Qed.

(** C4. The cache is fresh exactly when it holds an entry whose timestamp
    is less than five minutes before [now].  On a fresh cache [fetchRecipes]
    and the three recipe handlers work from the cached list, fetch nothing
    and leave the cache as it is.  On a stale or absent cache, once the
    client is there, each of them issues exactly one fetch, and when the
    fetch is answered the cache holds the recipes found in the answer with
    timestamp [now], and the handler works from that list. *)
Theorem recipe_cache_policy (now : Z) (w : World) (recipe_id : string) (servings : option float) :
  let finals :=
    [snd (fetchRecipes client asRecipe now w);
     snd (picnic_get_recipes client asRecipe now w);
     snd (picnic_get_recipe_details client asRecipe now recipe_id w);
     snd (picnic_add_recipe_to_cart client asRecipe now recipe_id servings w)] in
  (forall data,
     cacheHit now w = Some data <->
     recipeCacheData w = Some data /\ (now - recipeCacheTimestamp w < 5 * 60 * 1000)%Z)
  /\ (forall data,
        recipeCacheData w = Some data ->
        (now - recipeCacheTimestamp w < 5 * 60 * 1000)%Z ->
        fetchRecipes client asRecipe now w = (Returned data, w)
        /\ picnic_get_recipes client asRecipe now w = listRecipes data w
        /\ picnic_get_recipe_details client asRecipe now recipe_id w
           = getRecipeDetails recipe_id data w
        /\ picnic_add_recipe_to_cart client asRecipe now recipe_id servings w
           = addRecipeToCart client recipe_id servings data w
        /\ forall w', In w' finals ->
             recipeFetches (calls w') = recipeFetches (calls w) /\ cacheOf w' = cacheOf w)
  /\ (recipeCacheData w = None \/ (5 * 60 * 1000 <= now - recipeCacheTimestamp w)%Z ->
      initOk client w ->
      (forall w', In w' finals -> recipeFetches (calls w') = S (recipeFetches (calls w)))
      /\ forall response,
          Client.sendRequest_unknown client (ensured w ++ [MEALS_PLANNER_ROOT])
            = Returned response ->
          let recipes := map asRecipe (extractRecipes response) in
          let w1 := refreshed w now recipes in
          fetchRecipes client asRecipe now w = (Returned recipes, w1)
          /\ picnic_get_recipes client asRecipe now w = listRecipes recipes w1
          /\ picnic_get_recipe_details client asRecipe now recipe_id w
             = getRecipeDetails recipe_id recipes w1
          /\ picnic_add_recipe_to_cart client asRecipe now recipe_id servings w
             = addRecipeToCart client recipe_id servings recipes w1
          /\ forall w', In w' finals -> cacheOf w' = (Some recipes, now)).
Proof.
  intros finals.
  pose proof (handler_cache_policy listRecipes now w keepsCache_listRecipes) as [Hf1 Hm1].
  pose proof (handler_cache_policy (getRecipeDetails recipe_id) now w
                (keepsCache_getRecipeDetails recipe_id)) as [Hf2 Hm2].
  pose proof (handler_cache_policy (addRecipeToCart client recipe_id servings) now w
                (keepsCache_addRecipeToCart recipe_id servings)) as [Hf3 Hm3].
  fold (picnic_get_recipes client asRecipe now) in Hf1, Hm1.
  fold (picnic_get_recipe_details client asRecipe now recipe_id) in Hf2, Hm2.
  fold (picnic_add_recipe_to_cart client asRecipe now recipe_id servings) in Hf3, Hm3.
  split; [apply cacheHit_iff | split].
  - intros data Hdata Hage.
    assert (cacheHit now w = Some data) as Hhit by (apply cacheHit_iff; auto).
    destruct (Hf1 data Hhit) as (E1 & F1 & C1).
    destruct (Hf2 data Hhit) as (E2 & F2 & C2).
    destruct (Hf3 data Hhit) as (E3 & F3 & C3).
    pose proof (fetchRecipes_fresh now w data Hhit) as E0.
    repeat (split; [assumption | ]).
    intros w' [<- | [<- | [<- | [<- | []]]]]; auto.
    rewrite E0. auto.
  - intros Hstale Hok.
    assert (cacheHit now w = None) as Hmiss by (apply cacheHit_none; exact Hstale).
    destruct (Hm1 Hmiss Hok) as [F1 R1].
    destruct (Hm2 Hmiss Hok) as [F2 R2].
    destruct (Hm3 Hmiss Hok) as [F3 R3].
    pose proof (fetchRecipes_miss now w Hmiss Hok) as E0.
    split.
    + intros w' [<- | [<- | [<- | [<- | []]]]]; auto.
      rewrite E0.
      destruct (Client.sendRequest_unknown client (ensured w ++ [MEALS_PLANNER_ROOT]));
        apply recipeFetches_refresh.
    + intros response Hresponse recipes w1.
      destruct (R1 response Hresponse) as [E1 C1].
      destruct (R2 response Hresponse) as [E2 C2].
      destruct (R3 response Hresponse) as [E3 C3].
      rewrite Hresponse in E0.
      repeat (split; [assumption | ]).
      intros w' [<- | [<- | [<- | [<- | []]]]]; auto.
      rewrite E0. reflexivity.
Qed.

Lemma findRecipe_absent (recipe_id : string) (recipes : list Recipe.t) :
  ~ In recipe_id (map Recipe.recipe_id recipes) -> findRecipe recipe_id recipes = None.
Proof.
  unfold findRecipe. induction recipes as [ | r rs IH]; simpl; intros Habsent.
  - reflexivity.
  - destruct (String.eqb_spec (Recipe.recipe_id r) recipe_id) as [Heq | _].
    + contradiction Habsent. left. exact Heq.
    + apply IH. intros Hin. apply Habsent. right. exact Hin.
Qed.

(** C7. When the recipes the handler works from (the cache once it has
    been made fresh) hold no recipe with the requested identifier,
    [picnic_get_recipe_details] and [picnic_add_recipe_to_cart] return, as a
    value, the error naming the requested identifier with the hint to use
    the listing operation, and no write call is made. *)
Theorem unknown_recipe_is_returned_as_not_found
    (now : Z) (w w1 : World) (recipe_id : string) (servings : option float)
    (recipes : list Recipe.t) :
  fetchRecipes client asRecipe now w = (Returned recipes, w1) ->
  ~ In recipe_id (map Recipe.recipe_id recipes) ->
  let answer :=
    {| NotFound.error := "Recipe '" ++ recipe_id ++ "' not found";
       NotFound.suggestion := "Use picnic_get_recipes to find valid recipe IDs." |} in
  picnic_get_recipe_details client asRecipe now recipe_id w = (Returned (inl answer), w1)
  /\ picnic_add_recipe_to_cart client asRecipe now recipe_id servings w
     = (Returned (inl answer), w1)
  /\ recipeCacheData w1 = Some recipes
  /\ writes (calls w1) = writes (calls w).
Proof.
  intros Hfetch Habsent answer.
  pose proof (findRecipe_absent recipe_id recipes Habsent) as Hfind.
  split; [ | split; [ | split]].
  - unfold picnic_get_recipe_details, bind, getRecipeDetails.
    rewrite Hfetch, Hfind. reflexivity.
  - unfold picnic_add_recipe_to_cart, bind, addRecipeToCart.
    rewrite Hfetch, Hfind. reflexivity.
  - destruct (fetchRecipes_returned now w w1 recipes Hfetch)
      as [[Hhit ->] | (_ & _ & response & _ & _ & ->)].
    + apply cacheHit_iff in Hhit. apply Hhit.
    + reflexivity.
  - destruct (fetchRecipes_returned now w w1 recipes Hfetch)
      as [[_ ->] | (_ & _ & response & _ & _ & ->)].
    + reflexivity.
    + simpl. rewrite writes_app, writes_ensured. apply app_nil_r.
Qed.

(** ** Adding a recipe to the cart *)

(** The quantity computed in the loop, at the scale the handler computes. *)
Lemma scaledQuantity_ordered (servings : float) (recipe : Recipe.t) (i : RecipeIngredient.t) :
  scaledQuantity (servings / Recipe.default_servings recipe) i
  = orderedQuantity servings recipe i.
Proof. reflexivity. Qed.

Lemma filter_classes (i : RecipeIngredient.t) :
  (RecipeIngredient.ingredient_type i =? "CUPBOARD") = isCupboard i
  /\ (if isCupboard i then true
      else negb (RecipeIngredient.availability_status i =? "AVAILABLE") || isOrdered i) = true
  /\ (isCupboard i = true -> isUnavailable i = false /\ isOrdered i = false)
  /\ (isCupboard i = false ->
      isUnavailable i = negb (RecipeIngredient.availability_status i =? "AVAILABLE")
      /\ isOrdered i = (RecipeIngredient.availability_status i =? "AVAILABLE")).
Proof.
  unfold isUnavailable, isOrdered, isCupboard.
  destruct (RecipeIngredient.ingredient_type i =? "CUPBOARD");
    destruct (RecipeIngredient.availability_status i =? "AVAILABLE"); simpl;
    repeat split; intros; try reflexivity; try discriminate.
Qed.

(** The loop when every add call is accepted. *)
Lemma addIngredients_accepted (scale : float) (quantity : RecipeIngredient.t -> float)
    (ingredients : list RecipeIngredient.t) :
  (forall i, scaledQuantity scale i = quantity i) ->
  (forall log, Client.addProductToShoppingCart client log = Returned tt) ->
  forall acc w,
    addIngredients client scale ingredients acc w =
    (Returned
       {| added := added acc ++ map (addedItem quantity) (filter isOrdered ingredients);
          skippedCupboard :=
            skippedCupboard acc ++ map RecipeIngredient.name (filter isCupboard ingredients);
          unavailable :=
            unavailable acc ++ map RecipeIngredient.name (filter isUnavailable ingredients) |},
     logged w (calls w ++ addCalls quantity ingredients)).
Proof.
  intros Hquantity Haccepted.
  induction ingredients as [ | i rest IH]; intros acc w.
  - simpl. unfold ret, addCalls. simpl. rewrite !app_nil_r, logged_calls.
    destruct acc; reflexivity.
  - destruct (filter_classes i) as (Htype & _ & Hcup & Hother).
    cbn [addIngredients]. rewrite Htype. unfold addCalls. cbn [filter].
    destruct (isCupboard i).
    + destruct (Hcup eq_refl) as [-> ->]. rewrite IH. cbn. rewrite <- !app_assoc. reflexivity.
    + destruct (Hother eq_refl) as [-> ->].
      destruct (RecipeIngredient.availability_status i =? "AVAILABLE"); cbn [negb].
      * rewrite bind_await, Haccepted, IH. cbn.
        fold (scaledQuantity scale i). rewrite Hquantity.
        unfold addCalls, addCall, addedItem. rewrite <- !app_assoc. reflexivity.
      * rewrite IH. cbn. rewrite <- !app_assoc. reflexivity.
Qed.

(** The loop when the add call of one ingredient is rejected: the loop
    stops there. *)
Lemma addIngredients_rejected (scale : float) (quantity : RecipeIngredient.t -> float)
    (i : RecipeIngredient.t) (after : list RecipeIngredient.t) (e : string)
    (before : list RecipeIngredient.t) :
  (forall x, scaledQuantity scale x = quantity x) ->
  isOrdered i = true ->
  forall acc w,
    (forall pre x post,
       before = pre ++ x :: post -> isOrdered x = true ->
       Client.addProductToShoppingCart client
         (calls w ++ addCalls quantity pre ++ [addCall quantity x]) = Returned tt) ->
    Client.addProductToShoppingCart client
      (calls w ++ addCalls quantity before ++ [addCall quantity i]) = Thrown e ->
    addIngredients client scale (before ++ i :: after) acc w =
    (Thrown e, logged w (calls w ++ addCalls quantity before ++ [addCall quantity i])).
Proof.
  intros Hquantity Hi.
  induction before as [ | x before IH]; intros acc w Hbefore Hrejected.
  - destruct (filter_classes i) as (Htype & _ & Hcup & Hother).
    cbn [app addIngredients]. rewrite Htype.
    destruct (isCupboard i); [destruct (Hcup eq_refl); congruence | ].
    destruct (Hother eq_refl) as [_ Havailable]. rewrite <- Havailable, Hi. cbn [negb].
    rewrite bind_await. fold (scaledQuantity scale i). rewrite Hquantity.
    fold (addCall quantity i).
    change (addCalls quantity [] ++ [addCall quantity i]) with [addCall quantity i] in *.
    rewrite Hrejected. reflexivity.
  - destruct (filter_classes x) as (Htype & _ & Hcup & Hother).
    cbn [app addIngredients]. rewrite Htype.
    assert (isOrdered x = false ->
            forall m acc',
              m = addIngredients client scale (before ++ i :: after) acc' ->
              m w = (Thrown e,
                     logged w (calls w ++ addCalls quantity (x :: before)
                                 ++ [addCall quantity i]))) as Hskip.
    { intros Hx m acc' ->.
      assert (forall l, addCalls quantity (x :: l) = addCalls quantity l) as Hcalls
        by (intros l; unfold addCalls; cbn [filter]; rewrite Hx; reflexivity).
      rewrite Hcalls. apply IH.
      - intros pre y post Hsplit Hy. rewrite <- (Hcalls pre).
        apply (Hbefore (x :: pre) y post); [rewrite Hsplit; reflexivity | exact Hy].
      - rewrite <- (Hcalls before). exact Hrejected. }
    destruct (isCupboard x).
    + destruct (Hcup eq_refl) as [_ Hx]. eapply Hskip; [exact Hx | reflexivity].
    + destruct (Hother eq_refl) as [_ Hx].
      destruct (RecipeIngredient.availability_status x =? "AVAILABLE"); cbn [negb].
      * assert (forall l, addCalls quantity (x :: l) = addCall quantity x :: addCalls quantity l)
          as Hcalls by (intros l; unfold addCalls; cbn [filter]; rewrite Hx; reflexivity).
        rewrite bind_await. fold (scaledQuantity scale x). rewrite Hquantity.
        fold (addCall quantity x).
        pose proof (Hbefore [] x before eq_refl Hx) as Hfirst.
        change (addCalls quantity [] ++ [addCall quantity x]) with [addCall quantity x]
          in Hfirst.
        rewrite Hfirst.
        rewrite IH with (w := logged w (calls w ++ [addCall quantity x])).
        -- cbn [calls logged]. rewrite Hcalls, <- !app_assoc. reflexivity.
        -- intros pre y post Hsplit Hy. cbn [calls logged].
           rewrite <- app_assoc.
           change ([addCall quantity x] ++ addCalls quantity pre ++ [addCall quantity y])
             with ((addCall quantity x :: addCalls quantity pre) ++ [addCall quantity y]).
           rewrite <- Hcalls.
           apply (Hbefore (x :: pre) y post); [rewrite Hsplit; reflexivity | exact Hy].
        -- cbn [calls logged]. rewrite <- app_assoc.
           change ([addCall quantity x] ++ addCalls quantity before ++ [addCall quantity i])
             with ((addCall quantity x :: addCalls quantity before) ++ [addCall quantity i]).
           rewrite <- Hcalls. exact Hrejected.
      * eapply Hskip; [exact Hx | reflexivity].
Qed.

Lemma add_recipe_runs_the_loop
    (now : Z) (w w1 : World) (recipe_id : string) (servings : option float)
    (recipes : list Recipe.t) (recipe : Recipe.t) :
  fetchRecipes client asRecipe now w = (Returned recipes, w1) ->
  findRecipe recipe_id recipes = Some recipe ->
  initOk client w1 ->
  let resolved := resolvedServings servings recipe in
  picnic_add_recipe_to_cart client asRecipe now recipe_id servings w =
  (lists <- addIngredients client (resolved / Recipe.default_servings recipe)
              (Recipe.ingredients recipe)
              {| added := []; skippedCupboard := []; unavailable := [] |} ;;
   ret (inr {| AddRecipeResult.recipe_name := Recipe.name recipe;
               AddRecipeResult.servings := resolved;
               AddRecipeResult.added := added lists;
               AddRecipeResult.skipped_cupboard := skippedCupboard lists;
               AddRecipeResult.unavailable := unavailable lists |})) (initialized w1).
Proof.
  intros Hfetch Hfind Hok resolved.
  unfold picnic_add_recipe_to_cart. unfold bind at 1. rewrite Hfetch.
  unfold addRecipeToCart. rewrite Hfind.
  rewrite (with_client _ w1 Hok). reflexivity.
Qed.

(** X10. For a recipe found in the cache, with the requested servings or
    else the recipe's own, and add calls that are accepted: the ingredients
    are processed in source order; the CUPBOARD ones go to the cupboard list
    and the remaining ones that are not AVAILABLE to the unavailable list,
    without a call; every other ingredient gets exactly one add call, with
    the quantity [Math.ceil(selling_unit_quantity * scale)], where [scale] is
    the double [servings / default_servings] and the product is a double
    too; and the result reports the recipe name, the servings, the added
    items with these quantities and both lists. *)
Theorem add_recipe_classifies_and_scales
    (now : Z) (w w1 : World) (recipe_id : string) (servings : option float)
    (recipes : list Recipe.t) (recipe : Recipe.t) :
  fetchRecipes client asRecipe now w = (Returned recipes, w1) ->
  findRecipe recipe_id recipes = Some recipe ->
  initOk client w1 ->
  (forall log, Client.addProductToShoppingCart client log = Returned tt) ->
  let resolved := resolvedServings servings recipe in
  let scale := (resolved / Recipe.default_servings recipe)%float in
  let quantity :=
    fun i => Math_ceil (RecipeIngredient.selling_unit_quantity i * scale)%float in
  let ingredients := Recipe.ingredients recipe in
  picnic_add_recipe_to_cart client asRecipe now recipe_id servings w =
    (Returned
       (inr {| AddRecipeResult.recipe_name := Recipe.name recipe;
               AddRecipeResult.servings := resolved;
               AddRecipeResult.added := map (addedItem quantity) (filter isOrdered ingredients);
               AddRecipeResult.skipped_cupboard :=
                 map RecipeIngredient.name (filter isCupboard ingredients);
               AddRecipeResult.unavailable :=
                 map RecipeIngredient.name (filter isUnavailable ingredients) |}),
     logged (initialized w1)
       (ensured w1
          ++ map (fun i => AddProductToShoppingCart (RecipeIngredient.selling_unit_id i)
                             (quantity i))
                 (filter isOrdered ingredients)))
  /\ (forall i, In i ingredients ->
        isCupboard i = true \/ isUnavailable i = true \/ isOrdered i = true)
  /\ (servings = None -> resolved = Recipe.default_servings recipe).
Proof.
  intros Hfetch Hfind Hok Haccepted resolved scale quantity ingredients.
  split; [ | split].
  - rewrite (add_recipe_runs_the_loop now w w1 recipe_id servings recipes recipe
               Hfetch Hfind Hok).
    fold resolved. unfold bind.
    rewrite (addIngredients_accepted _ quantity (Recipe.ingredients recipe)
               (fun _ => eq_refl) Haccepted).
    reflexivity.
  - intros i _. unfold isUnavailable, isOrdered.
    destruct (isCupboard i); destruct (RecipeIngredient.availability_status i =? "AVAILABLE");
      simpl; auto.
  - intros ->. reflexivity.
Qed.

(** C1, as the handler is written. The add call of an ingredient is awaited
    without a handler for its rejection: when the calls of the ingredients
    before it are accepted and its own call is rejected, the rejection
    leaves [picnic_add_recipe_to_cart] as a fault, the call that was rejected
    is the last one made, and no result is returned. *)
Theorem add_failure_aborts_the_recipe
    (now : Z) (w w1 : World) (recipe_id : string) (servings : option float)
    (recipes : list Recipe.t) (recipe : Recipe.t)
    (before : list RecipeIngredient.t) (i : RecipeIngredient.t)
    (after : list RecipeIngredient.t) (e : string) :
  fetchRecipes client asRecipe now w = (Returned recipes, w1) ->
  findRecipe recipe_id recipes = Some recipe ->
  initOk client w1 ->
  Recipe.ingredients recipe = before ++ i :: after ->
  let quantity := orderedQuantity (resolvedServings servings recipe) recipe in
  (forall pre x post,
     before = pre ++ x :: post -> isOrdered x = true ->
     Client.addProductToShoppingCart client
       (ensured w1 ++ addCalls quantity pre ++ [addCall quantity x]) = Returned tt) ->
  isOrdered i = true ->
  Client.addProductToShoppingCart client
    (ensured w1 ++ addCalls quantity before ++ [addCall quantity i]) = Thrown e ->
  picnic_add_recipe_to_cart client asRecipe now recipe_id servings w =
    (Thrown e,
     logged (initialized w1) (ensured w1 ++ addCalls quantity before ++ [addCall quantity i])).
Proof.
  intros Hfetch Hfind Hok Hsplit quantity Hbefore Hi Hrejected.
  rewrite (add_recipe_runs_the_loop now w w1 recipe_id servings recipes recipe
             Hfetch Hfind Hok).
  unfold bind. rewrite Hsplit.
  rewrite (addIngredients_rejected _ quantity i after e before
             (scaledQuantity_ordered (resolvedServings servings recipe) recipe) Hi
             _ (initialized w1) Hbefore Hrejected).
  reflexivity.
Qed.

End Effects.

(** * Termination of the tree search *)

Section GraphSearch.

Import Graph.

Lemma forEach_total (f : value -> list nat -> option (list nat)) (xs : list value) :
  (forall x, In x xs -> exists found, forall acc, f x acc = Some (acc ++ found)) ->
  exists found, forall acc, forEach f xs acc = Some (acc ++ found).
Proof.
  induction xs as [ | x xs IH]; intros Hxs.
  - exists []. intros acc. simpl. rewrite app_nil_r. reflexivity.
  - destruct (Hxs x (or_introl eq_refl)) as [fx Hfx].
    destruct IH as [frest Hfrest]; [intros y Hy; apply Hxs; right; exact Hy | ].
    exists (fx ++ frest). intros acc. simpl.
    rewrite Hfx, Hfrest, app_assoc. reflexivity.
Qed.

Lemma depthFor_positive (rank : nat -> nat) (v : value) : 1 <= depthFor rank v.
Proof. destruct v; simpl; lia. Qed.

Lemma recurse_total (h : heap) (rank : nat -> nat) :
  acyclic h rank ->
  forall stack node,
    depthFor rank node <= stack ->
    exists found, forall recipes, recurse stack h node recipes = Some (recipes ++ found).
Proof.
  intros Hacyclic. induction stack as [ | stack IH]; intros node Hdepth.
  - pose proof (depthFor_positive rank node). lia.
  - assert (forall a o, nth_error h a = Some o -> S (S (rank a)) <= S stack ->
            exists found,
              forall acc, forEach (recurse stack h) (fields o) acc = Some (acc ++ found))
      as Hfields.
    { intros a o Ho Ha. apply forEach_total. intros x Hx. apply IH.
      destruct x as [ | b | n | s | b]; simpl; try lia.
      pose proof (Hacyclic a o b Ho Hx). lia. }
    destruct node as [ | b | n | s | a]; simpl;
      try (exists []; intros recipes; rewrite app_nil_r; reflexivity).
    destruct (nth_error h a) as [[elements | rec] | ] eqn:Ha.
    + exact (Hfields a _ Ha Hdepth).
    + destruct (recipeShaped h rec).
      * exists [a]. reflexivity.
      * exact (Hfields a _ Ha Hdepth).
    + exists []. intros recipes. rewrite app_nil_r. reflexivity.
Qed.

Lemma forEach_exceeds (f : value -> list nat -> option (list nat)) (x : value)
    (xs : list value) :
  In x xs -> (forall acc, f x acc = None) -> forall acc, forEach f xs acc = None.
Proof.
  intros Hx Hf. induction xs as [ | y xs IH]; intros acc; [contradiction | ].
  simpl. destruct Hx as [-> | Hx].
  - rewrite Hf. reflexivity.
  - destruct (f y acc); [apply IH, Hx | reflexivity].
Qed.

(** On a reference cycle through objects that are descended into, no
    recursion depth suffices. *)
Lemma recurse_exceeds_on_cycle (h : heap) (on : nat -> Prop) :
  cyclic h on ->
  forall stack a, on a -> forall recipes, recurse stack h (VRef a) recipes = None.
Proof.
  intros Hcyclic. induction stack as [ | stack IH]; intros a Ha recipes; [reflexivity | ].
  destruct (Hcyclic a Ha) as (o & b & Ho & Hunmatched & Hb & Hon).
  simpl. rewrite Ho. destruct o as [elements | rec]; simpl in Hunmatched, Hb.
  - apply (forEach_exceeds _ (VRef b)); [exact Hb | apply IH, Hon].
  - destruct (recipeShaped h rec); [discriminate | ].
    apply (forEach_exceeds _ (VRef b)); [exact Hb | apply IH, Hon].
Qed.

Lemma selfReferring_cyclic : cyclic selfReferring (fun a => a = 0).
Proof.
  intros a ->. exists (OObj [("self", VRef 0)]), 0.
  repeat split; try reflexivity. left. reflexivity.
Qed.

(** C6 fails for the source: on an object that refers to itself no
    recursion depth suffices, so the traversal has no bound on its depth
    and no guard against revisiting an object. *)
Lemma self_reference_never_returns : ~ terminates selfReferring (VRef 0).
Proof.
  intros (stack & recipes & Hrun).
  rewrite (recurse_exceeds_on_cycle _ _ selfReferring_cyclic stack 0 eq_refl) in Hrun.
  discriminate.
Qed.

Lemma selfContaining_cyclic : cyclic Cases.selfContaining (fun a => a = 0).
Proof.
  intros a ->. exists (OArr [VRef 0]), 0.
  repeat split; try reflexivity. left. reflexivity.
Qed.

(** C5 fails for the source on value graphs that are not trees.  A recipe
    that an array holds twice is returned twice, at every recursion depth
    that suffices; and on an array that holds itself, where no node matches,
    no recursion depth suffices: the search does not return the empty
    sequence, it exhausts the stack. *)
Lemma search_on_graphs_repeats_and_diverges :
  (forall stack, 2 <= stack -> recurse stack Cases.sharedRecipe (VRef 0) [] = Some [1; 1])
  /\ ~ terminates Cases.selfContaining (VRef 0).
Proof.
  split.
  - intros [ | [ | stack]] Hstack; try lia. reflexivity.
  - intros (stack & recipes & Hrun).
    rewrite (recurse_exceeds_on_cycle _ _ selfContaining_cyclic stack 0 eq_refl) in Hrun.
    discriminate.
Qed.

(** ** The graph search on a tree is the tree search *)

Lemma allSome_Forall2 {A B : Type} (f : A -> option B) (xs : list A) :
  forall ys, allSome (map f xs) = Some ys <-> Forall2 (fun x y => f x = Some y) xs ys.
Proof.
  induction xs as [ | x xs IH]; intros ys; simpl.
  - split.
    + intros [= <-]. constructor.
    + intros H. inversion H. reflexivity.
  - destruct (f x) as [y | ] eqn:Hx.
    + destruct (allSome (map f xs)) as [ys' | ] eqn:Hxs; simpl.
      * split.
        -- intros [= <-]. constructor; [exact Hx | apply IH; reflexivity].
        -- intros H. inversion H as [ | x0 y0 xs0 ys0 Hy Hys]; subst.
           apply IH in Hys. congruence.
      * split; [discriminate | ].
        intros H. inversion H as [ | x0 y0 xs0 ys0 Hy Hys]; subst.
        apply IH in Hys. discriminate.
    + split; [discriminate | ].
      intros H. inversion H; subst. congruence.
Qed.

Lemma readback_ref (depth : nat) (h : heap) (a : nat) :
  readback (S depth) h (VRef a) =
  match nth_error h a with
  | Some (OArr elements) => option_map JArr (allSome (map (readback depth h) elements))
  | Some (OObj rec) =>
      option_map JObj
        (allSome (map (fun p => option_map (pair (fst p)) (readback depth h (snd p))) rec))
  | None => None
  end.
Proof. reflexivity. Qed.

Lemma readback_deeper (h : heap) :
  forall depth v j, readback depth h v = Some j -> readback (S depth) h v = Some j.
Proof.
  induction depth as [ | depth IH]; intros v j Hv.
  - destruct v; try exact Hv. discriminate.
  - destruct v as [ | b | n | s | a]; try exact Hv.
    rewrite readback_ref in Hv. rewrite readback_ref.
    destruct (nth_error h a) as [[elements | rec] | ]; [ | | discriminate].
    + destruct (allSome (map (readback depth h) elements)) as [js | ] eqn:Hjs;
        [ | discriminate].
      apply allSome_Forall2 in Hjs.
      assert (allSome (map (readback (S depth) h) elements) = Some js) as ->;
        [ | exact Hv].
      apply allSome_Forall2. revert Hjs. apply Forall2_impl. intros x y. apply IH.
    + destruct (allSome (map (fun p => option_map (pair (fst p)) (readback depth h (snd p)))
                             rec)) as [ps | ] eqn:Hps; [ | discriminate].
      apply allSome_Forall2 in Hps.
      assert (allSome (map (fun p => option_map (pair (fst p))
                                       (readback (S depth) h (snd p))) rec) = Some ps) as ->;
        [ | exact Hv].
      apply allSome_Forall2. revert Hps. apply Forall2_impl. intros p q Hpq.
      destruct (readback depth h (snd p)) as [j' | ] eqn:Hp; [ | discriminate].
      rewrite (IH _ _ Hp). exact Hpq.
Qed.

End GraphSearch.

Section GraphOnTrees.

Variable h : Graph.heap.

Lemma readsAs_inv (depth : nat) (p : string * Graph.value) (q : string * json) :
  Graph.readsAs h depth p q -> fst q = fst p /\ Graph.readback depth h (snd p) = Some (snd q).
Proof.
  unfold Graph.readsAs.
  destruct (Graph.readback depth h (snd p)) as [j | ]; simpl; [ | discriminate].
  intros [= <-]. split; reflexivity.
Qed.

Lemma getProperty_readback (depth : nat) (key : string)
    (rec : list (string * Graph.value)) (ps : list (string * json)) :
  Forall2 (Graph.readsAs h depth) rec ps ->
  match Graph.getProperty key rec, getProperty key ps with
  | Some v, Some j => Graph.readback depth h v = Some j
  | None, None => True
  | _, _ => False
  end.
Proof.
  induction 1 as [ | [k v] [k' j] rec ps Hpq Hrest IH]; simpl; [exact I | ].
  apply readsAs_inv in Hpq. simpl in Hpq. destruct Hpq as [-> Hv].
  destruct (k =? key); [exact Hv | exact IH].
Qed.

Lemma truthy_readback (depth : nat) (v : Graph.value) (j : json) :
  Graph.readback depth h v = Some j -> Graph.truthy v = truthy j.
Proof.
  destruct depth as [ | depth]; destruct v as [ | b | n | s | a];
    try (intros [= <-]; reflexivity); try discriminate.
  rewrite readback_ref.
  destruct (nth_error h a) as [[elements | rec] | ]; [ | | discriminate].
  - destruct (Graph.allSome _); [intros [= <-]; reflexivity | discriminate].
  - destruct (Graph.allSome _); [intros [= <-]; reflexivity | discriminate].
Qed.

Lemma isArray_readback (depth : nat) (v : Graph.value) (j : json) :
  Graph.readback depth h v = Some j -> Graph.isArray h (Some v) = isArray (Some j).
Proof.
  destruct depth as [ | depth]; destruct v as [ | b | n | s | a];
    try (intros [= <-]; reflexivity); try discriminate.
  rewrite readback_ref. unfold Graph.isArray.
  destruct (nth_error h a) as [[elements | rec] | ]; [ | | discriminate].
  - destruct (Graph.allSome _); [intros [= <-]; reflexivity | discriminate].
  - destruct (Graph.allSome _); [intros [= <-]; reflexivity | discriminate].
Qed.

(** The shape test on an object of the heap is the shape test on the
    object read back. *)
Lemma recipeShaped_readback (depth : nat)
    (rec : list (string * Graph.value)) (ps : list (string * json)) :
  Forall2 (Graph.readsAs h depth) rec ps -> Graph.recipeShaped h rec = recipeShaped ps.
Proof.
  intros Hps. unfold Graph.recipeShaped, recipeShaped, truthyOpt.
  pose proof (getProperty_readback depth "recipe_id" rec ps Hps) as Hid.
  pose proof (getProperty_readback depth "ingredients" rec ps Hps) as Hing.
  destruct (Graph.getProperty "recipe_id" rec) as [v | ];
    destruct (getProperty "recipe_id" ps) as [j | ]; try contradiction; [ | reflexivity].
  rewrite (truthy_readback depth v j Hid). f_equal.
  destruct (Graph.getProperty "ingredients" rec) as [v' | ];
    destruct (getProperty "ingredients" ps) as [j' | ]; try contradiction; [ | reflexivity].
  apply (isArray_readback depth v' j' Hing).
Qed.

Lemma forEach_on_trees (depth : nat) (xs : list Graph.value) (js : list json) :
  Forall2
    (fun x j =>
       exists found,
         (forall acc, Graph.recurse (S depth) h x acc = Some (acc ++ found))
         /\ Forall2 (fun a node => Graph.readback depth h (Graph.VRef a) = Some node)
              found (extractRecipes j))
    xs js ->
  exists found,
    (forall acc, Graph.forEach (Graph.recurse (S depth) h) xs acc = Some (acc ++ found))
    /\ Forall2 (fun a node => Graph.readback depth h (Graph.VRef a) = Some node)
         found (flat_map extractRecipes js).
Proof.
  induction 1 as [ | x j xs js (fx & Hrun & Hfx) Hrest (frest & Hruns & Hfrest)].
  - exists []. split; [ | constructor].
    intros acc. simpl. rewrite app_nil_r. reflexivity.
  - exists (fx ++ frest). split.
    + intros acc. cbn [Graph.forEach]. rewrite Hrun, Hruns, app_assoc. reflexivity.
    + simpl. apply Forall2_app; assumption.
Qed.

(** On a graph that reads back as a tree, the search on the graph returns,
    and what it collects reads back as what the search on the tree returns. *)
Lemma graph_search_on_tree :
  forall depth v j,
    Graph.readback depth h v = Some j ->
    exists found,
      (forall acc, Graph.recurse (S depth) h v acc = Some (acc ++ found))
      /\ Forall2 (fun a node => Graph.readback depth h (Graph.VRef a) = Some node)
           found (extractRecipes j).
Proof.
  assert (forall depth v j,
            (forall a, v <> Graph.VRef a) -> Graph.readback depth h v = Some j ->
            exists found,
              (forall acc, Graph.recurse (S depth) h v acc = Some (acc ++ found))
              /\ Forall2 (fun a node => Graph.readback depth h (Graph.VRef a) = Some node)
                   found (extractRecipes j)) as Hscalar.
  { intros depth v j Hv Hj. exists []. split.
    - intros acc. rewrite app_nil_r. destruct v; try reflexivity. contradiction (Hv address).
      reflexivity.
    - destruct depth; destruct v; try (injection Hj as <-; constructor);
        contradiction (Hv address); reflexivity. }
  induction depth as [ | depth IH]; intros v j Hj.
  - destruct v as [ | b | n | s | a];
      try (apply Hscalar; [intros a' Ha'; discriminate Ha' | exact Hj]).
    discriminate.
  - destruct v as [ | b | n | s | a];
      try (apply Hscalar; [intros a' Ha'; discriminate Ha' | exact Hj]).
    pose proof Hj as Hnode. rewrite readback_ref in Hj.
    assert (forall xs js,
              Forall2 (fun x j => Graph.readback depth h x = Some j) xs js ->
              exists found,
                (forall acc,
                   Graph.forEach (Graph.recurse (S depth) h) xs acc = Some (acc ++ found))
                /\ Forall2 (fun a node => Graph.readback (S depth) h (Graph.VRef a) = Some node)
                     found (flat_map extractRecipes js)) as Hchildren.
    { intros xs js Hxs.
      destruct (forEach_on_trees depth xs js) as (found & Hrun & Hfound).
      - revert Hxs. apply Forall2_impl. intros x y. apply IH.
      - exists found. split; [exact Hrun | ].
        revert Hfound. apply Forall2_impl. intros a' node. apply readback_deeper. }
    destruct (nth_error h a) as [[elements | rec] | ] eqn:Ha; [ | | discriminate].
    + destruct (Graph.allSome (map (Graph.readback depth h) elements)) as [js | ] eqn:Hjs;
        [ | discriminate].
      injection Hj as <-. apply allSome_Forall2 in Hjs.
      destruct (Hchildren elements js Hjs) as (found & Hrun & Hfound).
      exists found. split.
      * intros acc. cbn [Graph.recurse]. rewrite Ha. apply Hrun.
      * rewrite extractRecipes_unfold. exact Hfound.
    + destruct (Graph.allSome _) as [ps | ] eqn:Hps; [ | discriminate].
      injection Hj as <-. apply allSome_Forall2 in Hps. change (Forall2 (Graph.readsAs h depth) rec ps) in Hps.
      pose proof (recipeShaped_readback depth rec ps Hps) as Hshape.
      rewrite extractRecipes_unfold. cbn [matches children].
      destruct (recipeShaped ps) eqn:Hmatch.
      * exists [a]. split.
        -- intros acc. cbn [Graph.recurse]. rewrite Ha, Hshape. reflexivity.
        -- constructor; [exact Hnode | constructor].
      * destruct (Hchildren (map snd rec) (map snd ps)) as (found & Hrun & Hfound).
        -- clear -Hps. induction Hps as [ | p q rec ps Hpq Hrest IHps]; simpl;
             constructor; [apply (readsAs_inv depth p q Hpq) | exact IHps].
        -- exists found. split; [ | exact Hfound].
           intros acc. cbn [Graph.recurse]. rewrite Ha, Hshape. apply Hrun.
Qed.

End GraphOnTrees.

Section GraphTermination.

Import Graph.

(** C6, as the function is written. [recurse] keeps no depth bound and no
    set of visited objects.  On a payload without reference cycles it
    returns, the recursion being as deep as the payload is nested (the rank
    of the root plus two activations); so it does on every payload that is a
    tree, where it finds what the search on the tree finds.  On a reference
    cycle through objects that are not recipe-shaped it exceeds every
    depth. *)
Theorem recurse_returns_on_acyclic_payloads (h : heap) (rank : nat -> nat) (node : value) :
  acyclic h rank ->
  (forall stack, depthFor rank node <= stack ->
     exists found, forall recipes, recurse stack h node recipes = Some (recipes ++ found))
  /\ terminates h node
  /\ (forall depth h' v j,
        readback depth h' v = Some j ->
        exists found,
          recurse (S depth) h' v [] = Some found
          /\ Forall2 (fun a matched => readback depth h' (VRef a) = Some matched)
               found (extractRecipes j))
  /\ (forall h' on a, cyclic h' on -> on a ->
        forall stack recipes, recurse stack h' (VRef a) recipes = None).
Proof.
  intros Hacyclic. split; [ | split; [ | split]].
  - intros stack. apply (recurse_total h rank Hacyclic).
  - destruct (recurse_total h rank Hacyclic (depthFor rank node) node (le_n _))
      as [found Hfound].
    exists (depthFor rank node), found. apply (Hfound []).
  - intros depth h' v j Hj.
    destruct (graph_search_on_tree h' depth v j Hj) as (found & Hrun & Hfound).
    exists found. split; [apply (Hrun []) | exact Hfound].
  - intros h' on a Hcyclic Ha stack recipes.
    apply (recurse_exceeds_on_cycle h' on Hcyclic stack a Ha).
Qed.

End GraphTermination.



(** * Concrete runs *)

Section Runs.

Import Example.

(** The page of the example holds the recipes r1 and r2: the recipe nested
    in r1 and the object with an empty identifier are not returned. *)
Example extractRecipes_page :
  map Recipe.recipe_id (map readRecipe (extractRecipes page)) = ["r1"; "r2"]
  /\ recipePaths page = [[1; 0]; [1; 2; 0]].
Proof. split; reflexivity. Qed.

(** Three listings from a process that has just started: the first fetches,
    the second falls in the freshness window, the third comes five minutes
    after the first and fetches again. *)
Example one_fetch_per_window :
  let w1 := snd (picnic_get_recipes shop readRecipe 1000 initialWorld) in
  let w2 := snd (picnic_get_recipes shop readRecipe 2000 w1) in
  let w3 := snd (picnic_get_recipes shop readRecipe 301000 w2) in
  (recipeFetches (calls w1), recipeFetches (calls w2), recipeFetches (calls w3)) = (1, 1, 2).
Proof. reflexivity. Qed.

(** The example of the specification: 23 results, pages of 10. *)
Lemma pagination_witness :
  (exists r,
     fst (picnic_search shop "melk" 10 10 initialWorld) = Returned r
     /\ List.length (SearchResult.results r) = 10
     /\ Pagination.hasMore (SearchResult.pagination r) = true)
  /\ (exists r,
        fst (picnic_get_deliveries shop [] 10 20 initialWorld) = Returned r
        /\ List.length (DeliveriesResult.deliveries r) = 3
        /\ Pagination.hasMore (DeliveriesResult.pagination r) = false).
Proof.
  split.
  - destruct (pagination_slices_and_reports_hasMore shop 10 10 "melk" [] products deliveries
                initialWorld) as (Hsearch & _); try reflexivity; try lia.
    + right. reflexivity.
    + eexists. split; [exact Hsearch | split; reflexivity].
  - destruct (pagination_slices_and_reports_hasMore shop 20 10 "melk" [] products deliveries
                initialWorld) as (_ & Hdeliveries & _); try reflexivity; try lia.
    + right. reflexivity.
    + eexists. split; [exact Hdeliveries | split; reflexivity].
Defined.

Lemma checkout_fails_safely_witness :
  fst (picnic_checkout (client accepting cartWithoutTokens started confirmed) initialWorld)
    = Returned (CheckoutError NO_TOKENS None)
  /\ picnic_checkout (client accepting cartWithoutSlot started confirmed) initialWorld
     = (Returned (CheckoutError NO_SLOT None),
        logged (initialized initialWorld) [InitializePicnicClient; GetShoppingCart])
  /\ picnic_checkout (client accepting validCart notStarted confirmed) initialWorld
     = (Returned (CheckoutError NO_ORDER_ID (Some notStarted)),
        logged (initialized initialWorld)
          [InitializePicnicClient; GetShoppingCart;
           SendRequest "POST" START_PATH (checkoutBody 1712 "token") None]).
Proof.
  split; [ | split].
  - destruct (checkout_fails_safely (client accepting cartWithoutTokens started confirmed)
                initialWorld cartWithoutTokens (or_intror eq_refl) eq_refl)
      as (Htokens & _).
    rewrite (Htokens (or_introl eq_refl)). reflexivity.
  - destruct (checkout_fails_safely (client accepting cartWithoutSlot started confirmed)
                initialWorld cartWithoutSlot (or_intror eq_refl) eq_refl)
      as (_ & Hslot & _).
    destruct (Hslot eq_refl) as (message & Hrun & _ & Hmessage).
    rewrite Hrun, Hmessage; [reflexivity | discriminate | discriminate].
  - destruct (checkout_fails_safely (client accepting validCart notStarted confirmed)
                initialWorld validCart (or_intror eq_refl) eq_refl)
      as (_ & _ & _ & Hstart).
    exact (Hstart "token" 1712%Q "slot-1" notStarted eq_refl eq_refl eq_refl eq_refl eq_refl).
Defined.

Lemma checkout_token_test_witness :
  picnic_checkout (client accepting cartWithZeroMts started confirmed) initialWorld
  = (Returned (CheckoutError "Cart has no state_token or mts — is the cart empty?" None),
     logged (initialized initialWorld) [InitializePicnicClient; GetShoppingCart]).
Proof.
  apply (checkout_token_test_is_truthiness
           (client accepting cartWithZeroMts started confirmed) initialWorld cartWithZeroMts
           (or_intror eq_refl) eq_refl).
  right. left. exists 0%Q. split; reflexivity.
Defined.

(** The happy path of the specification. *)
Lemma checkout_reports_confirmation_witness :
  fst (picnic_checkout shop initialWorld)
  = Returned
      (CheckoutDone
         {| CheckoutConfirmed.order_id := Some "O1";
            CheckoutConfirmed.total_price := Some (47 # 2)%Q;
            CheckoutConfirmed.total_count := Some 7%Q;
            CheckoutConfirmed.delivery_window :=
              Some {| DeliveryWindow.start := Some "2024-01-01 10:00";
                      DeliveryWindow.end_ := Some "2024-01-01 11:00" |} |}).
Proof.
  destruct (checkout_reports_confirmation shop initialWorld validCart "token" 1712%Q "slot-1"
              started "O1" page confirmed
              (or_intror eq_refl) eq_refl eq_refl eq_refl eq_refl eq_refl eq_refl eq_refl
              eq_refl) as (Hrun & _).
  rewrite Hrun. reflexivity.
Defined.

Lemma recipe_cache_policy_witness :
  recipeFetches (calls (snd (picnic_get_recipes shop readRecipe 300999 cached))) = 0
  /\ recipeFetches (calls (snd (picnic_get_recipes shop readRecipe 301000 cached))) = 1
  /\ cacheOf (snd (picnic_get_recipes shop readRecipe 301000 cached))
     = (Some (map readRecipe (extractRecipes page)), 301000%Z).
Proof.
  split; [ | split].
  - destruct (recipe_cache_policy shop readRecipe 300999 cached "r1" None)
      as (_ & Hfresh & _).
    destruct (Hfresh _ eq_refl eq_refl) as (_ & _ & _ & _ & Hfinal).
    apply (Hfinal _ (or_intror (or_introl eq_refl))).
  - destruct (recipe_cache_policy shop readRecipe 301000 cached "r1" None)
      as (_ & _ & Hstale).
    destruct (Hstale (or_intror (Z.le_refl _)) (or_introl eq_refl)) as (Hone & _).
    apply (Hone _ (or_intror (or_introl eq_refl))).
  - destruct (recipe_cache_policy shop readRecipe 301000 cached "r1" None)
      as (_ & _ & Hstale).
    destruct (Hstale (or_intror (Z.le_refl _)) (or_introl eq_refl)) as (_ & Hreplaced).
    destruct (Hreplaced page eq_refl) as (_ & _ & _ & _ & Hfinal).
    apply (Hfinal _ (or_intror (or_introl eq_refl))).
Defined.

Lemma unknown_recipe_witness :
  picnic_get_recipe_details shop readRecipe 2000 "r7" cached
  = (Returned
       (inl {| NotFound.error := "Recipe 'r7' not found";
               NotFound.suggestion := "Use picnic_get_recipes to find valid recipe IDs." |}),
     cached).
Proof.
  apply (unknown_recipe_is_returned_as_not_found shop readRecipe 2000 cached cached "r7" None
           [pomodoro; seasoning] eq_refl).
  simpl. intros [H | [H | []]]; discriminate.
Defined.

(** The examples of the specification: quantity 3 at 2 default servings
    gives 6 at 4 servings; a recipe of a cupboard ingredient and an
    ingredient out of stock gives no add call. *)
Lemma add_recipe_classifies_witness :
  picnic_add_recipe_to_cart shop readRecipe 2000 "r1" (Some 4%float) cached
  = (Returned
       (inr {| AddRecipeResult.recipe_name := "Pasta pomodoro";
               AddRecipeResult.servings := 4;
               AddRecipeResult.added :=
                 [{| AddedItem.name := "Pasta"; AddedItem.quantity := 6 |};
                  {| AddedItem.name := "Tomatoes"; AddedItem.quantity := 3 |};
                  {| AddedItem.name := "Cheese"; AddedItem.quantity := 2 |}];
               AddRecipeResult.skipped_cupboard := ["Salt"];
               AddRecipeResult.unavailable := ["Basil"] |}),
     logged cached
       [AddProductToShoppingCart "s-pasta" 6; AddProductToShoppingCart "s-tomatoes" 3;
        AddProductToShoppingCart "s-cheese" 2])
  /\ picnic_add_recipe_to_cart shop readRecipe 2000 "r2" None cached
     = (Returned
          (inr {| AddRecipeResult.recipe_name := "Seasoning";
                  AddRecipeResult.servings := 2;
                  AddRecipeResult.added := [];
                  AddRecipeResult.skipped_cupboard := ["Salt"];
                  AddRecipeResult.unavailable := ["Basil"] |}),
        cached).
Proof.
  split.
  - exact (proj1 (add_recipe_classifies_and_scales shop readRecipe 2000 cached cached "r1"
                    (Some 4%float) [pomodoro; seasoning] pomodoro eq_refl eq_refl
                    (or_introl eq_refl) (fun _ => eq_refl))).
  - exact (proj1 (add_recipe_classifies_and_scales shop readRecipe 2000 cached cached "r2"
                    None [pomodoro; seasoning] seasoning eq_refl eq_refl
                    (or_introl eq_refl) (fun _ => eq_refl))).
Defined.

(** C3 fails for the source: for 27 selling units at 7 servings of a recipe
    of 3 default servings the handler divides first; the double 7 / 3 is
    2.3333333333333335, its product with 27 is the double 63.00000000000001,
    and [Math.ceil] makes it 64.  The ceiling of 27 x 7 / 3 is 63. *)
Theorem scaled_quantity_exceeds_the_ceiling :
  picnic_add_recipe_to_cart shop readRecipe 2000 "r3" (Some 7%float) Cases.pantry
  = (Returned
       (inr {| AddRecipeResult.recipe_name := "Risotto";
               AddRecipeResult.servings := 7;
               AddRecipeResult.added :=
                 [{| AddedItem.name := "Rice"; AddedItem.quantity := 64 |}];
               AddRecipeResult.skipped_cupboard := [];
               AddRecipeResult.unavailable := [] |}),
     logged Cases.pantry [AddProductToShoppingCart "s-rice" 64])
  /\ (7 / 3)%float = 0x1.2aaaaaaaaaaabp+1%float
  /\ (27 * (7 / 3))%float = 0x1.f800000000001p+5%float
  /\ valueOf (orderedQuantity 7 Cases.risotto Cases.rice) = Some 64%Q
  /\ claimedQuantity 7 Cases.risotto Cases.rice = Some 63%Z.
Proof. repeat split. Qed.

(** C1 fails for the source: the add call for the tomatoes is rejected
    after the pasta has been added; the handler ends in that fault, the
    cheese is never attempted and no result is returned. *)
Lemma rejected_add_is_not_caught :
  picnic_add_recipe_to_cart (client (rejecting "s-tomatoes") validCart started confirmed)
    readRecipe 2000 "r1" None cached
  = (Thrown "Product is not available",
     logged cached
       [AddProductToShoppingCart "s-pasta" 3; AddProductToShoppingCart "s-tomatoes" 2]).
Proof. reflexivity. Qed.

Lemma add_failure_witness :
  fst (picnic_add_recipe_to_cart (client (rejecting "s-tomatoes") validCart started confirmed)
         readRecipe 2000 "r1" None cached)
  = Thrown "Product is not available".
Proof.
  rewrite (add_failure_aborts_the_recipe
             (client (rejecting "s-tomatoes") validCart started confirmed)
             readRecipe 2000 cached cached "r1" None [pomodoro; seasoning] pomodoro
             [salt; basil; pasta] tomatoes [cheese] "Product is not available"
             eq_refl eq_refl (or_introl eq_refl) eq_refl).
  - reflexivity.
  - intros pre x post Hsplit Hx.
    assert (In x [salt; basil; pasta]) as Hin
      by (rewrite Hsplit; apply in_elt).
    rewrite app_assoc. unfold client, rejecting. cbn [Client.addProductToShoppingCart].
    rewrite last_last.
    destruct Hin as [<- | [<- | [<- | []]]]; try discriminate Hx. reflexivity.
  - reflexivity.
  - reflexivity.
Defined.

Lemma example_heap_acyclic : Graph.acyclic heap rank.
Proof.
  intros a o b Ha Hin. unfold heap in Ha.
  do 4 (destruct a as [ | a];
        [ injection Ha as <-; simpl in Hin;
          repeat (destruct Hin as [Hin | Hin];
                  [ try discriminate Hin; injection Hin as <-; unfold rank; simpl; lia | ]);
          contradiction
        | simpl in Ha ]).
  destruct a; discriminate.
Defined.

Lemma recurse_returns_witness :
  Graph.terminates heap (Graph.VRef 0)
  /\ Graph.recurse 5 heap (Graph.VRef 0) [] = Some [2].
Proof.
  split; [ | reflexivity].
  apply (recurse_returns_on_acyclic_payloads heap rank (Graph.VRef 0) example_heap_acyclic).
Defined.

End Runs.

(** * Further properties of the checkout *)

Section CheckoutDiscipline.

Variable client : Client.t.

Lemma ensured_initCalls (w : World) : ensured w = calls w ++ initCalls w.
Proof.
  unfold ensured, initCalls. destruct (clientReady w); [ | reflexivity].
  symmetry. apply app_nil_r.
Qed.

(** [ensureClientInitialized] either leaves the initialised world or fails
    on the initialisation call. *)
Lemma ensureClientInitialized_cases (w : World) :
  ensureClientInitialized client w = (Returned tt, initialized w)
  \/ exists e,
       clientReady w = false
       /\ Client.initialize client (calls w ++ [InitializePicnicClient]) = Thrown e
       /\ ensureClientInitialized client w
          = (Thrown e, logged w (calls w ++ [InitializePicnicClient])).
Proof.
  destruct (clientReady w) eqn:Hready.
  - left. apply ensureClientInitialized_ok. left. exact Hready.
  - destruct (Client.initialize client (calls w ++ [InitializePicnicClient]))
      as [[] | e] eqn:Hinit.
    + left. apply ensureClientInitialized_ok. right. exact Hinit.
    + right. exists e. repeat split; try assumption.
      apply ensureClientInitialized_rejected; assumption.
Qed.

Lemma with_client_rejected {B : Type} (k : M B) (w : World) (e : string) :
  ensureClientInitialized client w = (Thrown e, logged w (calls w ++ [InitializePicnicClient])) ->
  bind (ensureClientInitialized client) (fun _ => bind getPicnicClient (fun _ => k)) w
  = (Thrown e, logged w (calls w ++ [InitializePicnicClient])).
Proof. intros Hrun. unfold bind at 1. rewrite Hrun. reflexivity. Qed.

(** X1. Whatever the collaborator answers, the calls [picnic_checkout] makes
    after the client initialisation are an initial part of: cart read, start
    call, payment call, confirm call.  The start call is made only for a cart
    with truthy tokens and slot and carries these tokens; the payment call
    only after a start reply with a truthy order id, which it names; the
    confirm call only after the payment call was accepted; and a confirmed
    order is returned only after all four calls were answered. *)
Theorem checkout_call_discipline (w : World) :
  let before := calls w ++ initCalls w in
  exists n mts state_token orderId,
    let sequence := checkoutSequence mts state_token orderId in
    n <= 4
    /\ calls (snd (picnic_checkout client w)) = before ++ firstn n sequence
    /\ (2 <= n ->
        exists cart slot,
          Client.getShoppingCart client (before ++ firstn 1 sequence) = Returned cart
          /\ truthyString (Cart.state_token cart) = Some state_token
          /\ truthyNumber (Cart.mts cart) = Some mts
          /\ truthyString (selectedSlotId cart) = Some slot)
    /\ (3 <= n ->
        exists startResult,
          Client.sendRequest_start client (before ++ firstn 2 sequence) = Returned startResult
          /\ truthyString (StartResult.order_id startResult) = Some orderId)
    /\ (4 <= n ->
        exists reply,
          Client.sendRequest_unknown client (before ++ firstn 3 sequence) = Returned reply)
    /\ (forall order,
          fst (picnic_checkout client w) = Returned (CheckoutDone order) ->
          n = 4
          /\ exists confirmResult,
               Client.sendRequest_confirm client (before ++ sequence) = Returned confirmResult
               /\ CheckoutConfirmed.order_id order = ConfirmResult.order_id confirmResult).
Proof.
  intros before.
  remember (picnic_checkout client w) as run eqn:Hrun.
  destruct (ensureClientInitialized_cases w) as [Hinit | (e & Hready & _ & Hinit)].
  2: { exists 0, 0%Q, "", "". cbv zeta. unfold picnic_checkout in Hrun.
       rewrite (with_client_rejected _ w e Hinit) in Hrun. rewrite Hrun.
       unfold before, initCalls. rewrite Hready. simpl. rewrite app_nil_r.
       repeat split; intros; try lia; try discriminate. }
  assert (calls (initialized w) = before) as Hlog by apply ensured_initCalls.
  unfold picnic_checkout in Hrun. unfold bind at 1 in Hrun. rewrite Hinit in Hrun.
  change (bind getPicnicClient ?k (initialized w)) with (k tt (initialized w)) in Hrun.
  cbv beta in Hrun. rewrite bind_await, Hlog in Hrun.
  destruct (Client.getShoppingCart client (before ++ [GetShoppingCart])) as [cart | e] eqn:Hcart.
  2: { exists 1, 0%Q, "", "". cbv zeta. rewrite Hrun. simpl.
       repeat split; intros; try lia; try discriminate. }
  destruct (truthyString (Cart.state_token cart)) as [state_token | ] eqn:Hst.
  2: { exists 1, 0%Q, "", "". cbv zeta. rewrite Hrun. simpl.
       repeat split; intros; try lia; try discriminate. }
  destruct (truthyNumber (Cart.mts cart)) as [mts | ] eqn:Hmts.
  2: { exists 1, 0%Q, "", "". cbv zeta. rewrite Hrun. simpl.
       repeat split; intros; try lia; try discriminate. }
  destruct (truthyString (selectedSlotId cart)) as [slot | ] eqn:Hslot.
  2: { exists 1, 0%Q, "", "". cbv zeta. rewrite Hrun. simpl.
       repeat split; intros; try lia; try discriminate. }
  assert (exists cart' slot',
            Client.getShoppingCart client (before ++ [GetShoppingCart]) = Returned cart'
            /\ truthyString (Cart.state_token cart') = Some state_token
            /\ truthyNumber (Cart.mts cart') = Some mts
            /\ truthyString (selectedSlotId cart') = Some slot') as Hread
    by (exists cart, slot; auto).
  rewrite bind_await in Hrun. simpl calls in Hrun. rewrite <- app_assoc in Hrun.
  simpl app in Hrun. fold (startCall mts state_token) in Hrun.
  destruct (Client.sendRequest_start client (before ++ [GetShoppingCart; startCall mts state_token]))
    as [startResult | e] eqn:Hstart.
  2: { exists 2, mts, state_token, "". cbv zeta. rewrite Hrun. simpl.
       repeat split; intros; try lia; try discriminate; assumption. }
  destruct (truthyString (StartResult.order_id startResult)) as [orderId | ] eqn:Hid.
  2: { exists 2, mts, state_token, "". cbv zeta. rewrite Hrun. simpl.
       repeat split; intros; try lia; try discriminate; assumption. }
  assert (exists startResult',
            Client.sendRequest_start client
              (before ++ [GetShoppingCart; startCall mts state_token]) = Returned startResult'
            /\ truthyString (StartResult.order_id startResult') = Some orderId) as Hstarted
    by (exists startResult; auto).
  rewrite bind_await in Hrun. simpl calls in Hrun. rewrite <- app_assoc in Hrun.
  simpl app in Hrun. fold (payCall orderId) in Hrun.
  destruct (Client.sendRequest_unknown client
              (before ++ [GetShoppingCart; startCall mts state_token; payCall orderId]))
    as [reply | e] eqn:Hpay.
  2: { exists 3, mts, state_token, orderId. cbv zeta. rewrite Hrun. simpl.
       repeat split; intros; try lia; try discriminate; assumption. }
  rewrite bind_await in Hrun. simpl calls in Hrun. rewrite <- app_assoc in Hrun.
  simpl app in Hrun. fold (confirmCall orderId) in Hrun.
  destruct (Client.sendRequest_confirm client
              (before ++ [GetShoppingCart; startCall mts state_token; payCall orderId;
                          confirmCall orderId]))
    as [confirmResult | e] eqn:Hconfirm.
  - exists 4, mts, state_token, orderId. cbv zeta. rewrite Hrun. simpl.
    repeat split; intros; try lia; try assumption.
    + exists reply. exact Hpay.
    + exists confirmResult. split; [exact Hconfirm | ].
      match goal with H : Returned _ = Returned _ |- _ => injection H as <- end.
      reflexivity.
  - exists 4, mts, state_token, orderId. cbv zeta. rewrite Hrun. simpl.
    repeat split; intros; try lia; try discriminate; try assumption.
    exists reply. exact Hpay.
Qed.

End CheckoutDiscipline.

Section CheckoutFaults.

Variable client : Client.t.

(** X2. A rejected call is fatal to the checkout: when the cart read, the
    start call, the payment call or the confirm call is rejected,
    [picnic_checkout] fails with exactly that error and the rejected call is
    the last call made; in particular a rejected payment call is followed by
    no confirm call, and nothing is retried. *)
Theorem checkout_rejection_is_fatal (w : World) (e : string) :
  initOk client w ->
  let log := ensured w in
  (Client.getShoppingCart client (log ++ [GetShoppingCart]) = Thrown e ->
   picnic_checkout client w = (Thrown e, logged (initialized w) (log ++ [GetShoppingCart])))
  /\ forall cart state_token mts slot,
       Client.getShoppingCart client (log ++ [GetShoppingCart]) = Returned cart ->
       truthyString (Cart.state_token cart) = Some state_token ->
       truthyNumber (Cart.mts cart) = Some mts ->
       truthyString (selectedSlotId cart) = Some slot ->
       let start := startCall mts state_token in
       (Client.sendRequest_start client (log ++ [GetShoppingCart; start]) = Thrown e ->
        picnic_checkout client w
        = (Thrown e, logged (initialized w) (log ++ [GetShoppingCart; start])))
       /\ forall startResult orderId,
            Client.sendRequest_start client (log ++ [GetShoppingCart; start])
              = Returned startResult ->
            truthyString (StartResult.order_id startResult) = Some orderId ->
            let pay := payCall orderId in
            let confirm := confirmCall orderId in
            (Client.sendRequest_unknown client (log ++ [GetShoppingCart; start; pay])
               = Thrown e ->
             picnic_checkout client w
             = (Thrown e, logged (initialized w) (log ++ [GetShoppingCart; start; pay])))
            /\ forall reply,
                 Client.sendRequest_unknown client (log ++ [GetShoppingCart; start; pay])
                   = Returned reply ->
                 Client.sendRequest_confirm client
                   (log ++ [GetShoppingCart; start; pay; confirm]) = Thrown e ->
                 picnic_checkout client w
                 = (Thrown e,
                    logged (initialized w) (log ++ [GetShoppingCart; start; pay; confirm])).
Proof.
  intros Hok log. split.
  - intros Hcart. unfold picnic_checkout.
    rewrite (with_client client _ w Hok), bind_await.
    change (calls (initialized w)) with log. rewrite Hcart. reflexivity.
  - intros cart state_token mts slot Hcart Hst Hmts Hslot start.
    pose proof (checkout_reads_cart client w cart Hok Hcart) as Hrun.
    rewrite Hst, Hmts, Hslot, bind_await in Hrun.
    simpl calls in Hrun. fold log in Hrun. rewrite <- app_assoc in Hrun.
    simpl app in Hrun. fold (startCall mts state_token) in Hrun. fold start in Hrun.
    split.
    + intros Hstart. rewrite Hrun, Hstart. reflexivity.
    + intros startResult orderId Hstart Hid pay confirm.
      rewrite Hstart, Hid, bind_await in Hrun.
      simpl calls in Hrun. rewrite <- app_assoc in Hrun. simpl app in Hrun.
      fold (payCall orderId) in Hrun. fold pay in Hrun.
      split.
      * intros Hpay. rewrite Hrun, Hpay. reflexivity.
      * intros reply Hpay Hconfirm.
        rewrite Hpay, bind_await in Hrun.
        simpl calls in Hrun. rewrite <- app_assoc in Hrun. simpl app in Hrun.
        fold (confirmCall orderId) in Hrun. fold confirm in Hrun.
        rewrite Hrun, Hconfirm. reflexivity.
Qed.

End CheckoutFaults.

(** * Further properties of the client handling and of the cache *)

Section Frames.

Variable client : Client.t.
Variable asRecipe : json -> Recipe.t.

Lemma keepsClient_ret {A : Type} (a : A) : keepsClient (ret a).
Proof. intros w Hready. split; [exact Hready | reflexivity]. Qed.

Lemma keepsClient_bind {A B : Type} (m : M A) (k : A -> M B) :
  keepsClient m -> (forall a, keepsClient (k a)) -> keepsClient (bind m k).
Proof.
  intros Hm Hk w Hready. unfold bind. specialize (Hm w Hready).
  destruct (m w) as [[a | e] w']; simpl in Hm; [ | exact Hm].
  destruct Hm as [Hready' Hcount]. destruct (Hk a w' Hready') as [H1 H2].
  split; congruence.
Qed.

Lemma initialisations_app (l1 l2 : list Call) :
  initialisations (l1 ++ l2) = initialisations l1 + initialisations l2.
Proof. unfold initialisations. rewrite filter_app. apply length_app. Qed.

Lemma keepsClient_await {A : Type} (c : Call) (answer : list Call -> outcome A) :
  c <> InitializePicnicClient -> keepsClient (await c answer).
Proof.
  intros Hc w Hready. unfold await. simpl. split; [exact Hready | ].
  rewrite initialisations_app. unfold initialisations at 2.
  destruct c; try contradiction; simpl; lia.
Qed.

Lemma keepsClient_getPicnicClient : keepsClient getPicnicClient.
Proof.
  intros w Hready. unfold getPicnicClient. rewrite Hready. split; [exact Hready | reflexivity].
Qed.

Lemma keepsClient_ensureClientInitialized : keepsClient (ensureClientInitialized client).
Proof.
  intros w Hready. unfold ensureClientInitialized, tryCatch, getPicnicClient.
  rewrite Hready. split; [exact Hready | reflexivity].
Qed.

Lemma keepsClient_addIngredients (scale : float) (ingredients : list RecipeIngredient.t) :
  forall acc, keepsClient (addIngredients client scale ingredients acc).
Proof.
  induction ingredients as [ | i rest IH]; intros acc; simpl.
  - apply keepsClient_ret.
  - destruct (RecipeIngredient.ingredient_type i =? "CUPBOARD"); [apply IH | ].
    destruct (negb (RecipeIngredient.availability_status i =? "AVAILABLE")); [apply IH | ].
    apply keepsClient_bind; [apply keepsClient_await; discriminate | intros _; apply IH].
Qed.

Lemma keepsClient_fetchRecipes (now : Z) : keepsClient (fetchRecipes client asRecipe now).
Proof.
  intros w Hready. unfold fetchRecipes. destruct (cacheHit now w) as [data | ].
  - split; [exact Hready | reflexivity].
  - revert w Hready.
    change (keepsClient
              (bind (ensureClientInitialized client)
                 (fun _ =>
                    bind getPicnicClient
                      (fun _ =>
                         bind (await MEALS_PLANNER_ROOT (Client.sendRequest_unknown client))
                           (fun response =>
                              bind (storeRecipes (map asRecipe (extractRecipes response)) now)
                                (fun _ => ret (map asRecipe (extractRecipes response)))))))).
    apply keepsClient_bind; [apply keepsClient_ensureClientInitialized | intros _].
    apply keepsClient_bind; [apply keepsClient_getPicnicClient | intros _].
    apply keepsClient_bind; [apply keepsClient_await; discriminate | intros response].
    apply keepsClient_bind; [ | intros _; apply keepsClient_ret].
    intros w Hready. split; [exact Hready | reflexivity].
Qed.

(** X3. With an existing client no handler initialises the client again:
    whatever the collaborator answers, the checkout, search, deliveries and
    recipe handlers leave the client in place and add no initialisation call
    to the log. *)
Theorem handlers_initialise_once
    (now : Z) (recipe_id query : string) (servings : option float) (filter : list string)
    (limit offset : Q) :
  keepsClient (picnic_checkout client)
  /\ keepsClient (picnic_search client query limit offset)
  /\ keepsClient (picnic_get_deliveries client filter limit offset)
  /\ keepsClient (picnic_get_recipes client asRecipe now)
  /\ keepsClient (picnic_get_recipe_details client asRecipe now recipe_id)
  /\ keepsClient (picnic_add_recipe_to_cart client asRecipe now recipe_id servings).
Proof.
  split; [ | split; [ | split; [ | split; [ | split]]]].
  - unfold picnic_checkout.
    apply keepsClient_bind; [apply keepsClient_ensureClientInitialized | intros _].
    apply keepsClient_bind; [apply keepsClient_getPicnicClient | intros _].
    apply keepsClient_bind; [apply keepsClient_await; discriminate | intros cart].
    destruct (truthyString (Cart.state_token cart)); [ | apply keepsClient_ret].
    destruct (truthyNumber (Cart.mts cart)); [ | apply keepsClient_ret].
    destruct (truthyString (selectedSlotId cart)); [ | apply keepsClient_ret].
    apply keepsClient_bind; [apply keepsClient_await; discriminate | intros startResult].
    destruct (truthyString (StartResult.order_id startResult)); [ | apply keepsClient_ret].
    apply keepsClient_bind; [apply keepsClient_await; discriminate | intros _].
    apply keepsClient_bind; [apply keepsClient_await; discriminate | intros confirmResult].
    apply keepsClient_ret.
  - unfold picnic_search.
    apply keepsClient_bind; [apply keepsClient_ensureClientInitialized | intros _].
    apply keepsClient_bind; [apply keepsClient_getPicnicClient | intros _].
    apply keepsClient_bind; [apply keepsClient_await; discriminate | intros all].
    apply keepsClient_ret.
  - unfold picnic_get_deliveries.
    apply keepsClient_bind; [apply keepsClient_ensureClientInitialized | intros _].
    apply keepsClient_bind; [apply keepsClient_getPicnicClient | intros _].
    apply keepsClient_bind; [apply keepsClient_await; discriminate | intros all].
    apply keepsClient_ret.
  - unfold picnic_get_recipes.
    apply keepsClient_bind; [apply keepsClient_fetchRecipes | intros recipes].
    apply keepsClient_ret.
  - unfold picnic_get_recipe_details.
    apply keepsClient_bind; [apply keepsClient_fetchRecipes | intros recipes].
    unfold getRecipeDetails. destruct (findRecipe recipe_id recipes); apply keepsClient_ret.
  - unfold picnic_add_recipe_to_cart.
    apply keepsClient_bind; [apply keepsClient_fetchRecipes | intros recipes].
    unfold addRecipeToCart. destruct (findRecipe recipe_id recipes); [ | apply keepsClient_ret].
    apply keepsClient_bind; [apply keepsClient_ensureClientInitialized | intros _].
    apply keepsClient_bind; [apply keepsClient_getPicnicClient | intros _].
    apply keepsClient_bind; [apply keepsClient_addIngredients | intros lists].
    apply keepsClient_ret.
Qed.

(** X4. The handlers outside the recipe store never touch the recipe cache:
    whatever the collaborator answers, [picnic_checkout], [picnic_search] and
    [picnic_get_deliveries] leave the cached recipes and their timestamp as
    they are and never request the meal-planner page. *)
Theorem other_handlers_keep_the_cache
    (query : string) (filter : list string) (limit offset : Q) :
  keepsCache (picnic_checkout client)
  /\ keepsCache (picnic_search client query limit offset)
  /\ keepsCache (picnic_get_deliveries client filter limit offset).
Proof.
  split; [ | split].
  - unfold picnic_checkout.
    apply keepsCache_bind; [apply keepsCache_ensureClientInitialized | intros _].
    apply keepsCache_bind; [apply keepsCache_getPicnicClient | intros _].
    apply keepsCache_bind; [apply keepsCache_await; reflexivity | intros cart].
    destruct (truthyString (Cart.state_token cart)); [ | apply keepsCache_ret].
    destruct (truthyNumber (Cart.mts cart)); [ | apply keepsCache_ret].
    destruct (truthyString (selectedSlotId cart)); [ | apply keepsCache_ret].
    apply keepsCache_bind; [apply keepsCache_await; reflexivity | intros startResult].
    destruct (truthyString (StartResult.order_id startResult)); [ | apply keepsCache_ret].
    apply keepsCache_bind; [apply keepsCache_await; reflexivity | intros _].
    apply keepsCache_bind; [apply keepsCache_await | intros confirmResult].
    + unfold isRecipeFetch. reflexivity.
    + apply keepsCache_ret.
  - unfold picnic_search.
    apply keepsCache_bind; [apply keepsCache_ensureClientInitialized | intros _].
    apply keepsCache_bind; [apply keepsCache_getPicnicClient | intros _].
    apply keepsCache_bind; [apply keepsCache_await; reflexivity | intros all].
    apply keepsCache_ret.
  - unfold picnic_get_deliveries.
    apply keepsCache_bind; [apply keepsCache_ensureClientInitialized | intros _].
    apply keepsCache_bind; [apply keepsCache_getPicnicClient | intros _].
    apply keepsCache_bind; [apply keepsCache_await; reflexivity | intros all].
    apply keepsCache_ret.
Qed.

(** X5. Without a client nothing is asked of the service: when the client
    does not exist and its initialisation is rejected, the checkout, search
    and deliveries handlers, and the recipe handlers on a stale or absent
    cache, fail with that error after the initialisation call alone, and the
    recipe cache is left as it was. *)
Theorem rejected_initialisation_stops_the_handler
    (w : World) (e : string) (now : Z) (recipe_id query : string) (servings : option float)
    (filter : list string) (limit offset : Q) :
  clientReady w = false ->
  Client.initialize client (calls w ++ [InitializePicnicClient]) = Thrown e ->
  let failed := (logged w (calls w ++ [InitializePicnicClient])) in
  picnic_checkout client w = (Thrown e, failed)
  /\ picnic_search client query limit offset w = (Thrown e, failed)
  /\ picnic_get_deliveries client filter limit offset w = (Thrown e, failed)
  /\ (cacheHit now w = None ->
      picnic_get_recipes client asRecipe now w = (Thrown e, failed)
      /\ picnic_get_recipe_details client asRecipe now recipe_id w = (Thrown e, failed)
      /\ picnic_add_recipe_to_cart client asRecipe now recipe_id servings w
         = (Thrown e, failed))
  /\ cacheOf failed = cacheOf w.
Proof.
  intros Hready Hinit failed.
  pose proof (ensureClientInitialized_rejected client w e Hready Hinit) as Hrun.
  assert (forall (A : Type) (k : unit -> M A),
            bind (ensureClientInitialized client) k w = (Thrown e, failed)) as Hbind
    by (intros A k; unfold bind; rewrite Hrun; reflexivity).
  split; [apply Hbind | ]. split; [apply Hbind | ]. split; [apply Hbind | ].
  split; [ | reflexivity].
  intros Hmiss.
  assert (fetchRecipes client asRecipe now w = (Thrown e, failed)) as Hfetch
    by (unfold fetchRecipes; rewrite Hmiss; apply Hbind).
  split; [ | split].
  - unfold picnic_get_recipes, bind. rewrite Hfetch. reflexivity.
  - unfold picnic_get_recipe_details, bind. rewrite Hfetch. reflexivity.
  - unfold picnic_add_recipe_to_cart, bind. rewrite Hfetch. reflexivity.
Qed.

End Frames.

Section CacheLife.

Variable client : Client.t.
Variable asRecipe : json -> Recipe.t.

(** X6. A failed refresh does not clobber the cache: when the cache is
    stale or absent and the request for the meal-planner page is rejected,
    [fetchRecipes] and the three recipe handlers fail with that error, the
    page request being the last call, and the cached recipes and timestamp
    are exactly what they were, so that the next call tries again. *)
Theorem failed_refresh_keeps_the_cache
    (now : Z) (w : World) (e : string) (recipe_id : string) (servings : option float) :
  cacheHit now w = None ->
  initOk client w ->
  Client.sendRequest_unknown client (ensured w ++ [MEALS_PLANNER_ROOT]) = Thrown e ->
  let failed := logged (initialized w) (ensured w ++ [MEALS_PLANNER_ROOT]) in
  fetchRecipes client asRecipe now w = (Thrown e, failed)
  /\ picnic_get_recipes client asRecipe now w = (Thrown e, failed)
  /\ picnic_get_recipe_details client asRecipe now recipe_id w = (Thrown e, failed)
  /\ picnic_add_recipe_to_cart client asRecipe now recipe_id servings w = (Thrown e, failed)
  /\ cacheOf failed = cacheOf w
  /\ (forall later, cacheHit later failed = cacheHit later w).
Proof.
  intros Hmiss Hok Hpage failed.
  assert (fetchRecipes client asRecipe now w = (Thrown e, failed)) as Hfetch
    by (rewrite (fetchRecipes_miss client asRecipe now w Hmiss Hok), Hpage; reflexivity).
  split; [exact Hfetch | ].
  split; [unfold picnic_get_recipes, bind; rewrite Hfetch; reflexivity | ].
  split; [unfold picnic_get_recipe_details, bind; rewrite Hfetch; reflexivity | ].
  split; [unfold picnic_add_recipe_to_cart, bind; rewrite Hfetch; reflexivity | ].
  split; reflexivity.
Qed.

(** X7. The freshness window is counted from the refresh and is not
    extended by use: in the world a refresh at [now1] leaves, the cache is
    fresh at [now2] exactly when [now2 - now1] is below five minutes; until
    then [fetchRecipes] returns the same recipes without any call and leaves
    the world as it is. *)
Theorem refresh_opens_the_window
    (now1 : Z) (w w1 : World) (recipes : list Recipe.t) :
  cacheHit now1 w = None ->
  fetchRecipes client asRecipe now1 w = (Returned recipes, w1) ->
  (forall now2,
     cacheHit now2 w1 = if (now2 - now1 <? 5 * 60 * 1000)%Z then Some recipes else None)
  /\ (forall now2,
        (now2 - now1 < 5 * 60 * 1000)%Z ->
        fetchRecipes client asRecipe now2 w1 = (Returned recipes, w1))
  /\ (forall now2 now3,
        (now2 - now1 < 5 * 60 * 1000)%Z ->
        cacheHit now3 (snd (fetchRecipes client asRecipe now2 w1)) = cacheHit now3 w1).
Proof.
  intros Hmiss Hrun.
  destruct (fetchRecipes_returned client asRecipe now1 w w1 recipes Hrun)
    as [[Hhit _] | (_ & _ & response & _ & _ & ->)]; [congruence | ].
  assert (forall now2,
            cacheHit now2 (refreshed w now1 recipes)
            = if (now2 - now1 <? 5 * 60 * 1000)%Z then Some recipes else None) as Hwindow
    by reflexivity.
  assert (forall now2,
            (now2 - now1 < 5 * 60 * 1000)%Z ->
            fetchRecipes client asRecipe now2 (refreshed w now1 recipes)
            = (Returned recipes, refreshed w now1 recipes)) as Hserved.
  { intros now2 Hnow2. apply fetchRecipes_fresh. rewrite Hwindow.
    destruct (Z.ltb_spec (now2 - now1) (5 * 60 * 1000)); [reflexivity | lia]. }
  split; [exact Hwindow | split; [exact Hserved | ]].
  intros now2 now3 Hnow2. rewrite (Hserved now2 Hnow2). reflexivity.
Qed.

End CacheLife.

(** * Further properties of adding a recipe *)

Section Quantities.

Variable client : Client.t.
Variable asRecipe : json -> Recipe.t.

Lemma classes_partition (l : list RecipeIngredient.t) :
  List.length (filter isOrdered l) + List.length (filter isCupboard l)
  + List.length (filter isUnavailable l) = List.length l.
Proof.
  induction l as [ | i l IH]; [reflexivity | ].
  cbn [filter]. unfold isOrdered, isUnavailable in *.
  destruct (isCupboard i); destruct (RecipeIngredient.availability_status i =? "AVAILABLE");
    simpl; lia.
Qed.

Lemma writes_addCalls (quantity : RecipeIngredient.t -> float) (l : list RecipeIngredient.t) :
  writes (addCalls quantity l) = addCalls quantity l.
Proof.
  unfold addCalls, writes. induction (filter isOrdered l) as [ | i rest IH]; simpl.
  - reflexivity.
  - rewrite IH. reflexivity.
Qed.

(** The run of the handler when the add calls are accepted. *)
Lemma add_recipe_accepted
    (now : Z) (w w1 : World) (recipe_id : string) (servings : option float)
    (recipes : list Recipe.t) (recipe : Recipe.t) :
  fetchRecipes client asRecipe now w = (Returned recipes, w1) ->
  findRecipe recipe_id recipes = Some recipe ->
  initOk client w1 ->
  (forall log, Client.addProductToShoppingCart client log = Returned tt) ->
  let quantity := orderedQuantity (resolvedServings servings recipe) recipe in
  picnic_add_recipe_to_cart client asRecipe now recipe_id servings w =
  (Returned
     (inr {| AddRecipeResult.recipe_name := Recipe.name recipe;
             AddRecipeResult.servings := resolvedServings servings recipe;
             AddRecipeResult.added :=
               map (addedItem quantity) (filter isOrdered (Recipe.ingredients recipe));
             AddRecipeResult.skipped_cupboard :=
               map RecipeIngredient.name (filter isCupboard (Recipe.ingredients recipe));
             AddRecipeResult.unavailable :=
               map RecipeIngredient.name (filter isUnavailable (Recipe.ingredients recipe)) |}),
   logged (initialized w1) (ensured w1 ++ addCalls quantity (Recipe.ingredients recipe))).
Proof.
  intros Hfetch Hfind Hok Haccepted quantity.
  rewrite (add_recipe_runs_the_loop client asRecipe now w w1 recipe_id servings recipes recipe
             Hfetch Hfind Hok).
  unfold bind.
  rewrite (addIngredients_accepted client _ quantity (Recipe.ingredients recipe)
             (scaledQuantity_ordered (resolvedServings servings recipe) recipe) Haccepted).
  reflexivity.
Qed.

(** X9. Every ingredient is accounted for exactly once: when the add calls
    are accepted, the numbers of added, cupboard-skipped and unavailable
    entries of the result add up to the number of ingredients of the recipe,
    and the handler has made exactly one write call per added entry. *)
Theorem every_ingredient_is_accounted_for
    (now : Z) (w w1 : World) (recipe_id : string) (servings : option float)
    (recipes : list Recipe.t) (recipe : Recipe.t) :
  fetchRecipes client asRecipe now w = (Returned recipes, w1) ->
  findRecipe recipe_id recipes = Some recipe ->
  initOk client w1 ->
  (forall log, Client.addProductToShoppingCart client log = Returned tt) ->
  exists result w2,
    picnic_add_recipe_to_cart client asRecipe now recipe_id servings w
    = (Returned (inr result), w2)
    /\ List.length (AddRecipeResult.added result)
       + List.length (AddRecipeResult.skipped_cupboard result)
       + List.length (AddRecipeResult.unavailable result)
       = List.length (Recipe.ingredients recipe)
    /\ List.length (writes (calls w2))
       = List.length (writes (calls w1)) + List.length (AddRecipeResult.added result).
Proof.
  intros Hfetch Hfind Hok Haccepted.
  eexists. eexists. split.
  - apply (add_recipe_accepted now w w1 recipe_id servings recipes recipe); assumption.
  - simpl. rewrite !length_map. split; [apply classes_partition | ].
    rewrite writes_app, writes_ensured, writes_addCalls, length_app.
    unfold addCalls. rewrite length_map. reflexivity.
Qed.

End Quantities.

(** * Further properties of the tree search *)

Section Extraction.

Lemma extractRecipes_array (elements : list json) :
  extractRecipes (JArr elements) = flat_map extractRecipes elements.
Proof. rewrite extractRecipes_unfold. reflexivity. Qed.

Lemma extractRecipes_all_match (obj : json) :
  Forall (fun r => matches r = true) (extractRecipes obj).
Proof.
  induction obj as [node IH] using json_children_ind.
  rewrite extractRecipes_unfold. destruct (matches node) eqn:Hnode.
  - constructor; [exact Hnode | constructor].
  - apply Forall_flat_map, Forall_forall. exact IH.
Qed.

Lemma extractRecipes_of_matches (l : list json) :
  Forall (fun r => matches r = true) l -> flat_map extractRecipes l = l.
Proof.
  induction 1 as [ | r l Hr _ IH]; simpl.
  - reflexivity.
  - rewrite extractRecipes_unfold, Hr, IH. reflexivity.
Qed.

(** X11. Extraction returns recipe-shaped objects only, and extracting again
    from its own result changes nothing.  It works element by element: the
    recipes of an array are those of its elements in order, so extraction
    distributes over the concatenation of arrays, and an object that is not a
    recipe is transparent, whatever its keys are. *)
Theorem extraction_is_idempotent
    (obj : json) (xs ys : list json) (rec : list (string * json)) :
  Forall (fun r => matches r = true) (extractRecipes obj)
  /\ extractRecipes (JArr (extractRecipes obj)) = extractRecipes obj
  /\ extractRecipes (JArr (xs ++ ys)) = extractRecipes (JArr xs) ++ extractRecipes (JArr ys)
  /\ (recipeShaped rec = false ->
      extractRecipes (JObj rec) = extractRecipes (JArr (map snd rec))).
Proof.
  split; [apply extractRecipes_all_match | ].
  split; [ | split].
  - rewrite extractRecipes_array.
    apply extractRecipes_of_matches, extractRecipes_all_match.
  - rewrite !extractRecipes_array. apply flat_map_app.
  - intros Hrec. rewrite (extractRecipes_unfold (JObj rec)), extractRecipes_array.
    simpl. rewrite Hrec. reflexivity.
Qed.

End Extraction.

(** * Further properties of pagination *)

Section Tiling.

Context {A : Type}.

Lemma firstn_tile (l : list A) :
  forall n k, firstn n l ++ firstn k (skipn n l) = firstn (n + k) l.
Proof.
  induction l as [ | x l IH]; intros [ | n] k; simpl; try reflexivity.
  - rewrite firstn_nil. reflexivity.
  - rewrite IH. reflexivity.
Qed.

Lemma pages_tile (l : list A) (a b c : nat) :
  a <= b -> b <= c ->
  firstn (b - a) (skipn a l) ++ firstn (c - b) (skipn b l) = firstn (c - a) (skipn a l).
Proof.
  intros Hab Hbc. replace (skipn b l) with (skipn (b - a) (skipn a l)).
  - rewrite firstn_tile. f_equal. lia.
  - rewrite skipn_skipn. f_equal. lia.
Qed.

(** The page both paginated handlers cut at a whole offset and limit. *)
Lemma slice_page (all : list A) (offset limit : Z) :
  (0 <= offset)%Z -> (1 <= limit)%Z ->
  slice all (orNumber (inject_Z offset) 0)
        (orNumber (inject_Z offset) 0 + inject_Z limit)
  = firstn (Z.to_nat (offset + limit) - Z.to_nat offset) (skipn (Z.to_nat offset) all).
Proof.
  intros Hoffset Hlimit. rewrite orNumber_offset, slice_between by lia.
  rewrite elementsBetween_firstn.
  destruct (Nat.le_gt_cases (Z.to_nat (offset + limit)) (List.length all)) as [Hin | Hout].
  - rewrite Nat.min_l by exact Hin. reflexivity.
  - rewrite Nat.min_r by lia.
    destruct (Nat.le_gt_cases (List.length all) (Z.to_nat offset)) as [Hpast | Hbefore].
    + rewrite skipn_all2 by exact Hpast. rewrite !firstn_nil. reflexivity.
    + rewrite !firstn_all2; [reflexivity | | ]; rewrite length_skipn; lia.
Qed.

(** Consecutive pages at whole offsets and limits. *)
Lemma consecutive_pages (all : list A) (offset limit1 limit2 : Z) :
  (0 <= offset)%Z -> (1 <= limit1)%Z -> (1 <= limit2)%Z ->
  let page := fun offset limit =>
    slice all (orNumber (inject_Z offset) 0)
          (orNumber (inject_Z offset) 0 + inject_Z limit) in
  let more := fun offset limit =>
    ltNumber (orNumber (inject_Z offset) 0 + inject_Z limit) (lengthNumber all) in
  page offset limit1 ++ page (offset + limit1)%Z limit2 = page offset (limit1 + limit2)%Z
  /\ (more offset limit1 = false ->
      firstn (Z.to_nat offset) all ++ page offset limit1 = all
      /\ page (offset + limit1)%Z limit2 = [])
  /\ (more offset limit1 = true -> List.length (page offset limit1) = Z.to_nat limit1)
  /\ more offset (limit1 + limit2)%Z = more (offset + limit1)%Z limit2.
Proof.
  intros Hoffset Hlimit1 Hlimit2 page more. unfold page, more.
  rewrite !slice_page by lia. rewrite !orNumber_offset, !ltNumber_integers.
  split; [ | split; [ | split]].
  - replace (offset + limit1 + limit2)%Z with (offset + (limit1 + limit2))%Z by lia.
    apply pages_tile; lia.
  - intros Hlast. apply Z.ltb_ge in Hlast. split.
    + rewrite (firstn_all2 (skipn (Z.to_nat offset) all)) by (rewrite length_skipn; lia).
      apply firstn_skipn.
    + rewrite skipn_all2 by lia. apply firstn_nil.
  - intros Hmore. apply Z.ltb_lt in Hmore.
    rewrite length_firstn, length_skipn. lia.
  - f_equal. lia.
Qed.

End Tiling.

Section Pages.

Variable client : Client.t.

Lemma picnic_get_deliveries_run (filter : list string) (limit offset : Q)
    (allDeliveries : list json) (w : World) :
  initOk client w ->
  Client.getDeliveries client (ensured w ++ [GetDeliveries filter]) = Returned allDeliveries ->
  let startIndex := orNumber offset 0 in
  let pageLimit := orNumber limit 10 in
  let page := slice allDeliveries startIndex (startIndex + pageLimit) in
  picnic_get_deliveries client filter limit offset w =
  (Returned {| DeliveriesResult.deliveries := page;
               DeliveriesResult.pagination :=
                 pagination startIndex pageLimit page allDeliveries |},
   logged (initialized w) (ensured w ++ [GetDeliveries filter])).
Proof.
  intros Hok Hreply. simpl. unfold picnic_get_deliveries.
  rewrite (with_client client _ w Hok), bind_await.
  change (calls (initialized w)) with (ensured w). rewrite Hreply. reflexivity.
Qed.

Lemma picnic_search_run (query : string) (limit offset : Q)
    (allResults : list Product.t) (w : World) :
  initOk client w ->
  Client.search client (ensured w ++ [Search query]) = Returned allResults ->
  let startIndex := orNumber offset 0 in
  let pageLimit := orNumber limit 5 in
  let page := map filterProduct (slice allResults startIndex (startIndex + pageLimit)) in
  picnic_search client query limit offset w =
  (Returned {| SearchResult.query := query;
               SearchResult.results := page;
               SearchResult.pagination := pagination startIndex pageLimit page allResults |},
   logged (initialized w) (ensured w ++ [Search query])).
Proof.
  intros Hok Hreply. simpl. unfold picnic_search.
  rewrite (with_client client _ w Hok), bind_await.
  change (calls (initialized w)) with (ensured w). rewrite Hreply. reflexivity.
Qed.

(** X12. Pages tile the full result: for whole numbers [offset >= 0] and
    limits of at least 1, the page at [offset] followed by the page at
    [offset + limit1] is the page at [offset] of limit [limit1 + limit2].  A
    page that reports no more results reaches the end of the full result,
    and the page after it is empty; a page that reports more holds [limit1]
    elements; the long page reports more exactly when the second page
    does. *)
Theorem deliveries_pages_tile
    (filter : list string) (offset limit1 limit2 : Z) (allDeliveries : list json)
    (w1 w2 w3 : World) :
  (0 <= offset)%Z -> (1 <= limit1)%Z -> (1 <= limit2)%Z ->
  initOk client w1 -> initOk client w2 -> initOk client w3 ->
  (forall log, Client.getDeliveries client log = Returned allDeliveries) ->
  exists first second both,
    fst (picnic_get_deliveries client filter (inject_Z limit1) (inject_Z offset) w1)
    = Returned first
    /\ fst (picnic_get_deliveries client filter (inject_Z limit2)
              (inject_Z (offset + limit1)) w2) = Returned second
    /\ fst (picnic_get_deliveries client filter (inject_Z (limit1 + limit2))
              (inject_Z offset) w3) = Returned both
    /\ DeliveriesResult.deliveries first ++ DeliveriesResult.deliveries second
       = DeliveriesResult.deliveries both
    /\ (Pagination.hasMore (DeliveriesResult.pagination first) = false ->
        firstn (Z.to_nat offset) allDeliveries ++ DeliveriesResult.deliveries first
        = allDeliveries
        /\ DeliveriesResult.deliveries second = [])
    /\ (Pagination.hasMore (DeliveriesResult.pagination first) = true ->
        List.length (DeliveriesResult.deliveries first) = Z.to_nat limit1)
    /\ Pagination.hasMore (DeliveriesResult.pagination both)
       = Pagination.hasMore (DeliveriesResult.pagination second).
Proof.
  intros Hoffset Hlimit1 Hlimit2 Hok1 Hok2 Hok3 Hreply.
  destruct (consecutive_pages allDeliveries offset limit1 limit2 Hoffset Hlimit1 Hlimit2)
    as (Htile & Hlast & Hfull & Hmore).
  eexists. eexists. eexists.
  rewrite (picnic_get_deliveries_run filter _ _ allDeliveries w1 Hok1 (Hreply _)).
  rewrite (picnic_get_deliveries_run filter _ _ allDeliveries w2 Hok2 (Hreply _)).
  rewrite (picnic_get_deliveries_run filter _ _ allDeliveries w3 Hok3 (Hreply _)).
  split; [reflexivity | ]. split; [reflexivity | ]. split; [reflexivity | ].
  simpl. rewrite !(orNumber_inject_Z _ 10) by lia.
  split; [exact Htile | ]. split; [exact Hlast | ]. split; [exact Hfull | exact Hmore].
Qed.

(** X13. The same for the search handler, whose pages are trimmed to the
    essential fields: for whole numbers [offset >= 0] and limits of at least
    1, consecutive pages of results give the long page, and a page that
    reports no more results is followed by an empty page. *)
Theorem search_pages_tile
    (query : string) (offset limit1 limit2 : Z) (allResults : list Product.t)
    (w1 w2 w3 : World) :
  (0 <= offset)%Z -> (1 <= limit1)%Z -> (1 <= limit2)%Z ->
  initOk client w1 -> initOk client w2 -> initOk client w3 ->
  (forall log, Client.search client log = Returned allResults) ->
  exists first second both,
    fst (picnic_search client query (inject_Z limit1) (inject_Z offset) w1) = Returned first
    /\ fst (picnic_search client query (inject_Z limit2) (inject_Z (offset + limit1)) w2)
       = Returned second
    /\ fst (picnic_search client query (inject_Z (limit1 + limit2)) (inject_Z offset) w3)
       = Returned both
    /\ SearchResult.results first ++ SearchResult.results second = SearchResult.results both
    /\ (Pagination.hasMore (SearchResult.pagination first) = false ->
        map filterProduct (firstn (Z.to_nat offset) allResults)
          ++ SearchResult.results first = map filterProduct allResults
        /\ SearchResult.results second = [])
    /\ Pagination.hasMore (SearchResult.pagination both)
       = Pagination.hasMore (SearchResult.pagination second).
Proof.
  intros Hoffset Hlimit1 Hlimit2 Hok1 Hok2 Hok3 Hreply.
  destruct (consecutive_pages allResults offset limit1 limit2 Hoffset Hlimit1 Hlimit2)
    as (Htile & Hlast & _ & Hmore).
  eexists. eexists. eexists.
  rewrite (picnic_search_run query _ _ allResults w1 Hok1 (Hreply _)).
  rewrite (picnic_search_run query _ _ allResults w2 Hok2 (Hreply _)).
  rewrite (picnic_search_run query _ _ allResults w3 Hok3 (Hreply _)).
  split; [reflexivity | ]. split; [reflexivity | ]. split; [reflexivity | ].
  simpl. rewrite !(orNumber_inject_Z _ 5) by lia.
  split; [rewrite <- map_app, Htile; reflexivity | ].
  split; [ | exact Hmore].
  intros Hend. destruct (Hlast Hend) as (Hall & Hempty).
  split.
  - rewrite <- map_app, Hall. reflexivity.
  - rewrite Hempty. reflexivity.
Qed.

End Pages.

(** * Properties of the cart summary *)

Section CartSummary.

Lemma mapCallback_some {A B : Type} (f : A -> option B) (l : list A) :
  forall ys, mapCallback f l = Some ys -> Forall2 (fun x y => f x = Some y) l ys.
Proof.
  induction l as [ | x l IH]; simpl; intros ys Hys.
  - injection Hys as <-. constructor.
  - destruct (f x) as [y | ] eqn:Hx; [ | discriminate].
    destruct (mapCallback f l) as [rest | ]; [ | discriminate].
    injection Hys as <-. constructor; [exact Hx | apply IH; reflexivity].
Qed.

Lemma mapCallback_none {A B : Type} (f : A -> option B) (l : list A) :
  mapCallback f l = None <-> exists x, In x l /\ f x = None.
Proof.
  induction l as [ | x l IH]; simpl.
  - split; [discriminate | intros (x & [] & _)].
  - destruct (f x) as [y | ] eqn:Hx.
    + destruct (mapCallback f l) as [rest | ].
      * split; [discriminate | ]. intros (z & [<- | Hz] & Hnone); [congruence | ].
        destruct IH as [_ IH]. discriminate IH. exists z. split; assumption.
      * split; [ | reflexivity]. intros _. destruct IH as [IH _].
        destruct (IH eq_refl) as (z & Hz & Hnone). exists z. split; [right | ]; assumption.
    + split; [ | reflexivity]. intros _. exists x. split; [left; reflexivity | exact Hx].
Qed.

Lemma orEmpty_none (v : option json) : orEmpty v = None <-> notIterable v = true.
Proof.
  unfold orEmpty, notIterable.
  destruct v as [[ | b | n | s | elements | properties] | ]; simpl;
    try (split; discriminate); try (split; reflexivity).
  - destruct b; simpl; split; congruence.
  - destruct (negb (Qeq_bool n 0)); simpl; split; congruence.
  - destruct (negb (s =? "")); simpl; split; congruence.
Qed.

Lemma orEmpty_some (v : option json) (l : list json) : orEmpty v = Some l -> l = arrayOf v.
Proof.
  unfold orEmpty, arrayOf.
  destruct v as [[ | b | n | s | elements | properties] | ]; simpl; intros H;
    try (injection H as <-; reflexivity); try discriminate.
  - destruct b; [discriminate | injection H as <-; reflexivity].
  - destruct (negb (Qeq_bool n 0)); [discriminate | injection H as <-; reflexivity].
  - destruct (negb (s =? "")); [discriminate | injection H as <-; reflexivity].
Qed.

Lemma member_none (key : string) (v : json) : member key v = None <-> isNull v = true.
Proof. destruct v; simpl; split; congruence. Qed.

Lemma member_items (v : json) (items : option json) :
  member "items" v = Some items -> items = itemsOf v.
Proof. destruct v; simpl; intros H; try discriminate; injection H as <-; reflexivity. Qed.

Lemma filterArticle_none (article : json) : filterArticle article = None <-> isNull article = true.
Proof.
  unfold filterArticle. destruct article; cbn [member isNull]; split;
    solve [reflexivity | discriminate].
Qed.

Lemma filterLine_none (orderLine : json) :
  filterLine orderLine = None <-> brokenLine orderLine = true.
Proof.
  unfold filterLine, brokenLine.
  destruct (member "items" orderLine) as [items | ] eqn:Hitems.
  - assert (isNull orderLine = false) as ->.
    { destruct (isNull orderLine) eqn:E; [ | reflexivity].
      apply member_none with (key := "items") in E. congruence. }
    apply member_items in Hitems. subst items. simpl orb.
    destruct (orEmpty (itemsOf orderLine)) as [articles | ] eqn:Hor.
    + assert (notIterable (itemsOf orderLine) = false) as ->.
      { destruct (notIterable (itemsOf orderLine)) eqn:E; [ | reflexivity].
        apply orEmpty_none in E. congruence. }
      apply orEmpty_some in Hor. subst articles. simpl orb.
      rewrite mapCallback_none, existsb_exists.
      split; intros (x & Hx & H); exists x; (split; [exact Hx | ]);
        apply filterArticle_none; exact H.
    + apply orEmpty_none in Hor. rewrite Hor. split; reflexivity.
  - apply member_none in Hitems. rewrite Hitems. split; reflexivity.
Qed.

(** X14. [filterCartData] throws exactly on a cart object whose [items], or
    the [items] of one of its order lines, is a truthy value that is not an
    array, or that holds [null] as an order line or as an article.  A cart
    that is no object is returned as it is, and so never makes it throw. *)
Theorem cart_summary_throws_on_broken_carts (cart : json) :
  (filterCartData cart = None <-> brokenCart cart = true)
  /\ (truthy cart && typeofObject cart = false -> filterCartData cart = Some (inl cart)).
Proof.
  split.
  - unfold filterCartData, brokenCart.
    destruct cart as [ | b | n | s | elements | properties];
      try (simpl; split; discriminate).
    + destruct (negb (truthy (JBool b)) || negb (typeofObject (JBool b))) eqn:E;
        [simpl; split; discriminate | destruct b; discriminate].
    + destruct (negb (truthy (JNum n)) || negb (typeofObject (JNum n))) eqn:E;
        [simpl; split; discriminate | ].
      simpl in E. rewrite orb_true_r in E. discriminate.
    + destruct (negb (truthy (JStr s)) || negb (typeofObject (JStr s))) eqn:E;
        [simpl; split; discriminate | ].
      simpl in E. rewrite orb_true_r in E. discriminate.
    + cbn [truthy typeofObject negb orb member itemsOf].
      destruct (orEmpty (getProperty "items" properties)) as [orderLines | ] eqn:Hor.
      * assert (notIterable (getProperty "items" properties) = false) as ->.
        { destruct (notIterable (getProperty "items" properties)) eqn:E; [ | reflexivity].
          apply orEmpty_none in E. congruence. }
        apply orEmpty_some in Hor. subst orderLines. simpl orb.
        destruct (mapCallback filterLine (arrayOf (getProperty "items" properties)))
          as [filteredItems | ] eqn:Hmap.
        -- split; [discriminate | ]. intros Hbroken. apply existsb_exists in Hbroken.
           destruct Hbroken as (x & Hx & Hline). apply filterLine_none in Hline.
           assert (mapCallback filterLine (arrayOf (getProperty "items" properties)) = None)
             as Hnone by (apply mapCallback_none; exists x; split; assumption).
           congruence.
        -- split; [ | reflexivity]. intros _. apply mapCallback_none in Hmap.
           destruct Hmap as (x & Hx & Hline). apply existsb_exists. exists x.
           split; [exact Hx | apply filterLine_none, Hline].
      * apply orEmpty_none in Hor. rewrite Hor. split; reflexivity.
  - intros Hcart. unfold filterCartData.
    destruct (truthy cart); destruct (typeofObject cart); try discriminate; reflexivity.
Qed.

Lemma filterArticle_fields (article : json) (item : FilteredArticle.t) :
  filterArticle article = Some item ->
  member "id" article = Some (FilteredArticle.id item)
  /\ member "name" article = Some (FilteredArticle.name item)
  /\ member "price" article = Some (FilteredArticle.price item)
  /\ member "unit_quantity" article = Some (FilteredArticle.unit item)
  /\ (FilteredArticle.image_id item = None
      \/ truthyOpt (FilteredArticle.image_id item) = true).
Proof.
  unfold filterArticle.
  destruct (member "id" article); [ | discriminate].
  destruct (member "name" article); [ | discriminate].
  destruct (member "price" article); [ | discriminate].
  destruct (member "unit_quantity" article); [ | discriminate].
  destruct (member "image_ids" article) as [image_ids | ]; [ | discriminate].
  intros H. injection H as <-. simpl.
  repeat (split; [reflexivity | ]).
  destruct (truthyOpt (indexZero image_ids)) eqn:E; [right; exact E | left; reflexivity].
Qed.

Lemma filterLine_articles (orderLine : json) (items : list FilteredArticle.t) :
  filterLine orderLine = Some items ->
  Forall2 (fun article item => filterArticle article = Some item)
          (arrayOf (itemsOf orderLine)) items.
Proof.
  unfold filterLine.
  destruct (member "items" orderLine) as [v | ] eqn:Hv; [ | discriminate].
  apply member_items in Hv. subst v.
  destruct (orEmpty (itemsOf orderLine)) as [l | ] eqn:Hl; [ | discriminate].
  apply orEmpty_some in Hl. subst l. apply mapCallback_some.
Qed.

Lemma filterLines_articles (orderLines : list json) :
  forall filteredItems,
    mapCallback filterLine orderLines = Some filteredItems ->
    Forall2 (fun article item => filterArticle article = Some item)
            (flat_map (fun orderLine => arrayOf (itemsOf orderLine)) orderLines)
            (concat filteredItems).
Proof.
  intros filteredItems H. apply mapCallback_some in H.
  induction H as [ | orderLine items orderLines filteredItems Hline _ IH]; simpl.
  - constructor.
  - apply Forall2_app; [apply filterLine_articles, Hline | exact IH].
Qed.

(** X15. The summary lists every article of every order line, once and in
    order: its entries carry the [id], [name], [price] and [unit_quantity]
    of the articles of the cart, an [image_id] is present only when it is
    truthy, and the four totals are those of the cart. *)
Theorem cart_summary_lists_every_article (cart : json) (summary : FilteredCart.t) :
  filterCartData cart = Some (inr summary) ->
  Forall2
    (fun article item =>
       member "id" article = Some (FilteredArticle.id item)
       /\ member "name" article = Some (FilteredArticle.name item)
       /\ member "price" article = Some (FilteredArticle.price item)
       /\ member "unit_quantity" article = Some (FilteredArticle.unit item)
       /\ (FilteredArticle.image_id item = None
           \/ truthyOpt (FilteredArticle.image_id item) = true))
    (articles cart) (FilteredCart.items summary)
  /\ List.length (FilteredCart.items summary) = List.length (articles cart)
  /\ member "total_count" cart = Some (FilteredCart.total_count summary)
  /\ member "total_price" cart = Some (FilteredCart.total_price summary)
  /\ member "checkout_total_price" cart = Some (FilteredCart.checkout_total_price summary)
  /\ member "total_savings" cart = Some (FilteredCart.total_savings summary).
Proof.
  intros Hsummary.
  assert (Forall2 (fun article item => filterArticle article = Some item)
                  (articles cart) (FilteredCart.items summary)
          /\ member "total_count" cart = Some (FilteredCart.total_count summary)
          /\ member "total_price" cart = Some (FilteredCart.total_price summary)
          /\ member "checkout_total_price" cart
             = Some (FilteredCart.checkout_total_price summary)
          /\ member "total_savings" cart = Some (FilteredCart.total_savings summary))
    as (Hitems & Htotals).
  { unfold filterCartData in Hsummary.
    destruct (negb (truthy cart) || negb (typeofObject cart)); [discriminate | ].
    destruct (member "items" cart) as [items | ] eqn:Hitems; [ | discriminate].
    destruct (member "total_count" cart); [ | discriminate].
    destruct (member "total_price" cart); [ | discriminate].
    destruct (member "checkout_total_price" cart); [ | discriminate].
    destruct (member "total_savings" cart); [ | discriminate].
    apply member_items in Hitems. subst items.
    destruct (orEmpty (itemsOf cart)) as [orderLines | ] eqn:Hor; [ | discriminate].
    apply orEmpty_some in Hor. subst orderLines.
    destruct (mapCallback filterLine (arrayOf (itemsOf cart))) as [filteredItems | ] eqn:Hmap;
      [ | discriminate].
    injection Hsummary as <-. simpl.
    split; [apply filterLines_articles, Hmap | ].
    repeat split. }
  split; [ | split; [ | exact Htotals]].
  - eapply Forall2_impl; [ | exact Hitems].
    intros article item H. apply filterArticle_fields, H.
  - symmetry. eapply Forall2_length. exact Hitems.
Qed.

End CartSummary.

Section CartHandlerRuns.

Variable client : Client.t.
Variable getShoppingCart_unknown : list Call -> outcome json.

(** X16. [picnic_get_cart] only reads: whatever the collaborator answers, it
    makes no write call and leaves the recipe cache alone.  With a client at
    hand it makes the one call [getShoppingCart]; a rejected call ends the
    handler in that fault, and a cart that cannot be summarised ends it in a
    [TypeError]. *)
Theorem get_cart_only_reads (w : World) :
  let result := picnic_get_cart client getShoppingCart_unknown w in
  let log := ensured w ++ [GetShoppingCart] in
  writes (calls (snd result)) = writes (calls w)
  /\ cacheOf (snd result) = cacheOf w
  /\ (initOk client w ->
      (forall e,
         getShoppingCart_unknown log = Thrown e ->
         result = (Thrown e, logged (initialized w) log))
      /\ (forall cart,
            getShoppingCart_unknown log = Returned cart ->
            result
            = (match filterCartData cart with
               | Some summary => Returned summary
               | None => Thrown TypeError
               end,
               logged (initialized w) log))).
Proof.
  intros result log.
  assert (initOk client w ->
          result
          = (match getShoppingCart_unknown log with
             | Returned cart =>
                 match filterCartData cart with
                 | Some summary => Returned summary
                 | None => Thrown TypeError
                 end
             | Thrown e => Thrown e
             end,
             logged (initialized w) log)) as Hrun.
  { intros Hok. unfold result, picnic_get_cart.
    rewrite (with_client client _ w Hok), bind_await.
    change (calls (initialized w) ++ [GetShoppingCart]) with log.
    destruct (getShoppingCart_unknown log) as [cart | e]; [ | reflexivity].
    unfold sync. destruct (filterCartData cart); reflexivity. }
  split; [ | split].
  - destruct (ensureClientInitialized_cases client w) as [Hinit | (e & Hready & Hinit & Hfail)].
    + assert (initOk client w) as Hok.
      { unfold initOk. destruct (clientReady w) eqn:Hready; [left; reflexivity | right].
        unfold ensureClientInitialized, tryCatch, getPicnicClient in Hinit.
        rewrite Hready in Hinit. unfold initializePicnicClient in Hinit.
        rewrite bind_await in Hinit.
        destruct (Client.initialize client (calls w ++ [InitializePicnicClient]))
          as [[] | e']; [reflexivity | discriminate]. }
      rewrite (Hrun Hok). simpl. unfold log.
      rewrite writes_app, writes_ensured. simpl. apply app_nil_r.
    + unfold result, picnic_get_cart.
      rewrite (with_client_rejected client _ w e Hfail). simpl.
      rewrite writes_app. simpl. apply app_nil_r.
  - destruct (ensureClientInitialized_cases client w) as [Hinit | (e & Hready & Hinit & Hfail)].
    + assert (initOk client w) as Hok.
      { unfold initOk. destruct (clientReady w) eqn:Hready; [left; reflexivity | right].
        unfold ensureClientInitialized, tryCatch, getPicnicClient in Hinit.
        rewrite Hready in Hinit. unfold initializePicnicClient in Hinit.
        rewrite bind_await in Hinit.
        destruct (Client.initialize client (calls w ++ [InitializePicnicClient]))
          as [[] | e']; [reflexivity | discriminate]. }
      rewrite (Hrun Hok). reflexivity.
    + unfold result, picnic_get_cart.
      rewrite (with_client_rejected client _ w e Hfail). reflexivity.
  - intros Hok. rewrite (Hrun Hok). split.
    + intros e He. rewrite He. reflexivity.
    + intros cart Hcart. rewrite Hcart. reflexivity.
Qed.

End CartHandlerRuns.

(** * Properties of the delivery slots *)

Section DeliverySlots.

Local Open Scope string_scope.

Lemma stringSlice_date (date tail : string) :
  String.length date = 10 -> stringSlice 0 10 (date ++ tail) = date.
Proof.
  intros Hdate. unfold stringSlice. change (10 - 0) with (10 + 0).
  rewrite <- Hdate, substring_0_append. destruct tail; apply append_empty_r.
Qed.

Lemma stringSlice_time (date time rest : string) :
  String.length date = 10 -> String.length time = 5 ->
  stringSlice 11 16 (date ++ "T" ++ time ++ rest) = time.
Proof.
  intros Hdate Htime. unfold stringSlice. change (16 - 11) with 5.
  change 11 with (10 + 1). rewrite <- Hdate, substring_skip_append.
  cbn [append substring].
  rewrite <- Htime, <- (Nat.add_0_r (String.length time)), substring_0_append.
  destruct rest; apply append_empty_r.
Qed.

(** X17. The slots offered are the available slots of the reply, in order,
    and [total_available] is their number; a slot that is not available is
    never offered.  [selected] is [true] or absent, never [false]. *)
Theorem only_available_slots_are_offered (result : SlotsReply.t) :
  let offered := picnic_get_delivery_slots result in
  let delivery_slots :=
    match SlotsReply.delivery_slots result with
    | Some delivery_slots => delivery_slots
    | None => []
    end in
  map SlotSummary.slot_id (SlotsResult.slots offered)
  = map Slot.slot_id (filter (fun s => truthyBool (Slot.is_available s)) delivery_slots)
  /\ SlotsResult.total_available offered = lengthNumber (SlotsResult.slots offered)
  /\ List.length (SlotsResult.slots offered) <= List.length delivery_slots
  /\ (List.length (SlotsResult.slots offered) = List.length delivery_slots <->
      Forall (fun s => Slot.is_available s = Some true) delivery_slots)
  /\ Forall (fun s => SlotSummary.selected s <> Some false) (SlotsResult.slots offered).
Proof.
  intros offered delivery_slots. unfold offered, picnic_get_delivery_slots.
  fold delivery_slots. simpl.
  split; [ | split; [reflexivity | split; [ | split]]].
  - rewrite map_map. reflexivity.
  - rewrite length_map. apply filter_length_le.
  - rewrite length_map. clear offered.
    induction delivery_slots as [ | s l IH]; simpl.
    + split; [constructor | reflexivity].
    + destruct (Slot.is_available s) as [[ | ] | ] eqn:Hs; simpl.
      * split.
        -- intros H. constructor; [exact Hs | apply IH; lia].
        -- intros H. inversion H; subst. f_equal. apply IH. assumption.
      * pose proof (filter_length_le (fun s => truthyBool (Slot.is_available s)) l) as Hle.
        split; [lia | ]. intros H. inversion H; subst. congruence.
      * pose proof (filter_length_le (fun s => truthyBool (Slot.is_available s)) l) as Hle.
        split; [lia | ]. intros H. inversion H; subst. congruence.
  - apply Forall_forall. intros o Ho. apply in_map_iff in Ho.
    destruct Ho as (s & <- & _). simpl.
    destruct (truthyBool (Slot.selected s)); discriminate.
Qed.

(** X18. An available slot whose timestamps are ISO texts
    ([date ++ "T" ++ time ++ rest], a date of ten characters and a time of
    five) is offered with the date and the time of its start, the time of
    its end and its cut-off time as [date ++ " " ++ time].  The date of the
    end is not part of the summary. *)
Theorem slot_times_are_cut_from_the_timestamps
    (result : SlotsReply.t) (delivery_slots : list Slot.t) (s : Slot.t)
    (date1 time1 rest1 date2 time2 rest2 date3 time3 rest3 : string) :
  SlotsReply.delivery_slots result = Some delivery_slots ->
  In s delivery_slots ->
  Slot.is_available s = Some true ->
  Slot.window_start s = Some (date1 ++ "T" ++ time1 ++ rest1) ->
  Slot.window_end s = Some (date2 ++ "T" ++ time2 ++ rest2) ->
  Slot.cut_off_time s = Some (date3 ++ "T" ++ time3 ++ rest3) ->
  String.length date1 = 10 -> String.length time1 = 5 ->
  String.length date2 = 10 -> String.length time2 = 5 ->
  String.length date3 = 10 -> String.length time3 = 5 ->
  index 0 "T" date3 = None ->
  In {| SlotSummary.slot_id := Slot.slot_id s;
        SlotSummary.date := Some date1;
        SlotSummary.start := Some time1;
        SlotSummary.end_ := Some time2;
        SlotSummary.cut_off := Some (date3 ++ " " ++ time3);
        SlotSummary.selected := if truthyBool (Slot.selected s) then Some true else None |}
     (SlotsResult.slots (picnic_get_delivery_slots result)).
Proof.
  intros Hslots Hin Havailable Hstart Hend Hcut Hd1 Ht1 Hd2 Ht2 Hd3 Ht3 HnoT.
  unfold picnic_get_delivery_slots. rewrite Hslots. simpl.
  apply in_map_iff. exists s. split.
  - unfold slotSummary. rewrite Hstart, Hend, Hcut.
    rewrite (displayTime_iso date3 time3 rest3 Hd3 Ht3 HnoT). cbn [option_map].
    rewrite (stringSlice_date date1 _ Hd1).
    rewrite (stringSlice_time date1 time1 rest1 Hd1 Ht1).
    rewrite (stringSlice_time date2 time2 rest2 Hd2 Ht2).
    reflexivity.
  - apply filter_In. split; [exact Hin | ]. rewrite Havailable. reflexivity.
Qed.

End DeliverySlots.

(** * Further runs *)

Section FurtherRuns.

Import Example.
Import Cases.

(** The payment is rejected after the cart has been read and the checkout
    started: the handler ends in that fault with three calls made. *)
Lemma checkout_rejection_witness :
  picnic_checkout unreachable initialWorld
  = (Thrown "Service unavailable",
     logged (initialized initialWorld)
       [InitializePicnicClient; GetShoppingCart; startCall 1712 "token"; payCall "O1"]).
Proof.
  pose proof (checkout_rejection_is_fatal unreachable initialWorld "Service unavailable"
                (or_intror eq_refl)) as Hrun.
  cbv zeta in Hrun. destruct Hrun as (_ & Hcart).
  destruct (Hcart validCart "token" 1712%Q "slot-1" eq_refl eq_refl eq_refl eq_refl)
    as (_ & Hstart).
  destruct (Hstart started "O1" eq_refl eq_refl) as (Hpay & _).
  exact (Hpay eq_refl).
Defined.

Lemma rejected_initialisation_witness :
  picnic_checkout offline initialWorld
  = (Thrown "Login failed", logged initialWorld [InitializePicnicClient])
  /\ picnic_get_recipes offline readRecipe 1000 initialWorld
     = (Thrown "Login failed", logged initialWorld [InitializePicnicClient]).
Proof.
  pose proof (rejected_initialisation_stops_the_handler offline readRecipe initialWorld
                "Login failed" 1000 "r1" "melk" None [] 10 0 eq_refl eq_refl) as Hrun.
  cbv zeta in Hrun. destruct Hrun as (Hcheckout & _ & _ & Hrecipes & _).
  split; [exact Hcheckout | ]. exact (proj1 (Hrecipes eq_refl)).
Defined.

(** The page cannot be fetched when the cache has expired: the listing fails
    and the expired cache is still there. *)
Lemma failed_refresh_witness :
  picnic_get_recipes unreachable readRecipe 301000 cached
  = (Thrown "Service unavailable", logged cached [MEALS_PLANNER_ROOT])
  /\ cacheOf (logged cached [MEALS_PLANNER_ROOT]) = (Some [pomodoro; seasoning], 1000%Z).
Proof.
  pose proof (failed_refresh_keeps_the_cache unreachable readRecipe 301000 cached
                "Service unavailable" "r1" None eq_refl (or_introl eq_refl) eq_refl) as Hrun.
  cbv zeta in Hrun. destruct Hrun as (_ & Hlist & _ & _ & Hcache & _).
  split; [exact Hlist | exact Hcache].
Defined.

Lemma refresh_window_witness :
  cacheHit 300999 (snd (fetchRecipes shop readRecipe 1000 initialWorld))
  = Some (map readRecipe (extractRecipes page))
  /\ cacheHit 301000 (snd (fetchRecipes shop readRecipe 1000 initialWorld)) = None.
Proof.
  destruct (refresh_opens_the_window shop readRecipe 1000 initialWorld
              (snd (fetchRecipes shop readRecipe 1000 initialWorld))
              (map readRecipe (extractRecipes page)) eq_refl eq_refl) as (Hwindow & _).
  split; [exact (Hwindow 300999%Z) | exact (Hwindow 301000%Z)].
Defined.

(** Five ingredients: three added, one from the cupboard, one unavailable. *)
Lemma accounted_ingredients_witness :
  exists result w2,
    picnic_add_recipe_to_cart shop readRecipe 2000 "r1" (Some 4%float) cached
    = (Returned (inr result), w2)
    /\ List.length (AddRecipeResult.added result)
       + List.length (AddRecipeResult.skipped_cupboard result)
       + List.length (AddRecipeResult.unavailable result) = 5
    /\ List.length (writes (calls w2)) = List.length (AddRecipeResult.added result).
Proof.
  destruct (every_ingredient_is_accounted_for shop readRecipe 2000 cached cached "r1"
              (Some 4%float) [pomodoro; seasoning] pomodoro eq_refl eq_refl (or_introl eq_refl)
              (fun _ => eq_refl)) as (result & w2 & Hrun & Hcount & Hwrites).
  exists result, w2. split; [exact Hrun | split; [exact Hcount | exact Hwrites]].
Defined.

(** The example of the specification as consecutive pages: 23 deliveries,
    the pages at 0 and at 10 of limit 10 give the page at 0 of limit 20, and
    the page at 20 ends the result. *)
Lemma deliveries_pages_witness :
  exists page1 page2 long,
    fst (picnic_get_deliveries shop [] 10 0 initialWorld) = Returned page1
    /\ fst (picnic_get_deliveries shop [] 10 10 initialWorld) = Returned page2
    /\ fst (picnic_get_deliveries shop [] 20 0 initialWorld) = Returned long
    /\ DeliveriesResult.deliveries page1 ++ DeliveriesResult.deliveries page2
       = DeliveriesResult.deliveries long
    /\ List.length (DeliveriesResult.deliveries page1) = 10.
Proof.
  destruct (deliveries_pages_tile shop [] 0 10 10 deliveries
              initialWorld initialWorld initialWorld (Z.le_refl 0) ltac:(lia) ltac:(lia)
              (or_intror eq_refl) (or_intror eq_refl) (or_intror eq_refl) (fun _ => eq_refl))
    as (page1 & page2 & long & H1 & H2 & H3 & Htile & _ & Hfull & _).
  exists page1, page2, long.
  split; [exact H1 | split; [exact H2 | split; [exact H3 | split; [exact Htile | ]]]].
  apply Hfull. injection H1 as <-. reflexivity.
Defined.

Lemma search_pages_witness :
  exists page1 page2 long,
    fst (picnic_search shop "melk" 20 0 initialWorld) = Returned page1
    /\ fst (picnic_search shop "melk" 5 20 initialWorld) = Returned page2
    /\ fst (picnic_search shop "melk" 25 0 initialWorld) = Returned long
    /\ SearchResult.results page1 ++ SearchResult.results page2 = SearchResult.results long.
Proof.
  destruct (search_pages_tile shop "melk" 0 20 5 products
              initialWorld initialWorld initialWorld (Z.le_refl 0) ltac:(lia) ltac:(lia)
              (or_intror eq_refl) (or_intror eq_refl) (or_intror eq_refl) (fun _ => eq_refl))
    as (page1 & page2 & long & H1 & H2 & H3 & Htile & _).
  exists page1, page2, long.
  split; [exact H1 | split; [exact H2 | split; [exact H3 | exact Htile]]].
Defined.

(** The summary of the basket: three articles from two order lines, the
    image of the first article only. *)
Example filterCartData_basket :
  option_map
    (fun r =>
       match r with
       | inr summary =>
           map (fun i => (FilteredArticle.id i, FilteredArticle.image_id i))
               (FilteredCart.items summary)
       | inl _ => []
       end)
    (filterCartData basket)
  = Some [(Some (JStr "a1"), Some (JStr "img-1")); (Some (JStr "a2"), None);
          (Some (JStr "a3"), None)]
  /\ filterCartData brokenBasket = None
  /\ filterCartData (JStr "empty") = Some (inl (JStr "empty")).
Proof. repeat split. Qed.

Lemma cart_summary_witness :
  exists summary,
    filterCartData basket = Some (inr summary)
    /\ List.length (FilteredCart.items summary) = 3
    /\ FilteredCart.total_savings summary = None.
Proof.
  eexists. split; [reflexivity | ].
  destruct (cart_summary_lists_every_article basket _ eq_refl) as (_ & Hlength & _).
  split; [exact Hlength | reflexivity].
Defined.

(** The first and the third slot of the reply are available. *)
Example picnic_get_delivery_slots_reply :
  picnic_get_delivery_slots slotsReply
  = {| SlotsResult.slots :=
         [{| SlotSummary.slot_id := Some "s1";
             SlotSummary.date := Some "2024-06-01";
             SlotSummary.start := Some "18:00";
             SlotSummary.end_ := Some "19:00";
             SlotSummary.cut_off := Some "2024-05-31 22:00";
             SlotSummary.selected := None |};
          {| SlotSummary.slot_id := Some "s3";
             SlotSummary.date := Some "2024-06-03";
             SlotSummary.start := Some "18:00";
             SlotSummary.end_ := Some "19:00";
             SlotSummary.cut_off := Some "2024-05-31 22:00";
             SlotSummary.selected := Some true |}];
       SlotsResult.selected_slot_id := Some "s3";
       SlotsResult.total_available := 2 |}.
Proof. reflexivity. Qed.

Lemma slot_times_witness :
  In {| SlotSummary.slot_id := Some "s3";
        SlotSummary.date := Some "2024-06-03";
        SlotSummary.start := Some "18:00";
        SlotSummary.end_ := Some "19:00";
        SlotSummary.cut_off := Some "2024-05-31 22:00";
        SlotSummary.selected := Some true |}
     (SlotsResult.slots (picnic_get_delivery_slots slotsReply)).
Proof.
  exact (slot_times_are_cut_from_the_timestamps slotsReply _
           (slot "s3" "2024-06-03" (Some true) (Some true))
           "2024-06-03" "18:00" ":00.000+02:00" "2024-06-03" "19:00" ":00.000+02:00"
           "2024-05-31" "22:00" ":00.000+02:00"
           eq_refl (or_intror (or_intror (or_introl eq_refl))) eq_refl eq_refl eq_refl eq_refl
           eq_refl eq_refl eq_refl eq_refl eq_refl eq_refl eq_refl).
Defined.

(** Reading the cart from a process that has just started: the client is
    initialised, the cart is read, and a cart that cannot be summarised ends
    the handler in a [TypeError] after the same two calls. *)
Example picnic_get_cart_runs :
  (exists summary,
     picnic_get_cart shop (fun _ => Returned basket) initialWorld
     = (Returned (inr summary),
        logged (initialized initialWorld) [InitializePicnicClient; GetShoppingCart])
     /\ List.length (FilteredCart.items summary) = 3)
  /\ picnic_get_cart shop (fun _ => Returned brokenBasket) initialWorld
     = (Thrown TypeError,
        logged (initialized initialWorld) [InitializePicnicClient; GetShoppingCart]).
Proof. split; [eexists; split; reflexivity | reflexivity]. Qed.

End FurtherRuns.
